(** * rehype-spotlight: a shallow embedding of the spotlight annotator

    The plugin walks a hast tree, finds every [pre] element, takes its first
    [code] child and classifies the [span.line] children of that element as
    [spotlight] or [dim], driven by the two comment markers
    [// spotlight-start] and [// spotlight-end].

    The JavaScript mutates nodes in place and keeps two views of the same
    objects ([lineSpans] and [codeEl.children]); the embedding therefore
    keeps the children of the code element in a store indexed by object
    identity and lets both views hold references into it.

    Two revisions are embedded: the current one (module [Spotlight]: the
    trailing cleanup, marker-only lines, the placeholder for blank
    spotlighted lines) and the earlier one of
    src/plugins/rehype-spotlight.mjs (module [Earlier]).

    Nodes are the elements and texts of hast; an element always carries a
    property bag and a child array, as hast has it, and of the properties
    only [className] matters here. *)

From Stdlib Require Import String Ascii Lia.
From stdpp Require Import base numbers option list.

Local Open Scope N_scope.
Local Open Scope list_scope.

(** ** JavaScript strings

    A JavaScript string is a sequence of UTF-16 code units; a code unit is
    kept as its number. *)

Module JS.

Abbreviation char := N (only parsing).
Abbreviation str := (list N) (only parsing).

(** A literal of the source; all of them are ASCII. *)
Definition lit (s : string) : str :=
  map N_of_ascii (list_ascii_of_string s).

(** [s === t] on strings. *)
Fixpoint eqb (s t : str) : bool :=
  match s, t with
  | [], [] => true
  | c :: s', d :: t' => N.eqb c d && eqb s' t'
  | _, _ => false
  end.

(** A string is truthy when it is not empty. *)
Definition truthy (s : str) : bool :=
  match s with [] => false | _ :: _ => true end.

(** The characters matched by [\s] in a regular expression and removed by
    [String.prototype.trim]: WhiteSpace and LineTerminator of ECMAScript. *)
Definition isSpace (c : char) : bool :=
  (9 <=? c) && (c <=? 13)
  || N.eqb c 32 || N.eqb c 160 || N.eqb c 5760
  || (8192 <=? c) && (c <=? 8202)
  || N.eqb c 8232 || N.eqb c 8233 || N.eqb c 8239 || N.eqb c 8287
  || N.eqb c 12288 || N.eqb c 65279.

Fixpoint dropSpaces (s : str) : str :=
  match s with
  | [] => []
  | c :: s' => if isSpace c then dropSpaces s' else s
  end.

(** [s.trim()]. *)
Definition trim (s : str) : str :=
  rev (dropSpaces (rev (dropSpaces s))).

Fixpoint startsWith (m s : str) : bool :=
  match m, s with
  | [], _ => true
  | c :: m', d :: s' => N.eqb c d && startsWith m' s'
  | _ :: _, [] => false
  end.

(** [s.includes(m)]. *)
Fixpoint includes (m s : str) : bool :=
  startsWith m s ||
  match s with
  | [] => false
  | _ :: s' => includes m s'
  end.

(** [s.replace(/m\s*/, "")] for a literal [m]: the leftmost occurrence of
    [m] is removed together with the longest run of white space after it;
    the regular expression has no [g] flag, so later occurrences stay. *)
Fixpoint stripMarker (m s : str) : str :=
  if startsWith m s then dropSpaces (drop (length m) s)
  else match s with
       | [] => []
       | c :: s' => c :: stripMarker m s'
       end.

(** [xs.join("")]. *)
Definition join (xs : list str) : str := concat xs.

(** [xs.indexOf(x)] on an array of references: the first position, or -1. *)
Fixpoint indexOf (xs : list nat) (x : nat) : Z :=
  match xs with
  | [] => (-1)%Z
  | y :: xs' =>
      if Nat.eqb y x then 0%Z
      else let k := indexOf xs' x in
           if (k <? 0)%Z then (-1)%Z else (k + 1)%Z
  end.

(** [xs[k]]: [undefined] outside the array. *)
Definition at_ {A} (xs : list A) (k : Z) : option A :=
  if (k <? 0)%Z then None else xs !! Z.to_nat k.

End JS.

(** ** Nodes of the tree *)

(** [properties.className] is an array of class tokens or is absent. *)
Abbreviation classes := (option (list JS.str)) (only parsing).

#[local] Unset Elimination Schemes.
Inductive node :=
| Text (value : JS.str)
| Element (tagName : JS.str) (className : classes) (children : list node).
#[local] Set Elimination Schemes.

Definition START : JS.str := JS.lit "// spotlight-start".
Definition END_ : JS.str := JS.lit "// spotlight-end".
Definition NEWLINE : JS.str := [10].
Definition NBSP : JS.str := [160].

Definition isElement (n : node) : bool :=
  match n with Element _ _ _ => true | Text _ => false end.

(** [n.tagName === t]; a text node has no [tagName]. *)
Definition hasTag (t : string) (n : node) : bool :=
  match n with
  | Element tag _ _ => JS.eqb tag (JS.lit t)
  | Text _ => false
  end.

(** [cls?.includes(c)] on the class array. *)
Definition classIncludes (c : string) (cls : classes) : bool :=
  match cls with
  | Some l => existsb (JS.eqb (JS.lit c)) l
  | None => false
  end.

(** The filter that computes [lineSpans]. *)
Definition isLine (n : node) : bool :=
  match n with
  | Element tag cls _ => JS.eqb tag (JS.lit "span") && classIncludes "line" cls
  | Text _ => false
  end.

(** [n.type === "text" && n.value === "\n"]. *)
Definition isNewlineText (n : node) : bool :=
  match n with
  | Text v => JS.eqb v NEWLINE
  | Element _ _ _ => false
  end.

(** [getText]: the value of a node that has a truthy one, else the joined
    text of the children, else the empty string. *)
Fixpoint getText (n : node) : JS.str :=
  match n with
  | Text v => if JS.truthy v then v else []
  | Element _ _ cs => JS.join (map getText cs)
  end.

(** [hasMarker]: some text value below the node holds a marker whole. *)
Fixpoint hasMarker (n : node) : bool :=
  match n with
  | Text v =>
      if JS.truthy v then JS.includes START v || JS.includes END_ v
      else false
  | Element _ _ cs => existsb hasMarker cs
  end.

(** [transformNode] of the start and of the end branch, which differ in the
    marker of the regular expression only. *)
Fixpoint transformNode (m : JS.str) (n : node) : node :=
  match n with
  | Text v => if JS.truthy v then Text (JS.stripMarker m v) else Text v
  | Element tag cls cs => Element tag cls (map (transformNode m) cs)
  end.

Definition isBlank (text : JS.str) : bool := JS.eqb (JS.trim text) [].

(** [span.properties.className = [...span.properties.className, c]];
    spreading an absent class array, or reading the properties of a text
    node, throws. *)
Definition addClass (c : string) (n : node) : option node :=
  match n with
  | Element tag (Some cls) cs => Some (Element tag (Some (cls ++ [JS.lit c])) cs)
  | _ => None
  end.

(** [span.children = cs]. *)
Definition setChildren (cs : list node) (n : node) : node :=
  match n with
  | Element tag cls _ => Element tag cls cs
  | Text v => Text v
  end.

(** ** The store of child objects

    Every child of the code element is an object with an identity; the
    plugin sets [shouldRemove] on it and reaches it through [lineSpans] as
    well as through [codeEl.children]. A reference is the position the
    object had in the child list when the visitor started. *)

Abbreviation ref := nat (only parsing).

Record obj := Obj { content : node; shouldRemove : bool }.

Abbreviation store := (list obj) (only parsing).

Definition alloc (cs : list node) : store := map (fun n => Obj n false) cs.

Definition markRemove (r : ref) (h : store) : store :=
  alter (fun o => Obj (content o) true) r h.

Definition setContent (r : ref) (n : node) (h : store) : store :=
  alter (fun o => Obj n (shouldRemove o)) r h.

(** [!child.shouldRemove]. *)
Definition kept (h : store) (r : ref) : bool :=
  match h !! r with
  | Some o => negb (shouldRemove o)
  | None => true
  end.

Definition refsWhere (p : node -> bool) (h : store) (rs : list ref) : list ref :=
  List.filter (fun r => match h !! r with Some o => p (content o) | None => false end) rs.

(** Marks the sibling at position [k] of [children] when it is a newline
    text: the [if (x && x.type === "text" && x.value === "\n")] blocks. *)
Definition markNewlineAt (children : list ref) (k : Z) (h : store) : store :=
  match JS.at_ children k with
  | Some r =>
      match h !! r with
      | Some o => if isNewlineText (content o) then markRemove r h else h
      | None => h
      end
  | None => h
  end.

(** ** The current revision (lines 18 to 109) *)

Module Spotlight.

(** Lines 18 to 33: the trailing blank line. *)
Definition markTrailing (children lineSpans : list ref) (h : store) : option store :=
  match last lineSpans with
  | None => Some h
  | Some lastSpan =>
      o ← h !! lastSpan;
      if isBlank (getText (content o)) then
        let h1 := markRemove lastSpan h in
        let lastSpanIndex := JS.indexOf children lastSpan in
        Some (markNewlineAt children (lastSpanIndex - 1)%Z h1)
      else Some h
  end.

(** Lines 37 to 48. *)
Definition hasSpotlights (lineSpans : list ref) (h : store) : bool :=
  existsb (fun r => match h !! r with
                    | Some o => hasMarker (content o)
                    | None => false
                    end) lineSpans.

Definition isMarkerOnly (text : JS.str) : bool :=
  JS.eqb (JS.trim text) START || JS.eqb (JS.trim text) END_.

(** Lines 57 to 106: the callback of [lineSpans.forEach], on the store and
    on [isSpotlighting]. *)
Definition lineStep (children : list ref) (st : store * bool) (span : ref)
  : option (store * bool) :=
  let '(h, isSpotlighting) := st in
  o ← h !! span;
  let text := getText (content o) in
  if isMarkerOnly text then
    let h1 := markRemove span h in
    let h2 := markNewlineAt children (JS.indexOf children span + 1)%Z h1 in
    Some (h2, JS.includes (JS.lit "spotlight-start") text)
  else if JS.includes START text then
    Some (setContent span (transformNode START (content o)) h, true)
  else if JS.includes END_ text then
    Some (setContent span (transformNode END_ (content o)) h, false)
  else if isSpotlighting then
    n ← addClass "spotlight" (content o);
    let n' := if isBlank text then setChildren [Text NBSP] n else n in
    Some (setContent span n' h, isSpotlighting)
  else
    n ← addClass "dim" (content o);
    Some (setContent span n h, isSpotlighting).

Fixpoint forEach (children : list ref) (lineSpans : list ref) (st : store * bool)
  : option (store * bool) :=
  match lineSpans with
  | [] => Some st
  | span :: rest => st' ← lineStep children st span; forEach children rest st'
  end.

(** The state of the code element when the visitor leaves it. *)
Record run := Run {
  codeClass : classes;
  heap : store;
  childRefs : list ref
}.

(** Lines 11 to 109, on the class array and the children of [codeEl]. *)
Definition runCode (cls : classes) (cs : list node) : option run :=
  let h0 := alloc cs in
  let children0 := seq 0 (length cs) in
  let lineSpans := refsWhere isLine h0 children0 in
  h1 ← markTrailing children0 lineSpans h0;
  let children1 := List.filter (kept h1) children0 in
  if hasSpotlights lineSpans h1 then
    let cls' := Some (default [] cls ++ [JS.lit "has-spotlights"]) in
    '(h2, _) ← forEach children1 lineSpans (h1, false);
    Some (Run cls' h2 (List.filter (kept h2) children1))
  else Some (Run cls h1 children1).

(** The children the code element ends with. *)
Definition outChildren (r : run) : list node :=
  omap (fun i => content <$> heap r !! i) (childRefs r).

Definition processCode (cls : classes) (cs : list node) : option (classes * list node) :=
  r ← runCode cls cs; Some (codeClass r, outChildren r).

End Spotlight.

(** ** The earlier revision (src/plugins/rehype-spotlight.mjs)

    It classifies a line first, then strips both markers from every text
    below it while pruning what becomes empty, and at the end drops every
    [span] child of the code element that has no children left. *)

Module Earlier.

(** [transformNode]: the node after the rewrite, and whether the caller is
    to drop it. A text with a falsy value is left alone and kept. *)
Fixpoint transformNode (n : node) : node * bool :=
  match n with
  | Text v =>
      if JS.truthy v then
        let v' := JS.stripMarker END_ (JS.stripMarker START v) in
        (Text v', isBlank v')
      else (Text v, false)
  | Element tag cls cs =>
      let cs' :=
        (fix prune (l : list node) : list node :=
           match l with
           | [] => []
           | c :: l' =>
               let '(c', empty) := transformNode c in
               if empty then prune l' else c' :: prune l'
           end) cs in
      (Element tag cls cs', match cs' with [] => true | _ :: _ => false end)
  end.

Definition hasSpotlights := Spotlight.hasSpotlights.

(** Lines 29 to 64: the callback of [lineSpans.forEach]. *)
Definition lineStep (st : store * bool) (span : ref) : option (store * bool) :=
  let '(h, isSpotlighting) := st in
  o ← h !! span;
  let text := getText (content o) in
  '(n, b) ←
    (if JS.includes START text then Some (content o, true)
     else if JS.includes END_ text then Some (content o, false)
     else if isSpotlighting then
       n ← addClass "spotlight" (content o); Some (n, isSpotlighting)
     else
       n ← addClass "dim" (content o); Some (n, isSpotlighting));
  let '(n', isEmpty) := transformNode n in
  let n'' := if isEmpty then setChildren [] n' else n' in
  Some (setContent span n'' h, b).

Fixpoint forEach (lineSpans : list ref) (st : store * bool) : option (store * bool) :=
  match lineSpans with
  | [] => Some st
  | span :: rest => st' ← lineStep st span; forEach rest st'
  end.

(** The test of the final filter (lines 67 to 74): a [span] element without
    children. *)
Definition isEmptySpan (n : node) : bool :=
  match n with
  | Element tag _ cs =>
      JS.eqb tag (JS.lit "span") && match cs with [] => true | _ :: _ => false end
  | Text _ => false
  end.

Definition processCode (cls : classes) (cs : list node) : option (classes * list node) :=
  let h0 := alloc cs in
  let children0 := seq 0 (length cs) in
  let lineSpans := refsWhere isLine h0 children0 in
  if hasSpotlights lineSpans h0 then
    let cls' := Some (default [] cls ++ [JS.lit "has-spotlights"]) in
    '(h1, _) ← forEach lineSpans (h0, false);
    let children1 :=
      List.filter (fun r => match h1 !! r with
                            | Some o => negb (isEmptySpan (content o))
                            | None => true
                            end) children0 in
    Some (cls', omap (fun i => content <$> h1 !! i) children1)
  else Some (cls, cs).

End Earlier.

(** ** The visitor and the traversal *)

Section Visit.

Variable process : classes -> list node -> option (classes * list node).

(** Lines 7 to 111: the callback handed to [visit]. The code element is the
    first child of a [pre] whose tag is [code]; it is rewritten in place. *)
Definition visitor (n : node) : option node :=
  match n with
  | Element tag cls children =>
      if JS.eqb tag (JS.lit "pre") then
        let codeEls :=
          List.filter (fun r => match children !! r with
                                | Some c => hasTag "code" c
                                | None => false
                                end) (seq 0 (length children)) in
        match head codeEls with
        | Some codeEl =>
            match children !! codeEl with
            | Some (Element ctag ccls cch) =>
                '(ccls', cch') ← process ccls cch;
                Some (Element tag cls (<[codeEl := Element ctag ccls' cch']> children))
            | _ => Some n
            end
        | None => Some n
        end
      else Some n
  | Text _ => Some n
  end.

(** [visit(tree, "element", visitor)] of unist-util-visit: preorder; the
    visitor runs on an element before the walk reads that element's
    children, so the walk goes through the children the visitor left.
    [fuel] bounds the nesting of elements; [None] stands for a thrown
    exception or for exhausted fuel. *)
Fixpoint visit (fuel : nat) (n : node) : option node :=
  match n with
  | Text _ => Some n
  | Element _ _ _ =>
      match fuel with
      | O => None
      | S fuel' =>
          n' ← visitor n;
          match n' with
          | Element tag cls cs =>
              cs' ← mapM (visit fuel') cs; Some (Element tag cls cs')
          | Text _ => Some n'
          end
      end
  end.

End Visit.

(** The nesting depth of elements. *)
Fixpoint depth (n : node) : nat :=
  match n with
  | Text _ => O
  | Element _ _ cs => S (foldr Nat.max O (map depth cs))
  end.

(** [annotate(tree)]: the transform on a root, given by the root's children
    (a root is not an element, so the visitor never runs on it). *)
Definition annotateWith process (tree : list node) : option (list node) :=
  mapM (visit process (foldr Nat.max O (map depth tree))) tree.

(** The transform [rehypeSpotlight()] returns; the specification calls it
    [annotate]. *)
Definition rehypeSpotlight : list node -> option (list node) :=
  annotateWith Spotlight.processCode.

Definition annotate : list node -> option (list node) := rehypeSpotlight.

Definition annotateEarlier : list node -> option (list node) :=
  annotateWith Earlier.processCode.

(** Induction on nodes, with the hypothesis for every child. *)
Fixpoint node_forall_ind (P : node -> Prop)
    (HText : forall v, P (Text v))
    (HElement : forall tag cls cs, Forall P cs -> P (Element tag cls cs))
    (n : node) : P n :=
  match n with
  | Text v => HText v
  | Element tag cls cs =>
      HElement tag cls cs
        ((fix all (l : list node) : Forall P l :=
            match l with
            | [] => @List.Forall_nil _ P
            | c :: l' => @List.Forall_cons _ P c l' (node_forall_ind P HText HElement c) (all l')
            end) cs)
  end.

(** ** What one line does, read off [lineStep]

    [nextState] is the value [isSpotlighting] has after a line with the
    given text, [lineResult] the content the line's object is left with. *)

Definition nextState (b : bool) (text : JS.str) : bool :=
  if Spotlight.isMarkerOnly text then JS.includes (JS.lit "spotlight-start") text
  else if JS.includes START text then true
  else if JS.includes END_ text then false
  else b.

Definition lineResult (b : bool) (n : node) : option node :=
  let text := getText n in
  if Spotlight.isMarkerOnly text then Some n
  else if JS.includes START text then Some (transformNode START n)
  else if JS.includes END_ text then Some (transformNode END_ n)
  else if b then
    n1 ← addClass "spotlight" n;
    Some (if isBlank text then setChildren [Text NBSP] n1 else n1)
  else addClass "dim" n.

(** The texts of the objects a list of references points to. *)
Definition textsOf (h : store) (rs : list ref) : list JS.str :=
  omap (fun r => (fun o => getText (content o)) <$> h !! r) rs.

(** ** Views of the store and of a block, for the statements below *)

(** What an object holds, and whether it is marked. *)
Definition contentAt (h : store) (r : ref) : option node := content <$> h !! r.
Definition flagAt (h : store) (r : ref) : option bool := shouldRemove <$> h !! r.

(** [lineSpans] of a code element with children [cs]. *)
Definition lineRefs (cs : list node) : list ref :=
  refsWhere isLine (alloc cs) (seq 0 (length cs)).

(** The lines in front of position [i], and the value [isSpotlighting] has
    when the line at [i] is reached. *)
Definition linesBefore (cs : list node) (i : ref) : list ref :=
  refsWhere isLine (alloc cs) (seq 0 i).

Definition stateBefore (cs : list node) (i : ref) : bool :=
  foldl nextState false (textsOf (alloc cs) (linesBefore cs i)).

(** The positions the trailing cleanup (lines 18 to 35) takes out: the last
    line when its text is blank, and the newline text right before it. *)
Definition trailingRefs (cs : list node) : list ref :=
  match last (lineRefs cs) with
  | Some l =>
      match cs !! l with
      | Some n =>
          if isBlank (getText n) then
            match l with
            | S p =>
                match cs !! p with
                | Some m => if isNewlineText m then [p; l] else [l]
                | None => [l]
                end
            | O => [l]
            end
          else []
      | None => []
      end
  | None => []
  end.

(** The children at the positions a test accepts, in order. *)
Fixpoint pick {A} (f : nat -> bool) (a : nat) (xs : list A) : list A :=
  match xs with
  | [] => []
  | x :: xs' => if f a then x :: pick f (S a) xs' else pick f (S a) xs'
  end.

Definition notIn (ps : list nat) (i : nat) : bool :=
  negb (existsb (Nat.eqb i) ps).

(** The child list without the trailing blank line. *)
Definition withoutTrailing (cs : list node) : list node :=
  pick (notIn (trailingRefs cs)) 0 cs.

(** The text values below a node, in document order. *)
Fixpoint leaves (n : node) : list JS.str :=
  match n with
  | Text v => [v]
  | Element _ _ cs => concat (map leaves cs)
  end.

(** Whether a node carries a class token. *)
Definition hasClass (c : string) (n : node) : bool :=
  match n with
  | Element _ cls _ => classIncludes c cls
  | Text _ => false
  end.

Definition classOf (n : node) : classes :=
  match n with
  | Element _ cls _ => cls
  | Text _ => None
  end.

(** Whether some line of the block holds a marker whole in one text value:
    what [hasSpotlights] comes to on the children [cs]. *)
Definition detects (cs : list node) : bool :=
  existsb (fun n => isLine n && hasMarker n) cs.

(** The children left after the trailing cleanup. *)
Definition cleaned (cs : list node) : list ref :=
  List.filter (notIn (trailingRefs cs)) (seq 0 (length cs)).

(** Whether the joined text of a node contains a marker, and whether some
    line of a block does. *)
Definition textMarked (n : node) : bool :=
  JS.includes START (getText n) || JS.includes END_ (getText n).

Definition marked (cs : list node) : bool :=
  existsb (fun n => isLine n && textMarked n) cs.

(** The classification pass (lines 55 to 108) over a given list of lines,
    on the store the cleanup left: the children it ends with and the last
    value of [isSpotlighting]. *)
Definition classify (cs : list node) (lines : list ref) : option (list node * bool) :=
  let h1 := foldr markRemove (alloc cs) (trailingRefs cs) in
  '(h2, b) ← Spotlight.forEach (cleaned cs) lines (h1, false);
  Some (omap (contentAt h2) (List.filter (kept h2) (cleaned cs)), b).

(** Nodes as the highlighter writes them, for the examples. *)
Definition line (s : string) : node :=
  Element (JS.lit "span") (Some [JS.lit "line"]) [Text (JS.lit s)].

Definition emptyLine : node :=
  Element (JS.lit "span") (Some [JS.lit "line"]) [].

Definition newline : node := Text NEWLINE.

Definition lineWith (c s : string) : node :=
  Element (JS.lit "span") (Some [JS.lit "line"; JS.lit c]) [Text (JS.lit s)].

Definition block (cls : classes) (cs : list node) : node :=
  Element (JS.lit "pre") None [Element (JS.lit "code") cls cs].

(** The deepest nesting among a list of nodes. *)
Definition maxDepth (ns : list node) : nat := foldr Nat.max O (map depth ns).

(** A line with one more class token, and a line without markers as the
    pass leaves it in state [b]: [spotlight] (with the placeholder when its
    text is blank) or [dim]. *)
Definition withClass (c : string) (n : node) : node :=
  match n with
  | Element tag (Some cl) ch => Element tag (Some (cl ++ [JS.lit c])) ch
  | _ => n
  end.

Definition classified (b : bool) (n : node) : node :=
  let n1 := withClass (if b then "spotlight" else "dim") n in
  if b && isBlank (getText n) then setChildren [Text NBSP] n1 else n1.

(** ** The revision in between (src/unnamed/part_000)

    The current revision without the trailing cleanup and without the
    placeholder for blank spotlighted lines. *)

Module Middle.

(** Lines 29 to 75: the callback of [lineSpans.forEach]. *)
Definition lineStep (children : list ref) (st : store * bool) (span : ref)
  : option (store * bool) :=
  let '(h, isSpotlighting) := st in
  o ← h !! span;
  let text := getText (content o) in
  if Spotlight.isMarkerOnly text then
    let h1 := markRemove span h in
    let h2 := markNewlineAt children (JS.indexOf children span + 1)%Z h1 in
    Some (h2, JS.includes (JS.lit "spotlight-start") text)
  else if JS.includes START text then
    Some (setContent span (transformNode START (content o)) h, true)
  else if JS.includes END_ text then
    Some (setContent span (transformNode END_ (content o)) h, false)
  else if isSpotlighting then
    n ← addClass "spotlight" (content o);
    Some (setContent span n h, isSpotlighting)
  else
    n ← addClass "dim" (content o);
    Some (setContent span n h, isSpotlighting).

Fixpoint forEach (children : list ref) (lineSpans : list ref) (st : store * bool)
  : option (store * bool) :=
  match lineSpans with
  | [] => Some st
  | span :: rest => st' ← lineStep children st span; forEach children rest st'
  end.

(** Lines 11 to 80, on the class array and the children of [codeEl]. *)
Definition processCode (cls : classes) (cs : list node) : option (classes * list node) :=
  let h0 := alloc cs in
  let children0 := seq 0 (length cs) in
  let lineSpans := refsWhere isLine h0 children0 in
  if Spotlight.hasSpotlights lineSpans h0 then
    let cls' := Some (default [] cls ++ [JS.lit "has-spotlights"]) in
    '(h1, _) ← forEach children0 lineSpans (h0, false);
    Some (cls', omap (fun i => content <$> h1 !! i) (List.filter (kept h1) children0))
  else Some (cls, cs).

End Middle.

Definition annotateMiddle : list node -> option (list node) :=
  annotateWith Middle.processCode.

(** Whether no element at or below a node has the tag [pre]. *)
Fixpoint noPre (n : node) : bool :=
  match n with
  | Text _ => true
  | Element tag _ cs => negb (JS.eqb tag (JS.lit "pre")) && forallb noPre cs
  end.

(** The position of the code element of a [pre]: the first child with the
    tag [code]. *)
Definition codeIndex (children : list node) : option nat :=
  head (List.filter (fun r => match children !! r with
                              | Some c => hasTag "code" c
                              | None => false
                              end) (seq 0 (length children))).

(** Whether the child at a position is a line with a bare marker as its
    trimmed text. *)
Definition markerOnlyAt (cs : list node) (i : nat) : bool :=
  match cs !! i with
  | Some n => isLine n && Spotlight.isMarkerOnly (getText n)
  | None => false
  end.

(** Both regular expressions of the earlier revision, one after the other. *)
Definition stripBoth (v : JS.str) : JS.str :=
  JS.stripMarker END_ (JS.stripMarker START v).

(** ** Views of the earlier revision *)

(** The children [transformNode] of the earlier revision keeps below an
    element. *)
Definition pruned (cs : list node) : list node :=
  omap (fun c => let '(c', empty) := Earlier.transformNode c in
                 if empty then None else Some c') cs.

(** What the callback of the earlier revision leaves of a line it meets
    with [isSpotlighting] at [b]. *)
Definition earlierResult (b : bool) (n : node) : option node :=
  let text := getText n in
  n1 ← (if JS.includes START text then Some n
        else if JS.includes END_ text then Some n
        else if b then addClass "spotlight" n
        else addClass "dim" n);
  let '(n', isEmpty) := Earlier.transformNode n1 in
  Some (if isEmpty then setChildren [] n' else n').

(** The child the earlier revision leaves for the child at position [i] of
    a block with a detected marker, if it leaves one. *)
Definition earlierChild (cs : list node) (i : nat) : option node :=
  n ← cs !! i;
  n' ← (if isLine n then earlierResult (stateBefore cs i) n else Some n);
  if Earlier.isEmptySpan n' then None else Some n'.

(** A text value that is not blank. *)
Definition notBlank (v : JS.str) : bool := negb (isBlank v).

(** A line whose text is spread over several text values. *)
Definition lineOf (vs : list string) : node :=
  Element (JS.lit "span") (Some [JS.lit "line"]) (map (fun s => Text (JS.lit s)) vs).

(** ** Strings *)

Section Strings.

Lemma eqb_eq (s t : JS.str) : JS.eqb s t = true <-> s = t.
Proof.
  revert t; induction s as [|c s IH]; intros [|d t]; simpl; try (split; congruence).
  rewrite andb_true_iff, N.eqb_eq, IH. split; [intros [-> ->]; reflexivity|].
  intros [= -> ->]; auto.
Qed.

Lemma eqb_refl (s : JS.str) : JS.eqb s s = true.
Proof. apply eqb_eq; reflexivity. Qed.

Lemma startsWith_spec (m s : JS.str) :
  JS.startsWith m s = true <-> exists r, s = m ++ r.
Proof.
  revert s; induction m as [|c m IH]; intros s; simpl.
  - split; eauto.
  - destruct s as [|d s].
    + split; [discriminate | intros [r Hr]; discriminate].
    + rewrite andb_true_iff, N.eqb_eq, IH. split.
      * intros [-> [r ->]]; eauto.
      * intros [r [= -> ->]]; eauto.
Qed.

Lemma includes_spec (m s : JS.str) :
  JS.includes m s = true <-> exists l r, s = l ++ m ++ r.
Proof.
  induction s as [|d s IH]; simpl.
  - rewrite orb_false_r, startsWith_spec. split.
    + intros [r Hr]; exists [], r; exact Hr.
    + intros (l & r & Hlr). destruct l; [eauto|discriminate].
  - rewrite orb_true_iff, startsWith_spec, IH. split.
    + intros [[r Hr]|(l & r & ->)]; [exists [], r; exact Hr|].
      exists (d :: l), r; reflexivity.
    + intros (l & r & Hlr). destruct l as [|e l]; [left; eauto|].
      right. injection Hlr as -> ->. eauto.
Qed.

Lemma includes_app_l (m s t : JS.str) :
  JS.includes m s = true -> JS.includes m (s ++ t) = true.
Proof.
  rewrite !includes_spec. intros (l & r & ->). exists l, (r ++ t).
  rewrite <- !app_assoc; reflexivity.
Qed.

Lemma includes_app_r (m s t : JS.str) :
  JS.includes m t = true -> JS.includes m (s ++ t) = true.
Proof.
  rewrite !includes_spec. intros (l & r & ->). exists (s ++ l), r.
  rewrite <- !app_assoc; reflexivity.
Qed.

Lemma includes_mid (m x s y : JS.str) :
  JS.includes m s = true -> JS.includes m (x ++ s ++ y) = true.
Proof. intros H. apply includes_app_r, includes_app_l, H. Qed.

Lemma dropSpaces_all (s : JS.str) :
  forallb JS.isSpace s = true -> JS.dropSpaces s = [].
Proof.
  induction s as [|c s IH]; simpl; [reflexivity|].
  intros [Hc Hs]%andb_true_iff. rewrite Hc. auto.
Qed.

Lemma dropSpaces_nil_inv (s : JS.str) :
  JS.dropSpaces s = [] -> forallb JS.isSpace s = true.
Proof.
  induction s as [|c s IH]; simpl; [reflexivity|].
  destruct (JS.isSpace c); [auto | discriminate].
Qed.

(** A blank text consists of white space only. *)
Lemma isBlank_spaces (s : JS.str) :
  isBlank s = true <-> forallb JS.isSpace s = true.
Proof.
  unfold isBlank, JS.trim. rewrite eqb_eq. split.
  - intros H. apply dropSpaces_nil_inv.
    assert (Hr : JS.dropSpaces (rev (JS.dropSpaces s)) = []).
    { apply (f_equal (@rev _)) in H. rewrite rev_involutive in H. exact H. }
    apply dropSpaces_nil_inv in Hr. rewrite forallb_forall in Hr.
    destruct (JS.dropSpaces s) as [|c r] eqn:E; [reflexivity|].
    exfalso. assert (Hc : JS.isSpace c = true).
    { apply Hr. rewrite <- in_rev. left; reflexivity. }
    clear -E Hc. induction s as [|d s IH]; simpl in E; [discriminate|].
    destruct (JS.isSpace d) eqn:Ed; [auto|]. congruence.
  - intros H. rewrite (dropSpaces_all _ H). reflexivity.
Qed.

End Strings.

(** ** Nodes *)

Section Nodes.

Lemma getText_Text (v : JS.str) : getText (Text v) = v.
Proof. destruct v; reflexivity. Qed.

Lemma includes_concat (m x : JS.str) (xs : list JS.str) :
  In x xs -> JS.includes m x = true -> JS.includes m (concat xs) = true.
Proof.
  induction xs as [|y xs IH]; simpl; [tauto|].
  intros [->|Hin] Hx.
  - apply includes_app_l, Hx.
  - apply includes_app_r, IH; assumption.
Qed.

(** A marker held whole by one text value shows in the joined text. *)
Lemma hasMarker_getText (n : node) :
  hasMarker n = true ->
  JS.includes START (getText n) = true \/ JS.includes END_ (getText n) = true.
Proof.
  induction n as [v|tag cls cs IH] using node_forall_ind.
  - rewrite getText_Text. simpl. destruct v; [discriminate|].
    intros H%orb_true_iff. exact H.
  - simpl. intros (c & Hc & Hm)%existsb_exists.
    rewrite Forall_forall in IH.
    destruct (IH c (proj2 (list_elem_of_In _ _) Hc) Hm) as [H|H]; [left|right];
      (eapply includes_concat; [apply in_map, Hc | exact H]).
Qed.

Lemma includes_blank (m s : JS.str) :
  forallb JS.isSpace m = false -> isBlank s = true -> JS.includes m s = false.
Proof.
  intros Hm Hs. apply isBlank_spaces in Hs.
  destruct (JS.includes m s) eqn:E; [|reflexivity].
  apply includes_spec in E as (l & r & ->).
  rewrite !forallb_app in Hs.
  apply andb_true_iff in Hs as [_ Hs]. apply andb_true_iff in Hs as [Hs _].
  congruence.
Qed.

Lemma trim_blank (s : JS.str) : isBlank s = true -> JS.trim s = [].
Proof. unfold isBlank. apply eqb_eq. Qed.

(** A blank line is no marker line of any kind. *)
Lemma blank_not_marker (s : JS.str) :
  isBlank s = true ->
  Spotlight.isMarkerOnly s = false /\
  JS.includes START s = false /\ JS.includes END_ s = false.
Proof.
  intros H. split; [|split].
  - unfold Spotlight.isMarkerOnly. rewrite (trim_blank _ H). reflexivity.
  - apply includes_blank; [reflexivity | exact H].
  - apply includes_blank; [reflexivity | exact H].
Qed.

Lemma nextState_blank (b : bool) (s : JS.str) :
  isBlank s = true -> nextState b s = b.
Proof.
  intros H. destruct (blank_not_marker s H) as (H1 & H2 & H3).
  unfold nextState. rewrite H1, H2, H3. reflexivity.
Qed.

Lemma isLine_Element (n : node) :
  isLine n = true ->
  exists tag cls cs, n = Element tag (Some cls) cs /\
    tag = JS.lit "span" /\ existsb (JS.eqb (JS.lit "line")) cls = true.
Proof.
  destruct n as [v|tag [cls|] cs]; simpl; try discriminate.
  - intros [H1 H2]%andb_true_iff. apply eqb_eq in H1. eauto 6.
  - rewrite andb_false_r. discriminate.
Qed.

Lemma addClass_line (c : string) (n : node) :
  isLine n = true ->
  exists n', addClass c n = Some n' /\ isLine n' = true.
Proof.
  intros (tag & cls & cs & -> & -> & Hl)%isLine_Element.
  eexists; split; [reflexivity|]. unfold isLine, classIncludes.
  rewrite existsb_app, Hl, eqb_refl. reflexivity.
Qed.

Lemma isLine_transformNode (m : JS.str) (n : node) :
  isLine (transformNode m n) = isLine n.
Proof. destruct n as [v|tag cls cs]; simpl; [destruct v|]; reflexivity. Qed.

Lemma isLine_setChildren (cs : list node) (n : node) :
  isLine (setChildren cs n) = isLine n.
Proof. destruct n; reflexivity. Qed.

(** On a line the callback never throws, and it leaves a line. *)
Lemma lineResult_line (b : bool) (n : node) :
  isLine n = true -> exists n', lineResult b n = Some n' /\ isLine n' = true.
Proof.
  intros Hl. unfold lineResult.
  destruct (Spotlight.isMarkerOnly _); [eauto|].
  destruct (JS.includes START _); [rewrite <- (isLine_transformNode START) in Hl; eauto|].
  destruct (JS.includes END_ _); [rewrite <- (isLine_transformNode END_) in Hl; eauto|].
  destruct b.
  - destruct (addClass_line "spotlight" n Hl) as (n' & -> & Hn'). simpl.
    eexists; split; [reflexivity|].
    destruct (isBlank _); [rewrite isLine_setChildren|]; exact Hn'.
  - apply addClass_line, Hl.
Qed.

End Nodes.

(** ** The store *)

Section Store.

Implicit Types (h : store) (r i j : ref) (children : list ref).

Lemma content_markRemove r h i : contentAt (markRemove r h) i = contentAt h i.
Proof.
  unfold contentAt, markRemove. destruct (decide (r = i)) as [->|Hne].
  - rewrite list_lookup_alter_eq. destruct (h !! i); reflexivity.
  - rewrite list_lookup_alter_ne by exact Hne. reflexivity.
Qed.

Lemma flag_markRemove_eq r h : flagAt (markRemove r h) r = (fun _ => true) <$> flagAt h r.
Proof.
  unfold flagAt, markRemove. rewrite list_lookup_alter_eq.
  destruct (h !! r); reflexivity.
Qed.

Lemma flag_markRemove_ne r h i : r <> i -> flagAt (markRemove r h) i = flagAt h i.
Proof.
  intros Hne. unfold flagAt, markRemove.
  rewrite list_lookup_alter_ne by exact Hne. reflexivity.
Qed.

Lemma flag_setContent r n h i : flagAt (setContent r n h) i = flagAt h i.
Proof.
  unfold flagAt, setContent. destruct (decide (r = i)) as [->|Hne].
  - rewrite list_lookup_alter_eq. destruct (h !! i); reflexivity.
  - rewrite list_lookup_alter_ne by exact Hne. reflexivity.
Qed.

Lemma content_setContent_eq r n h :
  contentAt (setContent r n h) r = (fun _ => n) <$> contentAt h r.
Proof.
  unfold contentAt, setContent. rewrite list_lookup_alter_eq.
  destruct (h !! r); reflexivity.
Qed.

Lemma content_setContent_ne r n h i :
  r <> i -> contentAt (setContent r n h) i = contentAt h i.
Proof.
  intros Hne. unfold contentAt, setContent.
  rewrite list_lookup_alter_ne by exact Hne. reflexivity.
Qed.

Lemma length_markRemove r h : length (markRemove r h) = length h.
Proof. apply length_alter. Qed.

Lemma length_setContent r n h : length (setContent r n h) = length h.
Proof. apply length_alter. Qed.

(** [markNewlineAt] either leaves the store or marks one newline text. *)
Lemma markNewlineAt_cases children k h :
  markNewlineAt children k h = h \/
  exists r, JS.at_ children k = Some r /\
            (exists o, h !! r = Some o /\ isNewlineText (content o) = true) /\
            markNewlineAt children k h = markRemove r h.
Proof.
  unfold markNewlineAt. destruct (JS.at_ children k) as [r|]; [|left; reflexivity].
  destruct (h !! r) as [o|] eqn:Ho; [|left; reflexivity].
  destruct (isNewlineText (content o)) eqn:Hn; [|left; reflexivity].
  right. exists r. eauto.
Qed.

Lemma content_markNewlineAt children k h i :
  contentAt (markNewlineAt children k h) i = contentAt h i.
Proof.
  destruct (markNewlineAt_cases children k h) as [->|(r & _ & _ & ->)];
    [reflexivity | apply content_markRemove].
Qed.

Lemma length_markNewlineAt children k h :
  length (markNewlineAt children k h) = length h.
Proof.
  destruct (markNewlineAt_cases children k h) as [->|(r & _ & _ & ->)];
    [reflexivity | apply length_markRemove].
Qed.

Lemma kept_flagAt h r : kept h r = negb (default false (flagAt h r)).
Proof. unfold kept, flagAt. destruct (h !! r); reflexivity. Qed.

Lemma contentAt_alloc (cs : list node) r : contentAt (alloc cs) r = cs !! r.
Proof.
  unfold contentAt, alloc. rewrite list_lookup_fmap.
  destruct (cs !! r); reflexivity.
Qed.

Lemma flagAt_alloc (cs : list node) r :
  flagAt (alloc cs) r = (fun _ => false) <$> cs !! r.
Proof.
  unfold flagAt, alloc. rewrite list_lookup_fmap.
  destruct (cs !! r); reflexivity.
Qed.

End Store.

(** ** The pass over the lines *)

Section Pass.

Import Spotlight.

Implicit Types (h : store) (r i j : ref) (children ls : list ref) (b : bool).

(** [lineStep] in terms of [lineResult] and [nextState]. *)
Lemma lineStep_eq children h b j o :
  h !! j = Some o ->
  lineStep children (h, b) j =
    n' ← lineResult b (content o);
    Some (if isMarkerOnly (getText (content o))
          then markNewlineAt children (JS.indexOf children j + 1)%Z (markRemove j h)
          else setContent j n' h,
          nextState b (getText (content o))).
Proof.
  intros Ho. unfold lineStep, lineResult, nextState. rewrite Ho. simpl.
  destruct (isMarkerOnly _); [reflexivity|].
  destruct (JS.includes START _); [reflexivity|].
  destruct (JS.includes END_ _); [reflexivity|].
  destruct b; [destruct (addClass "spotlight" _) | destruct (addClass "dim" _)];
    reflexivity.
Qed.

Lemma isElement_lineResult b (n n' : node) :
  lineResult b n = Some n' -> isElement n' = isElement n.
Proof.
  unfold lineResult.
  destruct (isMarkerOnly _); [congruence|].
  destruct (JS.includes START _);
    [intros [= <-]; destruct n as [[|]|]; reflexivity|].
  destruct (JS.includes END_ _);
    [intros [= <-]; destruct n as [[|]|]; reflexivity|].
  destruct n as [v|tag [cls|] cs]; destruct b; simpl; try discriminate;
    intros [= <-]; [destruct (isBlank _)|]; reflexivity.
Qed.

(** The effect of one callback run on the store and on the state. *)
Lemma lineStep_effect children h b j h' b' :
  lineStep children (h, b) j = Some (h', b') ->
  exists n n',
    contentAt h j = Some n /\ lineResult b n = Some n' /\
    b' = nextState b (getText n) /\
    length h' = length h /\
    contentAt h' j = Some n' /\
    (forall i, i <> j -> contentAt h' i = contentAt h i) /\
    (forall i, flagAt h i = Some true -> flagAt h' i = Some true) /\
    (isMarkerOnly (getText n) = true -> flagAt h' j = Some true) /\
    (forall i, flagAt h' i <> flagAt h i ->
       (i = j /\ isMarkerOnly (getText n) = true) \/
       isElement <$> contentAt h i = Some false).
Proof.
  intros Hstep. destruct (h !! j) as [o|] eqn:Ho;
    [|unfold lineStep in Hstep; rewrite Ho in Hstep; discriminate].
  rewrite (lineStep_eq _ _ _ _ _ Ho) in Hstep.
  destruct (lineResult b (content o)) as [n'|] eqn:Hres; [|discriminate].
  simpl in Hstep. injection Hstep as <- <-.
  exists (content o), n'.
  assert (Hc : contentAt h j = Some (content o)) by (unfold contentAt; rewrite Ho; reflexivity).
  assert (Hf : flagAt h j = Some (shouldRemove o)) by (unfold flagAt; rewrite Ho; reflexivity).
  split; [exact Hc|]. split; [exact Hres|]. split; [reflexivity|].
  destruct (isMarkerOnly (getText (content o))) eqn:Hm.
  - assert (n' = content o) as ->.
    { unfold lineResult in Hres. rewrite Hm in Hres. congruence. }
    set (k := (JS.indexOf children j + 1)%Z).
    split; [rewrite length_markNewlineAt; apply length_markRemove|].
    split; [rewrite content_markNewlineAt, content_markRemove; exact Hc|].
    split; [intros i _; rewrite content_markNewlineAt; apply content_markRemove|].
    assert (Hj : flagAt (markRemove j h) j = Some true)
      by (rewrite flag_markRemove_eq, Hf; reflexivity).
    assert (Hmono : forall r h0 i, flagAt h0 i = Some true ->
                                   flagAt (markRemove r h0) i = Some true).
    { intros r h0 i Hi. destruct (decide (r = i)) as [->|Hne].
      - rewrite flag_markRemove_eq, Hi. reflexivity.
      - rewrite flag_markRemove_ne by exact Hne. exact Hi. }
    destruct (markNewlineAt_cases children k (markRemove j h))
      as [->|(r & _ & (p & Hp & Hnl) & ->)].
    + split; [intros i Hi; apply Hmono, Hi|]. split; [intros _; exact Hj|].
      intros i Hi. left. destruct (decide (j = i)) as [->|Hne]; [auto|].
      rewrite flag_markRemove_ne in Hi by exact Hne. congruence.
    + split; [intros i Hi; apply Hmono, Hmono, Hi|].
      split; [intros _; apply Hmono, Hj|].
      intros i Hi. destruct (decide (j = i)) as [->|Hne]; [left; auto|].
      right. destruct (decide (r = i)) as [->|Hne'].
      * assert (Hci : contentAt (markRemove j h) i = Some (content p))
          by (unfold contentAt; rewrite Hp; reflexivity).
        rewrite content_markRemove in Hci. rewrite Hci. simpl.
        destruct (content p); [reflexivity | discriminate].
      * rewrite !flag_markRemove_ne in Hi by assumption. congruence.
  - split; [apply length_setContent|].
    split; [rewrite content_setContent_eq, Hc; reflexivity|].
    split; [intros i Hi; apply content_setContent_ne; congruence|].
    split; [intros i Hi; rewrite flag_setContent; exact Hi|].
    split; [discriminate|].
    intros i Hi. rewrite flag_setContent in Hi. congruence.
Qed.

Lemma textsOf_step h j ls :
  textsOf h (j :: ls) =
  match contentAt h j with
  | Some n => getText n :: textsOf h ls
  | None => textsOf h ls
  end.
Proof. unfold textsOf, contentAt. simpl. destruct (h !! j); reflexivity. Qed.

Lemma textsOf_cons h j ls n :
  contentAt h j = Some n -> textsOf h (j :: ls) = getText n :: textsOf h ls.
Proof. intros H. rewrite textsOf_step, H. reflexivity. Qed.

Lemma textsOf_ext h h' ls :
  (forall i, i ∈ ls -> contentAt h' i = contentAt h i) ->
  textsOf h' ls = textsOf h ls.
Proof.
  induction ls as [|j ls IH]; intros H; [reflexivity|].
  rewrite !textsOf_step, (H j (list_elem_of_here _ _)).
  rewrite IH by (intros i Hi; apply H; right; exact Hi). reflexivity.
Qed.

(** The pass as a whole: what every object holds and which flags are set
    when [forEach] is done. *)
Lemma forEach_spec children ls : forall h b h' b',
  NoDup ls ->
  forEach children ls (h, b) = Some (h', b') ->
  length h' = length h /\
  b' = foldl nextState b (textsOf h ls) /\
  (forall i, i ∉ ls -> contentAt h' i = contentAt h i) /\
  (forall pre j post, ls = pre ++ j :: post ->
     exists n n', contentAt h j = Some n /\
       lineResult (foldl nextState b (textsOf h pre)) n = Some n' /\
       contentAt h' j = Some n') /\
  (forall i, flagAt h i = Some true -> flagAt h' i = Some true) /\
  (forall j n, j ∈ ls -> contentAt h j = Some n ->
     isMarkerOnly (getText n) = true -> flagAt h' j = Some true) /\
  (forall i, flagAt h' i <> flagAt h i ->
     (i ∈ ls /\ exists n, contentAt h i = Some n /\ isMarkerOnly (getText n) = true) \/
     isElement <$> contentAt h i = Some false).
Proof.
  induction ls as [|j ls IH]; intros h b h' b' Hnd Hrun.
  - simpl in Hrun. injection Hrun as <- <-.
    split; [reflexivity|]. split; [reflexivity|]. split; [reflexivity|].
    split; [intros pre j post Hl; destruct pre; discriminate|].
    split; [tauto|]. split; [intros j n Hj; inversion Hj|].
    intros i Hi. congruence.
  - change (lineStep children (h, b) j ≫= forEach children ls = Some (h', b')) in Hrun.
    destruct (lineStep children (h, b) j) as [[h1 b1]|] eqn:Hstep;
      simpl in Hrun; [|discriminate Hrun]. apply NoDup_cons in Hnd as [Hj Hnd].
    destruct (lineStep_effect _ _ _ _ _ _ Hstep)
      as (n & n' & Hn & Hres & -> & Hlen1 & Hn' & Hoth & Hmono1 & Hmark1 & Hchg1).
    destruct (IH _ _ _ _ Hnd Hrun)
      as (Hlen & -> & Hout & Hin & Hmono & Hmark & Hchg).
    assert (Hsame : forall i, i ∈ ls -> contentAt h1 i = contentAt h i).
    { intros i Hi. apply Hoth. intros ->. contradiction. }
    split; [congruence|].
    split; [rewrite (textsOf_cons _ _ _ _ Hn), (textsOf_ext _ _ _ Hsame); reflexivity|].
    split.
    { intros i Hi. rewrite not_elem_of_cons in Hi. destruct Hi as [Hij Hi].
      rewrite (Hout i Hi). apply Hoth, Hij. }
    split.
    { intros pre j' post Hl. destruct pre as [|p pre]; simpl in Hl.
      - injection Hl as <- <-. exists n, n'. split; [exact Hn|].
        split; [exact Hres|]. rewrite (Hout j Hj). exact Hn'.
      - injection Hl as <- ->.
        destruct (Hin pre j' post eq_refl) as (m & m' & Hm & Hr & Hm').
        assert (Hj' : j' ∈ pre ++ j' :: post)
          by (apply elem_of_app; right; left).
        exists m, m'. split; [rewrite <- (Hsame j' Hj'); exact Hm|].
        split; [|exact Hm'].
        rewrite (textsOf_cons _ _ _ _ Hn). simpl.
        rewrite <- (textsOf_ext h h1 pre); [exact Hr|].
        intros i Hi. apply Hsame. apply elem_of_app; left; exact Hi. }
    split; [intros i Hi; apply Hmono, Hmono1, Hi|].
    split.
    { intros j' m Hj' Hm Hmk. apply elem_of_cons in Hj' as [->|Hj'].
      - apply Hmono, Hmark1. congruence.
      - apply (Hmark j' m Hj'); [rewrite (Hsame j' Hj'); exact Hm | exact Hmk]. }
    intros i Hi.
    destruct (decide (flagAt h1 i = flagAt h i)) as [He|Hne].
    + rewrite <- He in Hi. destruct (Hchg i Hi) as [(Hil & m & Hm & Hmk)|Hel].
      * left. split; [right; exact Hil|]. exists m.
        rewrite <- (Hsame i Hil). auto.
      * destruct (decide (i = j)) as [->|Hij].
        -- rewrite Hn' in Hel. rewrite Hn. simpl in *.
           rewrite <- (isElement_lineResult _ _ _ Hres). auto.
        -- rewrite (Hoth i Hij) in Hel. auto.
    + destruct (Hchg1 i Hne) as [[-> Hmk]|Hel]; [|auto].
      left. split; [left|]. eauto.
Qed.

End Pass.

(** ** References into a freshly allocated store *)

Section Refs.

Implicit Types (cs : list node) (i j l : ref).

Lemma elem_of_filterb {A} (f : A -> bool) (xs : list A) (x : A) :
  x ∈ List.filter f xs <-> x ∈ xs /\ f x = true.
Proof. rewrite !list_elem_of_In. apply filter_In. Qed.

Lemma NoDup_filterb {A} (f : A -> bool) (xs : list A) :
  NoDup xs -> NoDup (List.filter f xs).
Proof. rewrite !NoDup_ListNoDup. apply List.NoDup_filter. Qed.

Lemma elem_of_refsWhere p cs (rs : list ref) j :
  j ∈ refsWhere p (alloc cs) rs <->
  j ∈ rs /\ exists n, cs !! j = Some n /\ p n = true.
Proof.
  unfold refsWhere. rewrite elem_of_filterb.
  assert (Hc := contentAt_alloc cs j). unfold contentAt in Hc.
  destruct (alloc cs !! j) as [o|]; simpl in Hc; rewrite <- Hc.
  - split; intros [H1 H2]; split; eauto. destruct H2 as (n & [= <-] & H2); exact H2.
  - split; [intros [_ ?]; discriminate | intros [_ (n & ? & _)]; discriminate].
Qed.

Lemma indexOf_seq a n j :
  (j < n)%nat -> JS.indexOf (seq a n) (a + j) = Z.of_nat j.
Proof.
  revert a j; induction n as [|n IH]; intros a j Hj; [lia|]. simpl.
  destruct j as [|j].
  - rewrite Nat.add_0_r, Nat.eqb_refl. reflexivity.
  - destruct (Nat.eqb_spec a (a + S j)) as [E|_]; [lia|].
    replace (a + S j)%nat with (S a + j)%nat by lia.
    rewrite IH by lia. destruct (Z.ltb_spec (Z.of_nat j) 0); lia.
Qed.

Lemma indexOf_notin (xs : list ref) j : j ∉ xs -> JS.indexOf xs j = (-1)%Z.
Proof.
  induction xs as [|x xs IH]; intros Hj; [reflexivity|]. simpl.
  apply not_elem_of_cons in Hj as [Hne Hj].
  destruct (Nat.eqb_spec x j) as [E|_]; [congruence|].
  rewrite (IH Hj). reflexivity.
Qed.

Lemma at_seq n (k : Z) :
  JS.at_ (seq 0 n) k =
  if ((0 <=? k) && (k <? Z.of_nat n))%Z then Some (Z.to_nat k) else None.
Proof.
  unfold JS.at_. destruct (Z.ltb_spec k 0) as [Hk|Hk].
  - destruct (Z.leb_spec 0 k); [lia | reflexivity].
  - destruct (Z.leb_spec 0 k); [|lia]. simpl.
    destruct (Z.ltb_spec k (Z.of_nat n)) as [Hn|Hn].
    + rewrite lookup_seq_lt by lia. reflexivity.
    + apply lookup_seq_ge. lia.
Qed.

End Refs.

(** ** The run on a code element *)

Section Run.

Import Spotlight.

Implicit Types (cs : list node) (i j l : ref) (cls : classes).

Lemma elem_of_lineRefs cs j :
  j ∈ lineRefs cs <-> exists n, cs !! j = Some n /\ isLine n = true.
Proof.
  unfold lineRefs. rewrite elem_of_refsWhere, elem_of_seq. split.
  - intros [_ H]; exact H.
  - intros (n & Hn & Hl). split; [|eauto].
    apply lookup_lt_Some in Hn. lia.
Qed.

Lemma NoDup_lineRefs cs : NoDup (lineRefs cs).
Proof. apply NoDup_filterb, NoDup_seq. Qed.

Lemma lineRefs_split cs i n :
  cs !! i = Some n -> isLine n = true ->
  lineRefs cs =
  linesBefore cs i ++ i :: refsWhere isLine (alloc cs) (seq (S i) (length cs - S i)).
Proof.
  intros Hn Hl. unfold lineRefs, linesBefore, refsWhere.
  assert (Hlt := lookup_lt_Some _ _ _ Hn).
  replace (length cs) with (i + S (length cs - S i))%nat at 1 by lia.
  rewrite seq_app, List.filter_app. f_equal. simpl.
  assert (Hc := contentAt_alloc cs i). unfold contentAt in Hc.
  destruct (alloc cs !! i) as [o|]; simpl in Hc; [|congruence].
  replace (content o) with n by congruence. rewrite Hl. reflexivity.
Qed.

Lemma content_marks (ps : list ref) (h : store) i :
  contentAt (foldr markRemove h ps) i = contentAt h i.
Proof.
  induction ps as [|p ps IH]; simpl; [reflexivity|].
  rewrite content_markRemove. exact IH.
Qed.

Lemma length_marks (ps : list ref) (h : store) :
  length (foldr markRemove h ps) = length h.
Proof.
  induction ps as [|p ps IH]; simpl; [reflexivity|].
  rewrite length_markRemove. exact IH.
Qed.

Lemma flag_marks (ps : list ref) cs i :
  flagAt (foldr markRemove (alloc cs) ps) i =
  (fun _ => existsb (Nat.eqb i) ps) <$> cs !! i.
Proof.
  induction ps as [|p ps IH]; simpl.
  - apply flagAt_alloc.
  - destruct (Nat.eqb_spec i p) as [->|Hne].
    + rewrite flag_markRemove_eq, IH. destruct (cs !! p); reflexivity.
    + rewrite flag_markRemove_ne by congruence. exact IH.
Qed.

Lemma kept_marks (ps : list ref) cs i :
  (i < length cs)%nat -> kept (foldr markRemove (alloc cs) ps) i = notIn ps i.
Proof.
  intros Hi. rewrite kept_flagAt, flag_marks.
  destruct (lookup_lt_is_Some_2 cs i Hi) as [n ->]. reflexivity.
Qed.

Lemma filterb_ext {A} (f g : A -> bool) (xs : list A) :
  (forall x, x ∈ xs -> f x = g x) -> List.filter f xs = List.filter g xs.
Proof.
  intros H. apply List.filter_ext_in. intros x Hx. apply H, list_elem_of_In, Hx.
Qed.

(** Lines 18 to 33 mark exactly [trailingRefs]. *)
Lemma markTrailing_eq cs :
  markTrailing (seq 0 (length cs)) (lineRefs cs) (alloc cs) =
  Some (foldr markRemove (alloc cs) (trailingRefs cs)).
Proof.
  unfold markTrailing, trailingRefs.
  destruct (last (lineRefs cs)) as [l|] eqn:Hlast; [|reflexivity].
  assert (Hl : l ∈ lineRefs cs) by (apply last_Some_elem_of, Hlast).
  apply elem_of_lineRefs in Hl as (n & Hn & Hline).
  assert (Hlt := lookup_lt_Some _ _ _ Hn).
  assert (Ho : alloc cs !! l = Some (Obj n false)).
  { unfold alloc. rewrite list_lookup_fmap, Hn. reflexivity. }
  rewrite Ho, Hn. simpl.
  destruct (isBlank (getText n)); [|reflexivity]. f_equal.
  replace l with (0 + l)%nat at 1 by reflexivity.
  rewrite indexOf_seq by exact Hlt.
  unfold markNewlineAt. rewrite at_seq.
  destruct l as [|p]; [reflexivity|].
  replace (Z.of_nat (S p) - 1)%Z with (Z.of_nat p) by lia.
  destruct (Z.leb_spec 0 (Z.of_nat p)); [|lia].
  destruct (Z.ltb_spec (Z.of_nat p) (Z.of_nat (length cs))); [|lia]. simpl.
  rewrite Nat2Z.id.
  assert (Hc := content_markRemove (S p) (alloc cs) p).
  rewrite contentAt_alloc in Hc. unfold contentAt in Hc.
  destruct (cs !! p) as [m|] eqn:Hm;
    destruct (markRemove (S p) (alloc cs) !! p) as [o|]; try discriminate Hc;
    [|reflexivity].
  simpl in Hc. injection Hc as Hc. subst m.
  destruct (isNewlineText (content o)); reflexivity.
Qed.

Lemma hasSpotlights_marks (ps : list ref) cs :
  hasSpotlights (lineRefs cs) (foldr markRemove (alloc cs) ps) = detects cs.
Proof.
  unfold hasSpotlights, detects.
  apply eq_true_iff_eq. rewrite !existsb_exists. split.
  - intros (j & Hj & Hm).
    apply list_elem_of_In, elem_of_lineRefs in Hj as (n & Hn & Hl).
    assert (Hc := content_marks ps (alloc cs) j).
    rewrite contentAt_alloc, Hn in Hc. unfold contentAt in Hc.
    destruct (foldr markRemove (alloc cs) ps !! j) as [o|]; [|discriminate].
    simpl in Hc. injection Hc as Hc. subst n.
    exists (content o). split; [apply list_elem_of_In, list_elem_of_lookup; eauto|].
    rewrite Hl, Hm. reflexivity.
  - intros (n & Hn & [Hl Hm]%andb_true_iff).
    apply list_elem_of_In, list_elem_of_lookup in Hn as [j Hj].
    exists j. split.
    + apply list_elem_of_In, elem_of_lineRefs. eauto.
    + assert (Hc := content_marks ps (alloc cs) j).
      rewrite contentAt_alloc, Hj in Hc. unfold contentAt in Hc.
      destruct (foldr markRemove (alloc cs) ps !! j) as [o|]; [|discriminate].
      simpl in Hc. injection Hc as Hc. subst n. exact Hm.
Qed.

(** [runCode] with its first phase resolved. *)
Lemma runCode_eq cls cs :
  runCode cls cs =
  let h1 := foldr markRemove (alloc cs) (trailingRefs cs) in
  if detects cs then
    '(h2, _) ← forEach (cleaned cs) (lineRefs cs) (h1, false);
    Some (Run (Some (default [] cls ++ [JS.lit "has-spotlights"])) h2
              (List.filter (kept h2) (cleaned cs)))
  else Some (Run cls h1 (cleaned cs)).
Proof.
  unfold runCode. fold (lineRefs cs). rewrite markTrailing_eq. simpl.
  rewrite hasSpotlights_marks.
  assert (Hf : List.filter (kept (foldr markRemove (alloc cs) (trailingRefs cs)))
                 (seq 0 (length cs)) = cleaned cs).
  { apply filterb_ext. intros i Hi. apply kept_marks.
    apply elem_of_seq in Hi. lia. }
  rewrite Hf. reflexivity.
Qed.

End Run.

(** ** The pass never throws on lines, and what the run leaves *)

Section RunSpec.

Import Spotlight.

Implicit Types (cs : list node) (i j l : ref) (cls : classes) (h : store).

Lemma forEach_total children (ls : list ref) : forall h b,
  NoDup ls ->
  (forall j, j ∈ ls -> exists n, contentAt h j = Some n /\ isLine n = true) ->
  exists h' b', forEach children ls (h, b) = Some (h', b').
Proof.
  induction ls as [|j ls IH]; intros h b Hnd Hls; [simpl; eauto|].
  apply NoDup_cons in Hnd as [Hj Hnd].
  destruct (Hls j (list_elem_of_here _ _)) as (n & Hn & Hl).
  unfold contentAt in Hn. destruct (h !! j) as [o|] eqn:Ho; [|discriminate].
  simpl in Hn. injection Hn as Hn. subst n.
  destruct (lineResult_line b _ Hl) as (n' & Hres & _).
  destruct (lineStep children (h, b) j) as [[h1 b1]|] eqn:Hstep;
    [|rewrite (lineStep_eq children h b j o Ho), Hres in Hstep; discriminate].
  change (forEach children (j :: ls) (h, b))
    with (lineStep children (h, b) j ≫= forEach children ls).
  rewrite Hstep. simpl. apply IH; [exact Hnd|].
  intros i Hi. destruct (lineStep_effect _ _ _ _ _ _ Hstep)
    as (_ & _ & _ & _ & _ & _ & _ & Hoth & _).
  rewrite Hoth by (intros ->; contradiction).
  apply Hls. right. exact Hi.
Qed.

Lemma omap_step {A B} (f : A -> option B) (x : A) (xs : list A) :
  omap f (x :: xs) =
  match f x with Some y => y :: omap f xs | None => omap f xs end.
Proof. reflexivity. Qed.

Lemma omap_pick {A} (f : nat -> bool) (xs : list A) : forall pre,
  omap (fun i => (pre ++ xs) !! i) (List.filter f (seq (length pre) (length xs)))
  = pick f (length pre) xs.
Proof.
  induction xs as [|x xs IH]; intros pre; [reflexivity|].
  assert (Hx : (pre ++ x :: xs) !! length pre = Some x).
  { rewrite lookup_app_r by lia. rewrite Nat.sub_diag. reflexivity. }
  assert (Hr := IH (pre ++ [x])). rewrite <- app_assoc in Hr.
  rewrite length_app in Hr.
  replace (length pre + length [x])%nat with (S (length pre)) in Hr by (simpl; lia).
  change (pre ++ [x] ++ xs) with (pre ++ x :: xs) in Hr.
  cbn [length seq List.filter pick].
  destruct (f (length pre)); [rewrite omap_step, Hx|]; rewrite Hr; reflexivity.
Qed.

Lemma pick_true {A} (f : nat -> bool) (xs : list A) : forall a,
  (forall i, f i = true) -> pick f a xs = xs.
Proof.
  induction xs as [|x xs IH]; intros a H; [reflexivity|]. simpl.
  rewrite H, IH by exact H. reflexivity.
Qed.

Lemma omap_ext_in {A B} (f g : A -> option B) (xs : list A) :
  (forall x, x ∈ xs -> f x = g x) -> omap f xs = omap g xs.
Proof.
  induction xs as [|x xs IH]; intros H; [reflexivity|].
  rewrite !omap_step, (H x (list_elem_of_here _ _)), IH; [reflexivity|].
  intros y Hy. apply H. right. exact Hy.
Qed.

Lemma outChildren_eq (r : run) :
  outChildren r = omap (contentAt (heap r)) (childRefs r).
Proof. reflexivity. Qed.

(** Without a detected marker the run stops after the trailing cleanup. *)
Lemma runCode_undetected cls cs :
  detects cs = false ->
  exists r, runCode cls cs = Some r /\
    codeClass r = cls /\ outChildren r = withoutTrailing cs.
Proof.
  intros Hd. rewrite runCode_eq, Hd. simpl. eexists. split; [reflexivity|].
  split; [reflexivity|]. rewrite outChildren_eq. simpl.
  unfold withoutTrailing, cleaned. rewrite <- (omap_pick _ cs []).
  apply omap_ext_in. intros i _. rewrite content_marks. apply contentAt_alloc.
Qed.

Lemma elem_of_cleaned cs i :
  i ∈ cleaned cs <-> (i < length cs)%nat /\ i ∉ trailingRefs cs.
Proof.
  unfold cleaned, notIn. rewrite elem_of_filterb, elem_of_seq, negb_true_iff.
  assert (H : existsb (Nat.eqb i) (trailingRefs cs) = false <-> i ∉ trailingRefs cs).
  { rewrite <- not_true_iff_false, existsb_exists. split.
    - intros H Hi. apply H. exists i. rewrite Nat.eqb_refl.
      split; [apply list_elem_of_In, Hi | reflexivity].
    - intros H (x & Hx & ->%Nat.eqb_eq). apply H, list_elem_of_In, Hx. }
  rewrite H. split; intros [? ?]; split; try assumption; lia.
Qed.

(** With a detected marker: the class of the code element, the content of
    every object and the marks, all in terms of the children [cs]. *)
Lemma runCode_detected cls cs :
  detects cs = true ->
  exists h2,
    runCode cls cs =
      Some (Run (Some (default [] cls ++ [JS.lit "has-spotlights"])) h2
                (List.filter (kept h2) (cleaned cs))) /\
    (forall i, i ∉ lineRefs cs -> contentAt h2 i = cs !! i) /\
    (forall i n, cs !! i = Some n -> isLine n = true ->
       exists n', lineResult (stateBefore cs i) n = Some n' /\
                  contentAt h2 i = Some n') /\
    (forall i n, cs !! i = Some n -> isLine n = true ->
       isMarkerOnly (getText n) = true -> kept h2 i = false) /\
    (forall i n, cs !! i = Some n -> isElement n = true ->
       i ∉ trailingRefs cs ->
       (isLine n = true -> isMarkerOnly (getText n) = false) ->
       kept h2 i = true).
Proof.
  intros Hd. rewrite runCode_eq, Hd. simpl.
  set (h1 := foldr markRemove (alloc cs) (trailingRefs cs)).
  assert (Hc1 : forall i, contentAt h1 i = cs !! i).
  { intros i. unfold h1. rewrite content_marks. apply contentAt_alloc. }
  assert (Hlines : forall j, j ∈ lineRefs cs ->
            exists n, contentAt h1 j = Some n /\ isLine n = true).
  { intros j (n & Hn & Hl)%elem_of_lineRefs. exists n. rewrite Hc1. auto. }
  destruct (forEach_total (cleaned cs) (lineRefs cs) h1 false
              (NoDup_lineRefs cs) Hlines) as (h2 & b2 & Hrun).
  rewrite Hrun. simpl. exists h2. split; [reflexivity|].
  destruct (forEach_spec _ _ _ _ _ _ (NoDup_lineRefs cs) Hrun)
    as (Hlen & _ & Hout & Hin & Hmono & Hmark & Hchg).
  split; [intros i Hi; rewrite (Hout i Hi); apply Hc1|].
  split.
  { intros i n Hn Hl.
    destruct (Hin _ _ _ (lineRefs_split cs i n Hn Hl)) as (m & m' & Hm & Hr & Hm').
    rewrite Hc1, Hn in Hm. injection Hm as <-. exists m'. split; [|exact Hm'].
    unfold stateBefore. rewrite <- (textsOf_ext (alloc cs) h1); [exact Hr|].
    intros k _. rewrite Hc1. symmetry. apply contentAt_alloc. }
  split.
  { intros i n Hn Hl Hmk. rewrite kept_flagAt.
    rewrite (Hmark i n); [reflexivity| |rewrite Hc1; exact Hn|exact Hmk].
    apply elem_of_lineRefs. eauto. }
  intros i n Hn Hel Hi Hmk. rewrite kept_flagAt.
  assert (Hf1 : flagAt h1 i = Some false).
  { unfold h1. rewrite flag_marks, Hn. simpl. f_equal.
    apply not_true_iff_false. rewrite existsb_exists.
    intros (x & Hx & ->%Nat.eqb_eq). apply Hi, list_elem_of_In, Hx. }
  destruct (decide (flagAt h2 i = flagAt h1 i)) as [->|Hne];
    [rewrite Hf1; reflexivity|].
  exfalso. destruct (Hchg i Hne) as [(Hil & m & Hm & Hmm)|Hnel].
  - rewrite Hc1, Hn in Hm. injection Hm as <-.
    apply elem_of_lineRefs in Hil as (m & Hm & Hl).
    rewrite Hn in Hm. injection Hm as <-. rewrite (Hmk Hl) in Hmm. discriminate.
  - rewrite Hc1, Hn in Hnel. simpl in Hnel. congruence.
Qed.

(** The run never throws. *)
Lemma runCode_total cls cs : exists r, runCode cls cs = Some r.
Proof.
  destruct (detects cs) eqn:Hd.
  - destruct (runCode_detected cls cs Hd) as (h2 & -> & _). eauto.
  - destruct (runCode_undetected cls cs Hd) as (r & -> & _). eauto.
Qed.

End RunSpec.

(** ** Trimmed text and the marker-only test *)

Section Trim.

Import Spotlight.

Lemma dropSpaces_suffix (s : JS.str) :
  exists l, s = l ++ JS.dropSpaces s /\ forallb JS.isSpace l = true.
Proof.
  induction s as [|c s (l & Hl & Hsp)]; [exists []; auto|]. simpl.
  destruct (JS.isSpace c) eqn:Hc.
  - exists (c :: l). simpl. rewrite Hc, Hsp. split; [congruence | reflexivity].
  - exists []. auto.
Qed.

(** [trim] cuts white space off both ends and nothing else. *)
Lemma trim_decompose (s : JS.str) :
  exists l r, s = l ++ JS.trim s ++ r /\
    forallb JS.isSpace l = true /\ forallb JS.isSpace r = true.
Proof.
  unfold JS.trim.
  destruct (dropSpaces_suffix s) as (l & Hl & Hlsp).
  destruct (dropSpaces_suffix (rev (JS.dropSpaces s))) as (r & Hr & Hrsp).
  exists l, (rev r). split; [|split; [exact Hlsp|]].
  - rewrite <- rev_app_distr, <- Hr, rev_involutive. exact Hl.
  - rewrite forallb_forall in *. intros x Hx. apply Hrsp, in_rev, Hx.
Qed.

Lemma startsWith_spaces_r (m : JS.str) : forall s r,
  forallb (fun c => negb (JS.isSpace c)) m = true ->
  forallb JS.isSpace r = true ->
  JS.startsWith m (s ++ r) = JS.startsWith m s.
Proof.
  induction m as [|c m IH]; intros s r Hm Hr; [reflexivity|].
  simpl in Hm. apply andb_true_iff in Hm as [Hc Hm].
  destruct s as [|d s]; simpl.
  - destruct r as [|d r]; [reflexivity|]. simpl in Hr.
    apply andb_true_iff in Hr as [Hd _].
    destruct (N.eqb_spec c d) as [->|_]; [|reflexivity].
    rewrite Hd in Hc. discriminate.
  - rewrite IH by assumption. reflexivity.
Qed.

Lemma includes_spaces_r (m s r : JS.str) :
  m <> [] ->
  forallb (fun c => negb (JS.isSpace c)) m = true ->
  forallb JS.isSpace r = true ->
  JS.includes m (s ++ r) = JS.includes m s.
Proof.
  intros Hne Hm Hr. induction s as [|d s IH].
  - simpl. destruct m as [|c m]; [congruence|].
    transitivity false; [|reflexivity].
    apply includes_blank; [|apply isBlank_spaces, Hr].
    simpl in *. apply andb_true_iff in Hm as [Hc _].
    apply negb_true_iff in Hc. rewrite Hc. reflexivity.
  - change (JS.includes m ((d :: s) ++ r))
      with (JS.startsWith m ((d :: s) ++ r) || JS.includes m (s ++ r)).
    rewrite startsWith_spaces_r, IH by assumption. reflexivity.
Qed.

Lemma includes_spaces_l (c : N) (m l s : JS.str) :
  JS.isSpace c = false ->
  forallb JS.isSpace l = true ->
  JS.includes (c :: m) (l ++ s) = JS.includes (c :: m) s.
Proof.
  intros Hc Hl. induction l as [|d l IH]; [reflexivity|].
  simpl in Hl. apply andb_true_iff in Hl as [Hd Hl].
  change (JS.includes (c :: m) ((d :: l) ++ s))
    with (JS.startsWith (c :: m) (d :: l ++ s) || JS.includes (c :: m) (l ++ s)).
  rewrite (IH Hl). simpl.
  destruct (N.eqb_spec c d) as [->|_]; [|reflexivity].
  rewrite Hd in Hc. discriminate.
Qed.

(** A marker in the trimmed text is a marker in the text. *)
Lemma includes_trim (m s : JS.str) :
  JS.includes m (JS.trim s) = true -> JS.includes m s = true.
Proof.
  intros H. destruct (trim_decompose s) as (l & r & Hs & _).
  rewrite Hs. apply includes_mid, H.
Qed.

Lemma includes_self (m : JS.str) : JS.includes m m = true.
Proof. apply includes_spec. exists [], []. rewrite app_nil_r. reflexivity. Qed.

(** The [text.includes("spotlight-start")] of the marker-only branch tells
    the start marker from the end marker. *)
Lemma markerOnly_start (s : JS.str) :
  JS.trim s = START ->
  isMarkerOnly s = true /\ JS.includes START s = true /\
  JS.includes (JS.lit "spotlight-start") s = true.
Proof.
  intros H. unfold isMarkerOnly. rewrite H, eqb_refl.
  split; [reflexivity|]. split.
  - apply includes_trim. rewrite H. apply includes_self.
  - apply includes_trim. rewrite H. reflexivity.
Qed.

Lemma markerOnly_end (s : JS.str) :
  JS.trim s = END_ ->
  isMarkerOnly s = true /\ JS.includes END_ s = true /\
  JS.includes (JS.lit "spotlight-start") s = false.
Proof.
  intros H. unfold isMarkerOnly. rewrite H, eqb_refl, orb_true_r.
  split; [reflexivity|]. split.
  - apply includes_trim. rewrite H. apply includes_self.
  - destruct (trim_decompose s) as (l & r & Hs & Hl & Hr). rewrite Hs, H.
    change (JS.lit "spotlight-start") with (115 :: JS.lit "potlight-start").
    rewrite (includes_spaces_l 115) by (try exact Hl; reflexivity).
    rewrite includes_spaces_r by (try exact Hr; try reflexivity; discriminate).
    reflexivity.
Qed.

Lemma isMarkerOnly_cases (s : JS.str) :
  isMarkerOnly s = true -> JS.trim s = START \/ JS.trim s = END_.
Proof.
  unfold isMarkerOnly. intros [H|H]%orb_true_iff; apply eqb_eq in H; auto.
Qed.

(** A marker-only line has a marker in its text. *)
Lemma isMarkerOnly_marked (s : JS.str) :
  isMarkerOnly s = true ->
  JS.includes START s || JS.includes END_ s = true.
Proof.
  intros [H|H]%isMarkerOnly_cases.
  - destruct (markerOnly_start s H) as (_ & -> & _). reflexivity.
  - destruct (markerOnly_end s H) as (_ & -> & _). apply orb_true_r.
Qed.

Lemma nextState_start_only b (s : JS.str) :
  JS.trim s = START -> nextState b s = true.
Proof.
  intros H. destruct (markerOnly_start s H) as (H1 & _ & H3).
  unfold nextState. rewrite H1. exact H3.
Qed.

Lemma nextState_end_only b (s : JS.str) :
  JS.trim s = END_ -> nextState b s = false.
Proof.
  intros H. destruct (markerOnly_end s H) as (H1 & _ & H3).
  unfold nextState. rewrite H1. exact H3.
Qed.

Lemma nextState_plain b (s : JS.str) :
  JS.includes START s = false -> JS.includes END_ s = false ->
  nextState b s = b.
Proof.
  intros H1 H2. unfold nextState.
  destruct (isMarkerOnly s) eqn:Hm.
  - apply isMarkerOnly_marked in Hm. rewrite H1, H2 in Hm. discriminate.
  - rewrite H1, H2. reflexivity.
Qed.

End Trim.

(** ** Blocks without markers *)

Section Unmarked.

Import Spotlight.

Implicit Types (cs : list node) (cls : classes).

(** [marked] is false when no line's joined text contains a marker. *)
Lemma marked_false_lines cs :
  marked cs = false <->
  forall n, n ∈ cs -> isLine n = true ->
    JS.includes START (getText n) = false /\ JS.includes END_ (getText n) = false.
Proof.
  unfold marked. rewrite <- not_true_iff_false, existsb_exists. split.
  - intros H n Hn Hl. apply orb_false_iff, not_true_iff_false. intros Hm.
    apply H. exists n. split; [apply list_elem_of_In, Hn|].
    rewrite Hl. exact Hm.
  - intros H (n & Hn & [Hl Hm]%andb_true_iff).
    destruct (H n (proj2 (list_elem_of_In _ _) Hn) Hl) as [H1 H2].
    unfold textMarked in Hm. rewrite H1, H2 in Hm. discriminate.
Qed.

Lemma marked_detects cs : marked cs = false -> detects cs = false.
Proof.
  unfold marked, detects. intros H.
  apply not_true_iff_false. intros (n & Hn & [Hl Hm]%andb_true_iff)%existsb_exists.
  apply not_true_iff_false in H. apply H, existsb_exists. exists n.
  split; [exact Hn|]. rewrite Hl. unfold textMarked.
  destruct (hasMarker_getText n Hm) as [->| ->]; [reflexivity | apply orb_true_r].
Qed.

Lemma pick_sublist {A} (f : nat -> bool) (xs : list A) : forall a,
  sublist (pick f a xs) xs.
Proof.
  induction xs as [|x xs IH]; intros a; [constructor|]. simpl.
  destruct (f a); [apply sublist_skip | apply sublist_cons]; apply IH.
Qed.

Lemma pick_ge {A} (f : nat -> bool) (xs : list A) : forall a,
  (forall i, (a <= i)%nat -> f i = true) -> pick f a xs = xs.
Proof.
  induction xs as [|x xs IH]; intros a H; [reflexivity|]. simpl.
  rewrite (H a (Nat.le_refl a)), IH; [reflexivity|].
  intros i Hi. apply H. lia.
Qed.

Lemma notIn_single a i : notIn [a] i = negb (Nat.eqb i a).
Proof. unfold notIn. simpl. rewrite orb_false_r. reflexivity. Qed.

Lemma notIn_pair a b i : notIn [a; b] i = negb (Nat.eqb i a) && negb (Nat.eqb i b).
Proof. unfold notIn. simpl. rewrite orb_false_r, negb_orb. reflexivity. Qed.

(** Leaving one position out is [delete]; so is leaving out two adjacent
    ones. *)
Lemma pick_delete {A} (xs : list A) : forall a l,
  pick (notIn [(a + l)%nat]) a xs = delete l xs.
Proof.
  induction xs as [|x xs IH]; intros a l; [destruct l; reflexivity|].
  cbn [pick]. rewrite notIn_single. destruct l as [|l].
  - rewrite Nat.add_0_r, Nat.eqb_refl. simpl. apply pick_ge.
    intros i Hi. rewrite notIn_single.
    destruct (Nat.eqb_spec i a); [lia | reflexivity].
  - destruct (Nat.eqb_spec a (a + S l)); [lia|]. simpl. f_equal.
    replace (a + S l)%nat with (S a + l)%nat by lia. apply IH.
Qed.

Lemma pick_delete_pair {A} (xs : list A) : forall a p,
  pick (notIn [(a + p)%nat; (a + S p)%nat]) a xs = delete p (delete (S p) xs).
Proof.
  induction xs as [|x xs IH]; intros a p; [destruct p; reflexivity|].
  cbn [pick]. rewrite notIn_pair. destruct p as [|p].
  - rewrite Nat.add_0_r, Nat.eqb_refl. simpl.
    destruct xs as [|y xs]; [reflexivity|]. cbn [pick].
    rewrite notIn_pair. replace (a + 1)%nat with (S a) by lia.
    rewrite Nat.eqb_refl, andb_false_r. simpl. apply pick_ge.
    intros i Hi. rewrite notIn_pair.
    destruct (Nat.eqb_spec i a); [lia|].
    destruct (Nat.eqb_spec i (S a)); [lia | reflexivity].
  - destruct (Nat.eqb_spec a (a + S p)); [lia|].
    destruct (Nat.eqb_spec a (a + S (S p))); [lia|]. simpl. f_equal.
    replace (a + S p)%nat with (S a + p)%nat by lia.
    replace (a + S (S p))%nat with (S a + S p)%nat by lia. apply IH.
Qed.

Lemma trailingRefs_blank cs l (n : node) :
  last (lineRefs cs) = Some l -> cs !! l = Some n ->
  isBlank (getText n) = true ->
  trailingRefs cs =
  match l with
  | S p => match cs !! p with
           | Some m => if isNewlineText m then [p; l] else [l]
           | None => [l]
           end
  | O => [l]
  end.
Proof.
  intros Hl Hn Hb. unfold trailingRefs. rewrite Hl, Hn, Hb. reflexivity.
Qed.

(** The child list after the cleanup, when the last line is blank: that
    line is deleted, and the newline text right before it if there is one. *)
Lemma withoutTrailing_blank cs l (n : node) :
  last (lineRefs cs) = Some l -> cs !! l = Some n ->
  isBlank (getText n) = true ->
  (forall p, l = S p -> cs !! p = Some (Text NEWLINE) ->
     withoutTrailing cs = delete p (delete l cs)) /\
  ((forall p, l = S p -> cs !! p <> Some (Text NEWLINE)) ->
     withoutTrailing cs = delete l cs).
Proof.
  intros Hl Hn Hb. unfold withoutTrailing.
  rewrite (trailingRefs_blank cs l n Hl Hn Hb). split.
  - intros p -> Hp. rewrite Hp.
    change (isNewlineText (Text NEWLINE)) with true. cbv iota.
    apply (pick_delete_pair cs 0 p).
  - intros Hno. destruct l as [|p]; [apply (pick_delete cs 0 0)|].
    destruct (cs !! p) as [m|] eqn:Hm; [|apply (pick_delete cs 0 (S p))].
    destruct (isNewlineText m) eqn:Hnl; [|apply (pick_delete cs 0 (S p))].
    exfalso. apply (Hno p eq_refl). rewrite Hm. f_equal.
    destruct m as [v|]; [|discriminate]. simpl in Hnl.
    apply eqb_eq in Hnl. congruence.
Qed.

Lemma withoutTrailing_id cs : trailingRefs cs = [] -> withoutTrailing cs = cs.
Proof. intros H. unfold withoutTrailing. rewrite H. apply pick_true. reflexivity. Qed.

Lemma trailingRefs_not_blank cs :
  (forall l n, last (lineRefs cs) = Some l -> cs !! l = Some n ->
               isBlank (getText n) = false) ->
  trailingRefs cs = [].
Proof.
  intros H. unfold trailingRefs.
  destruct (last (lineRefs cs)) as [l|] eqn:Hl; [|reflexivity].
  destruct (cs !! l) as [n|] eqn:Hn; [|reflexivity].
  rewrite (H l n eq_refl Hn). reflexivity.
Qed.

Lemma processCode_undetected cls cs :
  detects cs = false -> processCode cls cs = Some (cls, withoutTrailing cs).
Proof.
  intros Hd. unfold processCode.
  destruct (runCode_undetected cls cs Hd) as (r & -> & <- & <-). reflexivity.
Qed.

End Unmarked.

(** ** Survivors of a block with markers *)

Section Survivors.

Import Spotlight.

Implicit Types (cs : list node) (cls : classes) (i j l : ref).

Lemma elem_of_trailingRefs cs i :
  i ∈ trailingRefs cs <->
  exists l n, last (lineRefs cs) = Some l /\ cs !! l = Some n /\
    isBlank (getText n) = true /\
    (i = l \/ (l = S i /\ exists m, cs !! i = Some m /\ isNewlineText m = true)).
Proof.
  unfold trailingRefs. destruct (last (lineRefs cs)) as [l|] eqn:Hl.
  2:{ split; [intros H; inversion H | intros (l & n & ? & _); discriminate]. }
  destruct (cs !! l) as [n|] eqn:Hn.
  2:{ split; [intros H; inversion H|].
      intros (l' & n & [= <-] & Hn' & _). congruence. }
  destruct (isBlank (getText n)) eqn:Hb.
  2:{ split; [intros H; inversion H|].
      intros (l' & n' & [= <-] & Hn' & Hb' & _). congruence. }
  assert (Hgen : forall ps : list nat, (forall x, x ∈ ps <-> x = l \/
             (l = S x /\ exists m, cs !! x = Some m /\ isNewlineText m = true)) ->
           (i ∈ ps <-> exists l0 n0, Some l = Some l0 /\ cs !! l0 = Some n0 /\
              isBlank (getText n0) = true /\
              (i = l0 \/ (l0 = S i /\ exists m, cs !! i = Some m /\ isNewlineText m = true)))).
  { intros ps Hps. rewrite Hps. split.
    - intros H. exists l, n. auto.
    - intros (l0 & n0 & [= <-] & _ & _ & H). exact H. }
  apply Hgen. intros x. destruct l as [|p].
  - rewrite list_elem_of_singleton. split; [auto|]. intros [H|[H _]]; [exact H | discriminate].
  - destruct (cs !! p) as [m|] eqn:Hm.
    + destruct (isNewlineText m) eqn:Hnl.
      * rewrite elem_of_cons, list_elem_of_singleton. split.
        -- intros [Hx | Hx]; subst x; [right; eauto | left; reflexivity].
        -- intros [Hx | [[= <-] _]]; [subst x|]; auto.
      * rewrite list_elem_of_singleton. split; [auto|].
        intros [H|[[= <-] (m' & Hm' & Hnl')]]; [exact H | congruence].
    + rewrite list_elem_of_singleton. split; [auto|].
      intros [H|[[= <-] (m' & Hm' & _)]]; [exact H | congruence].
Qed.

(** A line is taken out by the cleanup only when it is the blank last one. *)
Lemma line_trailing cs i n :
  cs !! i = Some n -> isLine n = true -> i ∈ trailingRefs cs ->
  last (lineRefs cs) = Some i /\ isBlank (getText n) = true.
Proof.
  intros Hn Hl (l & m & Hlast & Hm & Hb & [->|[-> (m' & Hm' & Hnl)]])%elem_of_trailingRefs.
  - split; [exact Hlast | congruence].
  - rewrite Hn in Hm'. injection Hm' as <-.
    destruct n; simpl in *; discriminate.
Qed.

Lemma elem_of_outChildren (r : run) (n' : node) :
  n' ∈ outChildren r <->
  exists i, i ∈ childRefs r /\ contentAt (heap r) i = Some n'.
Proof. rewrite outChildren_eq. apply list_elem_of_omap. Qed.

(** A line that is left in a block with markers was a line of the input,
    not a marker-only one, and holds what the callback made of it. *)
Lemma survivor_line cls cs (r : run) i (n' : node) :
  detects cs = true -> runCode cls cs = Some r ->
  i ∈ childRefs r -> contentAt (heap r) i = Some n' -> isLine n' = true ->
  exists n, cs !! i = Some n /\ isLine n = true /\
    isMarkerOnly (getText n) = false /\
    lineResult (stateBefore cs i) n = Some n'.
Proof.
  intros Hd Hrun Hi Hn' Hl'.
  destruct (runCode_detected cls cs Hd) as (h2 & Heq & Hother & Hline & Hgone & _).
  rewrite Heq in Hrun. injection Hrun as <-. simpl in *.
  apply elem_of_filterb in Hi as [Hic Hk].
  destruct (decide (i ∈ lineRefs cs)) as [Hin|Hout].
  - apply elem_of_lineRefs in Hin as (n & Hn & Hl).
    destruct (Hline i n Hn Hl) as (m & Hres & Hm).
    rewrite Hn' in Hm. injection Hm as <-.
    exists n. repeat split; try assumption.
    destruct (isMarkerOnly (getText n)) eqn:Hmk; [|reflexivity].
    rewrite (Hgone i n Hn Hl Hmk) in Hk. discriminate.
  - exfalso. apply Hout, elem_of_lineRefs. exists n'.
    rewrite <- (Hother i Hout). auto.
Qed.

(** What the callback makes of a line without a marker in its text. *)
Lemma lineResult_plain b (n n' : node) :
  isLine n = true -> textMarked n = false -> lineResult b n = Some n' ->
  exists tag cl ch,
    n = Element tag (Some cl) ch /\
    n' = Element tag
           (Some (cl ++ [JS.lit (if b then "spotlight" else "dim")]))
           (if b && isBlank (getText n) then [Text NBSP] else ch).
Proof.
  intros (tag & cl & ch & -> & _ & _)%isLine_Element Hm Hres.
  exists tag, cl, ch. split; [reflexivity|].
  unfold textMarked in Hm. apply orb_false_iff in Hm as [H1 H2].
  unfold lineResult in Hres.
  destruct (isMarkerOnly _) eqn:Hmk.
  { apply isMarkerOnly_marked in Hmk. rewrite H1, H2 in Hmk. discriminate. }
  rewrite H1, H2 in Hres. destruct b; simpl in Hres.
  - destruct (isBlank _); injection Hres as <-; reflexivity.
  - injection Hres as <-. reflexivity.
Qed.

(** What it makes of a line with a marker beside other text. *)
Lemma lineResult_inline b (n : node) :
  isMarkerOnly (getText n) = false -> textMarked n = true ->
  lineResult b n =
  Some (transformNode (if JS.includes START (getText n) then START else END_) n).
Proof.
  intros Hmk Hm. unfold lineResult. rewrite Hmk.
  unfold textMarked in Hm.
  destruct (JS.includes START (getText n)); [reflexivity|].
  simpl in Hm. rewrite Hm. reflexivity.
Qed.

Lemma classOf_transformNode m (n : node) : classOf (transformNode m n) = classOf n.
Proof. destruct n as [[|]|]; reflexivity. Qed.

End Survivors.

(** ** Text values and the stripping of a marker *)

Section Leaves.

Lemma stripMarker_nil (m : JS.str) : JS.stripMarker m [] = [].
Proof. destruct m; reflexivity. Qed.

Lemma getText_leaves (n : node) : getText n = concat (leaves n).
Proof.
  induction n as [v|tag cls cs IH] using node_forall_ind.
  - rewrite getText_Text. simpl. rewrite app_nil_r. reflexivity.
  - simpl. unfold JS.join. induction IH as [|c cs Hc _ IHcs]; [reflexivity|].
    simpl. rewrite concat_app, Hc, IHcs. reflexivity.
Qed.

Lemma leaves_transformNode (m : JS.str) (n : node) :
  leaves (transformNode m n) = map (JS.stripMarker m) (leaves n).
Proof.
  induction n as [v|tag cls cs IH] using node_forall_ind.
  - simpl. destruct v; [rewrite stripMarker_nil|]; reflexivity.
  - simpl. induction IH as [|c cs Hc _ IHcs]; [reflexivity|].
    simpl. rewrite map_app, Hc, IHcs. reflexivity.
Qed.

Lemma hasMarker_leaves (n : node) :
  hasMarker n =
  existsb (fun v => JS.includes START v || JS.includes END_ v) (leaves n).
Proof.
  induction n as [v|tag cls cs IH] using node_forall_ind.
  - destruct v; [reflexivity|]. cbn [hasMarker leaves existsb JS.truthy].
    rewrite orb_false_r. reflexivity.
  - simpl. induction IH as [|c cs Hc _ IHcs]; [reflexivity|].
    simpl. rewrite existsb_app, Hc, IHcs. reflexivity.
Qed.

Lemma startsWith_drop (m s : JS.str) :
  JS.startsWith m s = true -> s = m ++ drop (length m) s.
Proof.
  intros (r & ->)%startsWith_spec. rewrite drop_app_length. reflexivity.
Qed.

(** A value without the marker is left as it is. *)
Lemma stripMarker_absent (m s : JS.str) :
  JS.includes m s = false -> JS.stripMarker m s = s.
Proof.
  induction s as [|c s IH]; intros H.
  - apply stripMarker_nil.
  - change (JS.includes m (c :: s))
      with (JS.startsWith m (c :: s) || JS.includes m s) in H.
    apply orb_false_iff in H as [H1 H2].
    change (JS.stripMarker m (c :: s))
      with (if JS.startsWith m (c :: s)
            then JS.dropSpaces (drop (length m) (c :: s))
            else c :: JS.stripMarker m s).
    rewrite H1, (IH H2). reflexivity.
Qed.

(** A value with the marker loses its leftmost occurrence and the white
    space behind that occurrence. *)
Lemma stripMarker_first (m s : JS.str) :
  JS.includes m s = true ->
  exists u w rest,
    s = u ++ m ++ w ++ rest /\
    JS.stripMarker m s = u ++ rest /\
    forallb JS.isSpace w = true /\
    JS.dropSpaces rest = rest /\
    (forall k, (k < length u)%nat -> JS.startsWith m (drop k s) = false).
Proof.
  induction s as [|c s IH]; intros H.
  - simpl in H. rewrite orb_false_r in H.
    destruct (dropSpaces_suffix (drop (length m) (@nil N))) as (w & Hw & Hsp).
    exists [], w, (JS.dropSpaces (drop (length m) [])).
    destruct m; [|discriminate]. simpl in *. repeat split; auto.
    intros k Hk; lia.
  - change (JS.includes m (c :: s))
      with (JS.startsWith m (c :: s) || JS.includes m s) in H.
    change (JS.stripMarker m (c :: s))
      with (if JS.startsWith m (c :: s)
            then JS.dropSpaces (drop (length m) (c :: s))
            else c :: JS.stripMarker m s).
    destruct (JS.startsWith m (c :: s)) eqn:Hs.
    + destruct (dropSpaces_suffix (drop (length m) (c :: s))) as (w & Hw & Hsp).
      exists [], w, (JS.dropSpaces (drop (length m) (c :: s))).
      split; [simpl; rewrite <- Hw; apply startsWith_drop, Hs|].
      split; [reflexivity|]. split; [exact Hsp|]. split.
      * clear. induction (drop (length m) (c :: s)) as [|d l IHl]; [reflexivity|].
        simpl. destruct (JS.isSpace d) eqn:Hd; [exact IHl|].
        simpl. rewrite Hd. reflexivity.
      * intros k Hk; simpl in Hk; lia.
    + simpl in H. destruct (IH H) as (u & w & rest & Hu & Hst & Hsp & Hrest & Hfirst).
      exists (c :: u), w, rest. split; [simpl; congruence|].
      split; [simpl; congruence|]. split; [exact Hsp|]. split; [exact Hrest|].
      intros [|k] Hk; [exact Hs|]. simpl in Hk. apply Hfirst. lia.
Qed.

End Leaves.

(** ** The two markers side by side *)

Section Markers.

Lemma START_eq :
  START = [47; 47; 32; 115; 112; 111; 116; 108; 105; 103; 104; 116; 45;
           115; 116; 97; 114; 116].
Proof. reflexivity. Qed.

Lemma END_eq :
  END_ = [47; 47; 32; 115; 112; 111; 116; 108; 105; 103; 104; 116; 45;
          101; 110; 100].
Proof. reflexivity. Qed.

Lemma startsWith_includes (m s : JS.str) :
  JS.startsWith m s = true -> JS.includes m s = true.
Proof. intros H. destruct s; simpl; rewrite H; reflexivity. Qed.

Lemma includes_cons (m : JS.str) (c : N) (s : JS.str) :
  JS.includes m s = true -> JS.includes m (c :: s) = true.
Proof. intros H. simpl. rewrite H. apply orb_true_r. Qed.

Lemma includes_step (m : JS.str) (c : N) (s : JS.str) :
  JS.includes m (c :: s) = JS.startsWith m (c :: s) || JS.includes m s.
Proof. reflexivity. Qed.

Lemma startsWith_app_l (m s t : JS.str) :
  JS.startsWith m s = true -> JS.startsWith m (s ++ t) = true.
Proof.
  rewrite !startsWith_spec. intros (r & ->). exists (r ++ t).
  rewrite app_assoc. reflexivity.
Qed.

(** An end marker cannot begin in front of a start marker and run into it. *)
Lemma end_not_across (p Y : JS.str) :
  p <> [] -> JS.startsWith END_ (p ++ START ++ Y) = true ->
  JS.startsWith END_ p = true.
Proof.
  rewrite START_eq, END_eq. intros Hp H.
  destruct p as [|c1 p]; [congruence|]. clear Hp.
  do 15 (destruct p as [|? p];
         [cbn in H; rewrite ?andb_false_r in H; discriminate H|]).
  cbn in H |- *. repeat (apply andb_true_iff in H as [? H]).
  repeat (apply andb_true_iff; split; [assumption|]). reflexivity.
Qed.

(** Taking a start marker and the white space behind it out of a text
    leaves every end marker of that text in place. *)
Lemma end_survives_core (w q : JS.str) : forall p,
  forallb JS.isSpace w = true ->
  JS.includes END_ (p ++ START ++ w ++ q) = true ->
  JS.includes END_ (p ++ q) = true.
Proof.
  intros p Hw. induction p as [|c p IH]; intros H.
  - change ([] ++ START ++ w ++ q) with (START ++ w ++ q) in H.
    change ([] ++ q) with q.
    rewrite START_eq, END_eq in H. cbn in H.
    rewrite END_eq. rewrite (includes_spaces_l 47) in H by (reflexivity || exact Hw).
    exact H.
  - change ((c :: p) ++ START ++ w ++ q) with (c :: (p ++ START ++ w ++ q)) in H.
    rewrite includes_step in H. apply orb_true_iff in H as [H|H].
    + apply startsWith_includes, startsWith_app_l.
      apply (end_not_across (c :: p) (w ++ q)); [discriminate | exact H].
    + apply includes_cons, IH, H.
Qed.

Lemma end_survives (x v y : JS.str) :
  JS.includes END_ (x ++ v ++ y) = true ->
  JS.includes END_ (x ++ JS.stripMarker START v ++ y) = true.
Proof.
  intros H. destruct (JS.includes START v) eqn:Hv.
  - destruct (stripMarker_first START v Hv) as (u & w & rest & Hu & -> & Hw & _).
    rewrite Hu in H. rewrite <- !app_assoc in *. rewrite app_assoc.
    rewrite app_assoc in H. apply (end_survives_core w _ _ Hw H).
  - rewrite (stripMarker_absent _ _ Hv). exact H.
Qed.

Lemma end_survives_leaves (vs : list JS.str) : forall x y,
  JS.includes END_ (x ++ concat vs ++ y) = true ->
  JS.includes END_ (x ++ concat (map (JS.stripMarker START) vs) ++ y) = true.
Proof.
  induction vs as [|v vs IH]; intros x y H; [exact H|]. simpl in *.
  rewrite <- app_assoc in *. apply end_survives in H.
  rewrite app_assoc in H. apply IH in H. rewrite <- app_assoc in H. exact H.
Qed.

(** Stripping the start marker keeps an end marker in the line's text. *)
Lemma end_survives_node (n : node) :
  JS.includes END_ (getText n) = true ->
  JS.includes END_ (getText (transformNode START n)) = true.
Proof.
  rewrite !getText_leaves, leaves_transformNode. intros H.
  assert (H' := end_survives_leaves (leaves n) [] []).
  simpl in H'. rewrite !app_nil_r in H'. apply H', H.
Qed.

End Markers.

(** ** A marker at the end of a line's text *)

Section TrailingMarker.

Lemma includes_length (m s : JS.str) :
  JS.includes m s = true -> (length m <= length s)%nat.
Proof.
  intros (l & r & ->)%includes_spec. rewrite !length_app. lia.
Qed.

Lemma concat_nil_strip (m : JS.str) (vs : list JS.str) :
  concat vs = [] -> concat (map (JS.stripMarker m) vs) = [].
Proof.
  induction vs as [|v vs IH]; [reflexivity|]. simpl.
  intros [-> H]%app_eq_nil. rewrite stripMarker_nil, (IH H). reflexivity.
Qed.

(** When a text ends in the marker, holds it nowhere else and one of its
    values holds it whole, stripping every value leaves the text in front
    of the marker. *)
Lemma strip_trailing_marker (m : JS.str) (vs : list JS.str) : forall x,
  m <> [] ->
  concat vs = x ++ m ->
  JS.includes m (x ++ removelast m) = false ->
  existsb (JS.includes m) vs = true ->
  concat (map (JS.stripMarker m) vs) = x.
Proof.
  intros x Hm. revert x.
  induction vs as [|v vs IH]; intros x Hcat Hone Hex; [discriminate|].
  simpl in Hcat, Hex |- *.
  destruct (JS.includes m v) eqn:Hv.
  - clear Hex IH.
    destruct (stripMarker_first m v Hv) as (u & w & rest & Hu & Hs & _).
    rewrite Hs. rewrite Hu in Hcat. rewrite <- !app_assoc in Hcat.
    set (Z := w ++ rest ++ concat vs) in *.
    assert (Hux : u = x /\ Z = []).
    { apply app_eq_inv in Hcat as [(k & Hk1 & Hk2)|(k & Hk1 & Hk2)].
      - assert (Hlen := f_equal (@length _) Hk2).
        rewrite !length_app in Hlen.
        assert (k = []) as -> by (destruct k; [reflexivity | simpl in Hlen; lia]).
        rewrite app_nil_r in Hk1. split; [exact Hk1|].
        destruct Z; [reflexivity | simpl in Hlen; lia].
      - destruct k as [|c k].
        + rewrite app_nil_r in Hk1. split; [congruence|].
          assert (Hlen := f_equal (@length _) Hk2).
          rewrite !length_app in Hlen.
          destruct Z; [reflexivity | simpl in Hlen; lia].
        + exfalso. apply not_true_iff_false in Hone. apply Hone.
          assert (Hlen := f_equal (@length _) Hk2).
          rewrite !length_app in Hlen. simpl in Hlen.
          assert (HZ : Z <> []) by (intros E; rewrite E in Hlen; simpl in Hlen; lia).
          assert (Hr : (c :: k) ++ removelast m = m ++ removelast Z).
          { rewrite <- removelast_app by exact Hm.
            rewrite <- Hk2. apply removelast_app, HZ. }
          rewrite Hk1, <- app_assoc, Hr. apply includes_spec.
          exists u, (removelast Z). reflexivity. }
    destruct Hux as [-> HZ]. unfold Z in HZ.
    apply app_eq_nil in HZ as [_ HZ]. apply app_eq_nil in HZ as [-> HZ].
    rewrite (concat_nil_strip m vs HZ), !app_nil_r. reflexivity.
  - simpl in Hex. rewrite (stripMarker_absent _ _ Hv).
    assert (Hin : JS.includes m (concat vs) = true).
    { apply existsb_exists in Hex as (y & Hy & Hmy).
      eapply includes_concat; eassumption. }
    apply includes_length in Hin.
    apply app_eq_inv in Hcat as [(k & Hk1 & Hk2)|(k & Hk1 & Hk2)].
    + assert (Hlen := f_equal (@length _) Hk2).
      rewrite !length_app in Hlen.
      assert (k = []) as -> by (destruct k; [reflexivity | simpl in Hlen; lia]).
      rewrite app_nil_r in Hk1. subst v. simpl in Hk2.
      rewrite (IH [] (eq_sym Hk2)); [apply app_nil_r| |exact Hex].
      apply not_true_iff_false. intros Hc. apply includes_length in Hc.
      simpl in Hc. destruct m as [|c m]; [congruence|].
      assert (Hl := removelast_app [] (l':=c :: m) ltac:(discriminate)).
      assert (Hl2 : (length (removelast (c :: m)) < length (c :: m))%nat).
      { clear. revert c. induction m as [|d m IHm]; intros c; simpl; [lia|].
        specialize (IHm d). simpl in IHm. lia. }
      lia.
    + subst x. f_equal. apply IH; [exact Hk2| |exact Hex].
      apply not_true_iff_false. intros Hc.
      apply not_true_iff_false in Hone. apply Hone.
      rewrite <- app_assoc. apply includes_app_r, Hc.
Qed.

End TrailingMarker.

(** ** The state in front of a line *)

Section State.

Implicit Types (cs : list node) (i k q : ref).

Lemma linesBefore_split cs i k (n : node) :
  cs !! i = Some n -> isLine n = true -> (i < k)%nat ->
  linesBefore cs k =
  linesBefore cs i ++ i :: refsWhere isLine (alloc cs) (seq (S i) (k - S i)).
Proof.
  intros Hn Hl Hik. unfold linesBefore, refsWhere.
  replace k with (i + S (k - S i))%nat at 1 by lia.
  rewrite seq_app, List.filter_app. f_equal. simpl.
  assert (Hc := contentAt_alloc cs i). unfold contentAt in Hc.
  destruct (alloc cs !! i) as [o|]; simpl in Hc; [|congruence].
  replace (content o) with n by congruence. rewrite Hl. reflexivity.
Qed.

Lemma textsOf_app (h : store) (a b : list ref) :
  textsOf h (a ++ b) = textsOf h a ++ textsOf h b.
Proof. unfold textsOf. apply omap_app. Qed.

Lemma foldl_nextState_plain (ts : list JS.str) : forall b,
  Forall (fun t => JS.includes START t = false /\ JS.includes END_ t = false) ts ->
  foldl nextState b ts = b.
Proof.
  induction ts as [|t ts IH]; intros b H; [reflexivity|].
  apply Forall_cons in H as [[H1 H2] H]. simpl.
  rewrite (nextState_plain b t H1 H2). apply IH, H.
Qed.

Lemma textsOf_Forall (P : JS.str -> Prop) cs (rs : list ref) :
  (forall q m, q ∈ rs -> cs !! q = Some m -> P (getText m)) ->
  Forall P (textsOf (alloc cs) rs).
Proof.
  induction rs as [|r rs IH]; intros H; [constructor|].
  rewrite textsOf_step, contentAt_alloc.
  destruct (cs !! r) as [m|] eqn:Hm.
  - constructor; [apply (H r m); [left | exact Hm]|].
    apply IH. intros q m' Hq. apply H. right. exact Hq.
  - apply IH. intros q m' Hq. apply H. right. exact Hq.
Qed.

(** The state in front of the first line, and behind a line when only
    lines without markers follow up to position [k]. *)
Lemma stateBefore_after cs i k (n : node) :
  cs !! i = Some n -> isLine n = true -> (i < k)%nat ->
  (forall q m, (i < q < k)%nat -> cs !! q = Some m -> isLine m = true ->
               textMarked m = false) ->
  stateBefore cs k = nextState (stateBefore cs i) (getText n).
Proof.
  intros Hn Hl Hik Hplain. unfold stateBefore.
  rewrite (linesBefore_split cs i k n Hn Hl Hik), textsOf_app, foldl_app.
  rewrite (textsOf_cons _ _ _ n) by (rewrite contentAt_alloc; exact Hn).
  simpl. apply foldl_nextState_plain, textsOf_Forall.
  intros q m [Hq (m' & Hm' & Hlm)]%elem_of_refsWhere Hm.
  apply elem_of_seq in Hq. rewrite Hm in Hm'. injection Hm' as <-.
  assert (Ht := Hplain q m ltac:(lia) Hm Hlm).
  unfold textMarked in Ht. apply orb_false_iff in Ht. exact Ht.
Qed.

Lemma stateBefore_first cs k :
  (forall q m, (q < k)%nat -> cs !! q = Some m -> isLine m = true ->
               textMarked m = false) ->
  stateBefore cs k = false.
Proof.
  intros Hplain. unfold stateBefore.
  apply foldl_nextState_plain, textsOf_Forall.
  intros q m [Hq (m' & Hm' & Hlm)]%elem_of_refsWhere Hm.
  apply elem_of_seq in Hq. rewrite Hm in Hm'. injection Hm' as <-.
  assert (Ht := Hplain q m ltac:(lia) Hm Hlm).
  unfold textMarked in Ht. apply orb_false_iff in Ht. exact Ht.
Qed.

End State.

(** ** The walk ends and never throws *)

Section Depth.

Lemma depth_le_maxDepth (n : node) (ns : list node) :
  n ∈ ns -> (depth n <= maxDepth ns)%nat.
Proof.
  unfold maxDepth. induction ns as [|m ns IH]; intros H; [inversion H|].
  apply elem_of_cons in H as [->|H]; simpl; [lia|].
  specialize (IH H). lia.
Qed.

Lemma maxDepth_le (ns : list node) (d : nat) :
  (forall n, n ∈ ns -> (depth n <= d)%nat) -> (maxDepth ns <= d)%nat.
Proof.
  unfold maxDepth. induction ns as [|m ns IH]; intros H; simpl; [lia|].
  assert (Hm := H m (list_elem_of_here _ _)).
  assert (Hr : (foldr Nat.max 0 (map depth ns) <= d)%nat).
  { apply IH. intros n Hn. apply H. right. exact Hn. }
  lia.
Qed.

Lemma depth_transformNode (m : JS.str) (n : node) :
  depth (transformNode m n) = depth n.
Proof.
  induction n as [v|tag cls cs IH] using node_forall_ind.
  - simpl. destruct v; reflexivity.
  - simpl. f_equal. induction IH as [|c cs Hc _ IHcs]; [reflexivity|].
    simpl. rewrite Hc, IHcs. reflexivity.
Qed.

Lemma depth_lineResult b (n n' : node) :
  lineResult b n = Some n' -> (depth n' <= depth n)%nat.
Proof.
  unfold lineResult.
  destruct (Spotlight.isMarkerOnly _); [intros [= <-]; lia|].
  destruct (JS.includes START _); [intros [= <-]; rewrite depth_transformNode; lia|].
  destruct (JS.includes END_ _); [intros [= <-]; rewrite depth_transformNode; lia|].
  destruct n as [v|tag [cl|] cs]; destruct b; simpl; try discriminate.
  - destruct (isBlank _); intros [= <-]; simpl; lia.
  - intros [= <-]. simpl. lia.
Qed.

(** The children a code element ends with are no deeper than those it
    started with. *)
Lemma processCode_depth cls (cs : list node) cls' (out : list node) :
  Spotlight.processCode cls cs = Some (cls', out) ->
  (maxDepth out <= maxDepth cs)%nat.
Proof.
  unfold Spotlight.processCode. intros H.
  destruct (Spotlight.runCode cls cs) as [r|] eqn:Hrun; [|discriminate].
  simpl in H. injection H as <- <-.
  apply maxDepth_le. intros n' Hn'.
  destruct (detects cs) eqn:Hd.
  - apply elem_of_outChildren in Hn' as (i & Hi & Hc).
    destruct (runCode_detected cls cs Hd) as (h2 & Heq & Hother & Hline & _).
    rewrite Heq in Hrun. injection Hrun as <-. simpl in *.
    destruct (decide (i ∈ lineRefs cs)) as [Hin|Hout].
    + apply elem_of_lineRefs in Hin as (n & Hn & Hl).
      destruct (Hline i n Hn Hl) as (m & Hres & Hm).
      rewrite Hc in Hm. injection Hm as <-.
      apply depth_lineResult in Hres.
      assert (Hle := depth_le_maxDepth n cs
                       (proj2 (list_elem_of_lookup _ _) (ex_intro _ i Hn))).
      lia.
    + rewrite (Hother i Hout) in Hc. apply depth_le_maxDepth.
      apply list_elem_of_lookup. eauto.
  - destruct (runCode_undetected cls cs Hd) as (r' & Hr' & _ & Hout).
    rewrite Hr' in Hrun. injection Hrun as <-. rewrite Hout in Hn'.
    apply depth_le_maxDepth.
    eapply elem_of_sublist; [exact Hn' | apply pick_sublist].
Qed.

Lemma processCode_total cls (cs : list node) :
  exists cls' out, Spotlight.processCode cls cs = Some (cls', out).
Proof.
  unfold Spotlight.processCode.
  destruct (runCode_total cls cs) as (r & ->). simpl. eauto.
Qed.

Section Walk.

Variable process : classes -> list node -> option (classes * list node).

Hypothesis process_total :
  forall cls cs, exists cls' out, process cls cs = Some (cls', out).

Hypothesis process_depth :
  forall cls cs cls' out,
    process cls cs = Some (cls', out) -> (maxDepth out <= maxDepth cs)%nat.

Lemma maxDepth_insert (ns : list node) (i : nat) (n n' : node) :
  ns !! i = Some n -> (depth n' <= depth n)%nat ->
  (maxDepth (<[i := n']> ns) <= maxDepth ns)%nat.
Proof.
  intros Hn Hle. apply maxDepth_le. intros m Hm.
  apply list_elem_of_lookup in Hm as [j Hj].
  destruct (decide (i = j)) as [->|Hne].
  - rewrite list_lookup_insert_eq in Hj by (eapply lookup_lt_Some; eauto).
    injection Hj as <-.
    assert (H := depth_le_maxDepth n ns
                   (proj2 (list_elem_of_lookup _ _) (ex_intro _ j Hn))). lia.
  - rewrite list_lookup_insert_ne in Hj by exact Hne.
    apply depth_le_maxDepth, list_elem_of_lookup. eauto.
Qed.

(** The visitor returns an element for an element, and no deeper a one. *)
Lemma visitor_total tag cls (children : list node) :
  exists children',
    visitor process (Element tag cls children) = Some (Element tag cls children') /\
    (maxDepth children' <= maxDepth children)%nat.
Proof.
  unfold visitor. destruct (JS.eqb tag (JS.lit "pre")); [|eauto].
  destruct (head _) as [codeEl|]; [|eauto].
  destruct (children !! codeEl) as [[v|ctag ccls cch]|] eqn:Hc; [eauto| |eauto].
  destruct (process_total ccls cch) as (ccls' & cch' & Hp). rewrite Hp. simpl.
  eexists. split; [reflexivity|].
  apply (maxDepth_insert _ _ _ _ Hc). simpl.
  apply process_depth in Hp. unfold maxDepth in Hp. lia.
Qed.

(** Enough fuel: the nesting depth of the node. *)
Lemma visit_total (fuel : nat) : forall n,
  (depth n <= fuel)%nat -> exists n', visit process fuel n = Some n'.
Proof.
  induction fuel as [|fuel IH]; intros [v|tag cls cs] Hd;
    try (simpl; eauto; fail).
  - simpl in Hd. lia.
  - destruct (visitor_total tag cls cs) as (cs' & Hv & Hle).
    cbn [visit]. rewrite Hv. simpl.
    assert (Hall : Forall (is_Some ∘ visit process fuel) cs').
    { apply Forall_forall. intros c Hc. apply IH.
      assert (H1 := depth_le_maxDepth c cs' Hc). simpl in Hd.
      unfold maxDepth in *. lia. }
    apply mapM_is_Some_2 in Hall as [out ->]. simpl. eauto.
Qed.

(** More fuel does not change what the walk returns. *)
Lemma visit_fuel_mono (fuel : nat) : forall n r,
  visit process fuel n = Some r -> visit process (S fuel) n = Some r.
Proof.
  induction fuel as [|fuel IH]; intros [v|tag cls cs] r H;
    try exact H; try discriminate H.
  cbn [visit] in H. change (visit process (S (S fuel)) (Element tag cls cs))
    with (visitor process (Element tag cls cs) ≫= fun n' =>
            match n' with
            | Element tag' cls' cs' =>
                cs'' ← mapM (visit process (S fuel)) cs';
                Some (Element tag' cls' cs'')
            | Text _ => Some n'
            end).
  destruct (visitor process (Element tag cls cs)) as [[v|tag' cls' cs']|];
    cbn [mbind option_bind] in H |- *; try exact H.
  destruct (mapM (visit process fuel) cs') as [out|] eqn:Hm; [|discriminate].
  assert (Hm' : mapM (visit process (S fuel)) cs' = Some out).
  { apply mapM_Some. apply mapM_Some in Hm.
    clear H. induction Hm as [|c c' l l' Hc Hl IHl].
    - apply List.Forall2_nil.
    - apply List.Forall2_cons; [apply IH, Hc | exact IHl]. }
  rewrite Hm'. exact H.
Qed.

Lemma visit_fuel_le (fuel fuel' : nat) n r :
  (fuel <= fuel')%nat ->
  visit process fuel n = Some r -> visit process fuel' n = Some r.
Proof.
  intros Hle H. induction Hle as [|fuel' _ IH]; [exact H|].
  apply visit_fuel_mono, IH.
Qed.

Lemma annotateWith_total (tree : list node) :
  exists out, annotateWith process tree = Some out.
Proof.
  unfold annotateWith. apply mapM_is_Some_2, Forall_forall.
  intros n Hn. apply visit_total. apply (depth_le_maxDepth n tree Hn).
Qed.

End Walk.

End Depth.

(** ** The blank last line takes no part in the pass *)

Section Trailing.

Import Spotlight.

Implicit Types (cs : list node) (cls : classes) (i j l : ref).

Lemma forEach_app children (a b : list ref) : forall st,
  forEach children (a ++ b) st = forEach children a st ≫= forEach children b.
Proof.
  induction a as [|j a IH]; intros st; [reflexivity|].
  change (forEach children ((j :: a) ++ b) st)
    with (lineStep children st j ≫= forEach children (a ++ b)).
  change (forEach children (j :: a) st)
    with (lineStep children st j ≫= forEach children a).
  destruct (lineStep children st j) as [st'|]; simpl; [apply IH | reflexivity].
Qed.

Lemma forEach_single children j st :
  forEach children [j] st = lineStep children st j.
Proof. simpl. destruct (lineStep children st j); reflexivity. Qed.

Lemma kept_setContent (h : store) j (n : node) i :
  kept (setContent j n h) i = kept h i.
Proof. rewrite !kept_flagAt, flag_setContent. reflexivity. Qed.

Lemma blank_last_trailing cs l (n : node) :
  last (lineRefs cs) = Some l -> cs !! l = Some n ->
  isBlank (getText n) = true -> l ∈ trailingRefs cs.
Proof. intros H1 H2 H3. apply elem_of_trailingRefs. exists l, n. auto. Qed.

(** With the blank last line or without it in the list of lines, the pass
    ends with the same children and the same state. *)
Lemma classify_without_last cs (init : list ref) l (n : node) :
  lineRefs cs = init ++ [l] -> cs !! l = Some n ->
  isBlank (getText n) = true ->
  classify cs (init ++ [l]) = classify cs init.
Proof.
  intros Hls Hn Hb. unfold classify.
  set (h1 := foldr markRemove (alloc cs) (trailingRefs cs)).
  assert (Hc1 : forall i, contentAt h1 i = cs !! i).
  { intros i. unfold h1. rewrite content_marks. apply contentAt_alloc. }
  assert (Hnd := NoDup_lineRefs cs). rewrite Hls in Hnd.
  apply NoDup_app in Hnd as (Hnd & Hdisj & _).
  assert (Hl : l ∉ init).
  { intros Hl. apply (Hdisj l Hl). left. }
  assert (Hlines : forall j, j ∈ init ->
            exists m, contentAt h1 j = Some m /\ isLine m = true).
  { intros j Hj. rewrite Hc1. apply elem_of_lineRefs. rewrite Hls.
    apply elem_of_app. left. exact Hj. }
  destruct (forEach_total (cleaned cs) init h1 false Hnd Hlines) as (h2 & b2 & Hrun).
  rewrite forEach_app, Hrun.
  change (Some (h2, b2) ≫= forEach (cleaned cs) [l])
    with (forEach (cleaned cs) [l] (h2, b2)).
  rewrite forEach_single.
  destruct (forEach_spec _ _ _ _ _ _ Hnd Hrun) as (_ & _ & Hout & _).
  assert (Hc2 : contentAt h2 l = Some n) by (rewrite (Hout l Hl), Hc1; exact Hn).
  unfold contentAt in Hc2. destruct (h2 !! l) as [o|] eqn:Ho; [|discriminate].
  simpl in Hc2. injection Hc2 as Hc2.
  rewrite (lineStep_eq _ _ _ _ _ Ho), Hc2.
  assert (Hline : isLine n = true).
  { assert (Hin : l ∈ lineRefs cs) by (rewrite Hls; apply elem_of_app; right; left).
    apply elem_of_lineRefs in Hin as (n0 & Hn0 & Hl0). congruence. }
  destruct (lineResult_line b2 n Hline) as (n' & -> & _). simpl.
  destruct (blank_not_marker _ Hb) as (-> & _). rewrite (nextState_blank _ _ Hb).
  f_equal. f_equal.
  rewrite (filterb_ext (kept (setContent l n' h2)) (kept h2))
    by (intros; apply kept_setContent).
  apply omap_ext_in. intros i [Hi _]%elem_of_filterb.
  apply content_setContent_ne. intros <-.
  apply elem_of_cleaned in Hi as [_ Hi]. apply Hi.
  apply (blank_last_trailing cs l n); [rewrite Hls; apply last_snoc | exact Hn | exact Hb].
Qed.

(** What [processCode] returns for a block with a detected marker. *)
Lemma processCode_detected cls cs :
  detects cs = true ->
  processCode cls cs =
  (fun r => (Some (default [] cls ++ [JS.lit "has-spotlights"]), r.1))
    <$> classify cs (lineRefs cs).
Proof.
  intros Hd. unfold processCode, classify. rewrite runCode_eq, Hd. simpl.
  destruct (forEach _ _ _) as [[h2 b2]|]; reflexivity.
Qed.

End Trailing.

(** ** The toggle block *)

Section Toggle.

Import Spotlight.

Lemma lineResult_plain_eq b (n : node) :
  isLine n = true -> textMarked n = false ->
  lineResult b n = Some (classified b n).
Proof.
  intros Hl Hm. destruct (lineResult_line b n Hl) as (n' & Hres & _).
  rewrite Hres. f_equal.
  destruct (lineResult_plain b n n' Hl Hm Hres) as (tag & cl & ch & -> & ->).
  unfold classified. destruct b; simpl; [destruct (isBlank _)|]; reflexivity.
Qed.

Lemma plain_not_markerOnly (n : node) :
  textMarked n = false -> isMarkerOnly (getText n) = false.
Proof.
  intros Hm. destruct (isMarkerOnly (getText n)) eqn:E; [|reflexivity].
  apply isMarkerOnly_marked in E. unfold textMarked in Hm. congruence.
Qed.

Lemma nextState_textMarked b (n : node) :
  textMarked n = false -> nextState b (getText n) = b.
Proof.
  unfold textMarked. intros [H1 H2]%orb_false_iff. apply nextState_plain; assumption.
Qed.

Lemma forEach_step children j (ls : list ref) st :
  forEach children (j :: ls) st = lineStep children st j ≫= forEach children ls.
Proof. reflexivity. Qed.

(** One callback run on a line without markers, and on a marker-only line. *)
Lemma lineStep_plain children (h : store) b j (o : obj) :
  h !! j = Some o -> isLine (content o) = true -> textMarked (content o) = false ->
  lineStep children (h, b) j =
  Some (setContent j (classified b (content o)) h, b).
Proof.
  intros Ho Hl Hm. rewrite (lineStep_eq _ _ _ _ _ Ho).
  rewrite (lineResult_plain_eq _ _ Hl Hm), (plain_not_markerOnly _ Hm),
    (nextState_textMarked _ _ Hm). reflexivity.
Qed.

Lemma lineStep_markerOnly children (h : store) b j (o : obj) :
  h !! j = Some o -> isMarkerOnly (getText (content o)) = true ->
  lineStep children (h, b) j =
  Some (markNewlineAt children (JS.indexOf children j + 1)%Z (markRemove j h),
        nextState b (getText (content o))).
Proof.
  intros Ho Hm. rewrite (lineStep_eq _ _ _ _ _ Ho).
  unfold lineResult. rewrite Hm. reflexivity.
Qed.

Lemma hasClass_classified (b : bool) (n : node) :
  isLine n = true ->
  hasClass (if b then "spotlight" else "dim") (classified b n) = true.
Proof.
  intros (tag & cl & ch & -> & _ & _)%isLine_Element.
  unfold classified, withClass.
  destruct b; [destruct (true && isBlank _)|];
    cbn [setChildren hasClass classIncludes andb];
    rewrite existsb_app; cbn [existsb]; rewrite eqb_refl; apply orb_true_r.
Qed.

Variables (A Sm B C Em D : node).

Hypothesis lineA : isLine A = true.
Hypothesis lineS : isLine Sm = true.
Hypothesis lineB : isLine B = true.
Hypothesis lineC : isLine C = true.
Hypothesis lineE : isLine Em = true.
Hypothesis lineD : isLine D = true.
Hypothesis plainA : textMarked A = false.
Hypothesis plainB : textMarked B = false.
Hypothesis plainC : textMarked C = false.
Hypothesis plainD : textMarked D = false.
Hypothesis startS : JS.trim (getText Sm) = START.
Hypothesis endE : JS.trim (getText Em) = END_.
Hypothesis whole : hasMarker Sm || hasMarker Em = true.
Hypothesis visibleD : isBlank (getText D) = false.

(** C1 (amended). For every code block whose children are, in order, a
    line A without markers, a line whose trimmed text is exactly the start
    marker, lines B and C without markers, a line whose trimmed text is
    exactly the end marker and a line D without markers, each followed by
    a newline text -- where the text of D is not blank and one of the two
    marker lines holds its marker whole in one text value -- the visitor
    takes the two marker lines and the newline behind each out of the
    child list, appends [has-spotlights] to the class array of the code
    element, and leaves A with [dim], B and C with [spotlight] (and the
    placeholder as content when blank) and D with [dim], in that order. *)
Theorem toggle_block cls :
  processCode cls
    [A; newline; Sm; newline; B; newline; C; newline; Em; newline; D; newline] =
  Some (Some (default [] cls ++ [JS.lit "has-spotlights"]),
        [classified false A; newline; classified true B; newline;
         classified true C; newline; classified false D; newline]) /\
  hasClass "dim" (classified false A) = true /\
  hasClass "spotlight" (classified true B) = true /\
  hasClass "spotlight" (classified true C) = true /\
  hasClass "dim" (classified false D) = true.
Proof.
  split;
    [|repeat split;
      first [apply (hasClass_classified false) | apply (hasClass_classified true)];
      assumption].
  set (cs := [A; newline; Sm; newline; B; newline; C; newline; Em; newline; D; newline]).
  assert (Hlines : lineRefs cs = [0; 2; 4; 6; 8; 10]%nat).
  { unfold lineRefs, refsWhere, cs. cbn [alloc map length seq List.filter lookup list_lookup content].
    rewrite lineA, lineS, lineB, lineC, lineE, lineD. reflexivity. }
  assert (Htr : trailingRefs cs = []).
  { unfold trailingRefs. rewrite Hlines.
    change (last [0; 2; 4; 6; 8; 10]%nat) with (Some 10%nat).
    cbv beta iota. change (cs !! 10%nat) with (Some D). cbv beta iota.
    rewrite visibleD. reflexivity. }
  assert (Hdet : detects cs = true).
  { unfold detects, cs. cbn [existsb].
    rewrite lineS, lineE. simpl andb.
    apply orb_true_iff in whole as [-> | ->];
      rewrite ?orb_true_r; reflexivity. }
  assert (Hcl : cleaned cs = seq 0 12).
  { unfold cleaned. rewrite Htr. reflexivity. }
  rewrite (processCode_detected cls cs Hdet). unfold classify.
  rewrite Htr, Hcl, Hlines. cbn [foldr].
  destruct (markerOnly_start _ startS) as (HmS & _ & _).
  destruct (markerOnly_end _ endE) as (HmE & _ & _).
  rewrite forEach_step.
  erewrite lineStep_plain by (try reflexivity; assumption).
  cbn [mbind option_bind content].
  rewrite forEach_step.
  erewrite lineStep_markerOnly by (try reflexivity; assumption).
  cbn [mbind option_bind content]. rewrite (nextState_start_only _ _ startS).
  rewrite forEach_step.
  erewrite lineStep_plain by (try reflexivity; assumption).
  cbn [mbind option_bind content].
  rewrite forEach_step.
  erewrite lineStep_plain by (try reflexivity; assumption).
  cbn [mbind option_bind content].
  rewrite forEach_step.
  erewrite lineStep_markerOnly by (try reflexivity; assumption).
  cbn [mbind option_bind content]. rewrite (nextState_end_only _ _ endE).
  rewrite forEach_step.
  erewrite lineStep_plain by (try reflexivity; assumption).
  cbn [mbind option_bind content].
  reflexivity.
Qed.

End Toggle.

Lemma toggle_block_witness :
  Spotlight.processCode None
    [line "a"; newline; line "// spotlight-start"; newline; line "b"; newline;
     line "c"; newline; line "// spotlight-end"; newline; line "d"; newline] =
  Some (Some [JS.lit "has-spotlights"],
        [lineWith "dim" "a"; newline; lineWith "spotlight" "b"; newline;
         lineWith "spotlight" "c"; newline; lineWith "dim" "d"; newline]).
Proof.
  apply (toggle_block (line "a") (line "// spotlight-start") (line "b")
           (line "c") (line "// spotlight-end") (line "d")); reflexivity.
Defined.

(** C1 as stated fails: when the line D is blank, the trailing cleanup
    takes it out, with the newline in front of it, and the end marker line
    takes the last newline with it. *)
Lemma toggle_block_blank_last :
  isLine emptyLine = true /\ textMarked emptyLine = false /\
  Spotlight.processCode None
    [line "a"; newline; line "// spotlight-start"; newline; line "b"; newline;
     line "c"; newline; line "// spotlight-end"; newline; emptyLine; newline] =
  Some (Some [JS.lit "has-spotlights"],
        [lineWith "dim" "a"; newline; lineWith "spotlight" "b"; newline;
         lineWith "spotlight" "c"; newline]) /\
  Spotlight.processCode None
    [line "a"; newline; line "// spotlight-start"; newline; line "b"; newline;
     line "c"; newline; line "// spotlight-end"; newline; emptyLine; newline] <>
  Some (Some [JS.lit "has-spotlights"],
        [lineWith "dim" "a"; newline; lineWith "spotlight" "b"; newline;
         lineWith "spotlight" "c"; newline; withClass "dim" emptyLine; newline]).
Proof.
  split; [reflexivity|]. split; [reflexivity|]. split; [reflexivity|].
  vm_compute. discriminate.
Qed.

(** The same block is left untouched when both marker lines have their
    marker split over two text values: the detection looks at single text
    values, the classification at the joined text. *)
Lemma toggle_block_split_markers :
  let start := Element (JS.lit "span") (Some [JS.lit "line"])
                 [Text (JS.lit "// spotlight-"); Text (JS.lit "start")] in
  let end_ := Element (JS.lit "span") (Some [JS.lit "line"])
                [Text (JS.lit "// spotlight-"); Text (JS.lit "end")] in
  JS.trim (getText start) = START /\ JS.trim (getText end_) = END_ /\
  Spotlight.processCode None
    [line "a"; newline; start; newline; line "b"; newline;
     line "c"; newline; end_; newline; line "d"; newline] =
  Some (None,
    [line "a"; newline; start; newline; line "b"; newline;
     line "c"; newline; end_; newline; line "d"; newline]).
Proof. repeat split. Qed.

(** ** The claims *)

Section Cleanup.

Import Spotlight.

Implicit Types (cs : list node) (cls : classes) (i j l : ref).

Lemma isNewlineText_eq (m : node) : isNewlineText m = true <-> m = Text NEWLINE.
Proof.
  destruct m as [v|]; simpl; [|split; discriminate].
  rewrite eqb_eq. split; congruence.
Qed.

Lemma no_lines_undetected cs : lineRefs cs = [] -> detects cs = false.
Proof.
  intros H. unfold detects. apply not_true_iff_false.
  intros (n & Hn & [Hl _]%andb_true_iff)%existsb_exists.
  apply list_elem_of_In, list_elem_of_lookup in Hn as [i Hi].
  assert (Hin : i ∈ lineRefs cs) by (apply elem_of_lineRefs; eauto).
  rewrite H in Hin. inversion Hin.
Qed.

Lemma no_lines_trailing cs : lineRefs cs = [] -> trailingRefs cs = [].
Proof. intros H. unfold trailingRefs. rewrite H. reflexivity. Qed.

(** A block without a detected marker: the class array stays, and the
    child list loses the blank last line and the newline before it, and
    nothing else. *)
Lemma cleanup_only cls cs :
  detects cs = false ->
  exists out,
    processCode cls cs = Some (cls, out) /\
    out `sublist_of` cs /\
    ((forall l n, last (lineRefs cs) = Some l -> cs !! l = Some n ->
                  isBlank (getText n) = false) -> out = cs) /\
    (forall l n, last (lineRefs cs) = Some l -> cs !! l = Some n ->
       isBlank (getText n) = true ->
       (forall p, l = S p -> cs !! p = Some (Text NEWLINE) ->
          out = delete p (delete l cs)) /\
       ((forall p, l = S p -> cs !! p <> Some (Text NEWLINE)) ->
          out = delete l cs)).
Proof.
  intros Hd. exists (withoutTrailing cs).
  split; [apply processCode_undetected, Hd|].
  split; [apply pick_sublist|]. split.
  - intros Hnb. apply withoutTrailing_id, trailingRefs_not_blank, Hnb.
  - intros l n. apply withoutTrailing_blank.
Qed.

(** C4 (amended). For every code block in which no line's joined text
    contains either marker, the visitor leaves the class array of the code
    element as it is and returns a child list whose nodes are nodes of the
    input, unchanged and in order (no [has-spotlights], no [spotlight] or
    [dim], nothing added). The list is the input list itself when the last
    line is not blank; when the last line is blank, it is the input list
    with that line deleted, and with the text right before it deleted too
    when that text is a single newline. *)
Theorem unmarked_block_only_cleaned cls cs :
  marked cs = false ->
  exists out,
    processCode cls cs = Some (cls, out) /\
    out `sublist_of` cs /\
    ((forall l n, last (lineRefs cs) = Some l -> cs !! l = Some n ->
                  isBlank (getText n) = false) -> out = cs) /\
    (forall l n, last (lineRefs cs) = Some l -> cs !! l = Some n ->
       isBlank (getText n) = true ->
       (forall p, l = S p -> cs !! p = Some (Text NEWLINE) ->
          out = delete p (delete l cs)) /\
       ((forall p, l = S p -> cs !! p <> Some (Text NEWLINE)) ->
          out = delete l cs)).
Proof. intros Hm. apply cleanup_only, marked_detects, Hm. Qed.

Lemma unmarked_block_only_cleaned_witness :
  marked [line "a"; newline; line "b"; newline; emptyLine] = false /\
  exists out,
    processCode None [line "a"; newline; line "b"; newline; emptyLine]
      = Some (None, out) /\
    out `sublist_of` [line "a"; newline; line "b"; newline; emptyLine] /\
    ((forall l n,
        last (lineRefs [line "a"; newline; line "b"; newline; emptyLine]) = Some l ->
        [line "a"; newline; line "b"; newline; emptyLine] !! l = Some n ->
        isBlank (getText n) = false) ->
     out = [line "a"; newline; line "b"; newline; emptyLine]) /\
    (forall l n,
       last (lineRefs [line "a"; newline; line "b"; newline; emptyLine]) = Some l ->
       [line "a"; newline; line "b"; newline; emptyLine] !! l = Some n ->
       isBlank (getText n) = true ->
       (forall p, l = S p ->
          [line "a"; newline; line "b"; newline; emptyLine] !! p = Some (Text NEWLINE) ->
          out = delete p (delete l [line "a"; newline; line "b"; newline; emptyLine])) /\
       ((forall p, l = S p ->
           [line "a"; newline; line "b"; newline; emptyLine] !! p <> Some (Text NEWLINE)) ->
          out = delete l [line "a"; newline; line "b"; newline; emptyLine])).
Proof.
  split; [reflexivity|].
  apply (unmarked_block_only_cleaned None
           [line "a"; newline; line "b"; newline; emptyLine]).
  reflexivity.
Defined.

(** C4 as stated fails: a block without any marker whose last line is
    blank loses that line and the newline in front of it. *)
Lemma unmarked_block_changed :
  marked [line "a"; newline; emptyLine] = false /\
  processCode None [line "a"; newline; emptyLine] = Some (None, [line "a"]) /\
  processCode None [line "a"; newline; emptyLine]
    <> Some (None, [line "a"; newline; emptyLine]).
Proof.
  split; [reflexivity|]. split; [reflexivity|].
  vm_compute. discriminate.
Qed.

(** C5. For every code block whose last line has a blank text, lines 18
    to 35 take that line out of the child list, and the text right before
    it when that is a single newline, and nothing else, whether or not a
    marker is detected. The children the visitor ends with are among the
    cleaned ones, so neither node is in the output. The classification
    pass gives the same children and the same final state when it runs
    over the other lines only, and the output is what it gives then: the
    removed line has no effect on the state or on any other line. *)
Theorem trailing_blank_line_removed cls cs l (n : node) :
  last (lineRefs cs) = Some l -> cs !! l = Some n ->
  isBlank (getText n) = true ->
  (exists h1,
     markTrailing (seq 0 (length cs)) (lineRefs cs) (alloc cs) = Some h1 /\
     List.filter (kept h1) (seq 0 (length cs)) = cleaned cs) /\
  (forall i, i ∈ cleaned cs <->
     (i < length cs)%nat /\ i <> l /\
     ~ (l = S i /\ cs !! i = Some (Text NEWLINE))) /\
  classify cs (lineRefs cs) = classify cs (removelast (lineRefs cs)) /\
  exists r, runCode cls cs = Some r /\
    (forall i, i ∈ childRefs r -> i ∈ cleaned cs) /\
    (l ∉ childRefs r) /\
    (forall p, l = S p -> cs !! p = Some (Text NEWLINE) -> p ∉ childRefs r) /\
    (detects cs = false ->
       (forall p, l = S p -> cs !! p = Some (Text NEWLINE) ->
          outChildren r = delete p (delete l cs)) /\
       ((forall p, l = S p -> cs !! p <> Some (Text NEWLINE)) ->
          outChildren r = delete l cs)) /\
    (detects cs = true ->
       Some (outChildren r) = fst <$> classify cs (removelast (lineRefs cs))).
Proof.
  intros Hlast Hn Hb.
  destruct (proj1 (last_Some _ _) Hlast) as (init & Hls).
  assert (Hcl : classify cs (lineRefs cs) = classify cs (removelast (lineRefs cs))).
  { rewrite Hls, removelast_last. apply (classify_without_last cs init l n Hls Hn Hb). }
  assert (Hclean : forall i, i ∈ cleaned cs <->
            (i < length cs)%nat /\ i <> l /\
            ~ (l = S i /\ cs !! i = Some (Text NEWLINE))).
  { intros i. rewrite elem_of_cleaned, elem_of_trailingRefs. split.
    + intros [Hi Hnot]. split; [exact Hi|]. split.
      * intros ->. apply Hnot. exists l, n. auto.
      * intros [-> Hnl]. apply Hnot. exists (S i), n.
        repeat split; try assumption. right. split; [reflexivity|].
        exists (Text NEWLINE). split; [exact Hnl | reflexivity].
    + intros (Hi & Hne & Hnl). split; [exact Hi|].
      intros (l' & n' & Hl' & _ & _ & [->|[-> (m & Hm & Hmn)]]).
      * congruence.
      * apply Hnl. split; [congruence|].
        apply isNewlineText_eq in Hmn. congruence. }
  split; [|split; [exact Hclean|split; [exact Hcl|]]].
  - eexists. split; [apply markTrailing_eq|].
    apply filterb_ext. intros i Hi. apply kept_marks.
    apply elem_of_seq in Hi. lia.
  - destruct (runCode_total cls cs) as (r & Hr). exists r.
    split; [exact Hr|].
    assert (Hsub : forall i, i ∈ childRefs r -> i ∈ cleaned cs).
    { rewrite runCode_eq in Hr. simpl in Hr. destruct (detects cs).
      - destruct (forEach _ _ _) as [[h2 b2]|]; [|discriminate].
        simpl in Hr. injection Hr as <-. simpl.
        intros i [Hi _]%elem_of_filterb; exact Hi.
      - injection Hr as <-. simpl. auto. }
    split; [exact Hsub|]. split; [|split; [|split]].
    + intros Hl%Hsub%Hclean. destruct Hl as (_ & Hl & _). congruence.
    + intros p -> Hp Hin%Hsub%Hclean. destruct Hin as (_ & _ & Hin).
      apply Hin. auto.
    + intros Hd. destruct (runCode_undetected cls cs Hd) as (r' & Hr' & _ & Hout).
      rewrite Hr in Hr'. injection Hr' as <-. rewrite Hout.
      apply (withoutTrailing_blank cs l n Hlast Hn Hb).
    + intros Hd. rewrite <- Hcl.
      assert (Hp := processCode_detected cls cs Hd).
      unfold processCode in Hp. rewrite Hr in Hp. simpl in Hp.
      destruct (classify cs (lineRefs cs)) as [[out b]|]; [|discriminate].
      simpl in *. congruence.
Qed.

Lemma trailing_blank_line_removed_witness :
  cleaned [line "// spotlight-start"; newline; line "x"; newline; emptyLine]
    = [0; 1; 2]%nat /\
  processCode None
    [line "// spotlight-start"; newline; line "x"; newline; emptyLine]
    = Some (Some [JS.lit "has-spotlights"], [lineWith "spotlight" "x"]) /\
  classify [line "// spotlight-start"; newline; line "x"; newline; emptyLine]
    (lineRefs [line "// spotlight-start"; newline; line "x"; newline; emptyLine]) =
  classify [line "// spotlight-start"; newline; line "x"; newline; emptyLine]
    (removelast
       (lineRefs [line "// spotlight-start"; newline; line "x"; newline; emptyLine])).
Proof.
  split; [reflexivity|]. split; [reflexivity|].
  apply (trailing_blank_line_removed None
           [line "// spotlight-start"; newline; line "x"; newline; emptyLine]
           4%nat emptyLine); reflexivity.
Defined.

End Cleanup.

Section Classification.

Import Spotlight.

Implicit Types (cs : list node) (cls : classes) (i j k : ref).

Lemma processCode_run cls cs cls' (out : list node) :
  processCode cls cs = Some (cls', out) ->
  exists r, runCode cls cs = Some r /\ codeClass r = cls' /\ outChildren r = out.
Proof.
  unfold processCode. destruct (runCode cls cs) as [r|]; [|discriminate].
  simpl. intros [= <- <-]. eauto.
Qed.

Lemma detected_class cls cs (r : run) :
  detects cs = true -> runCode cls cs = Some r ->
  codeClass r = Some (default [] cls ++ [JS.lit "has-spotlights"]).
Proof.
  intros Hd Hr. destruct (runCode_detected cls cs Hd) as (h2 & Heq & _).
  rewrite Heq in Hr. injection Hr as <-. reflexivity.
Qed.

Lemma hasMarker_classified b (n : node) :
  isLine n = true -> textMarked n = false -> hasMarker (classified b n) = false.
Proof.
  intros (tag & cl & ch & -> & _ & _)%isLine_Element Hm.
  assert (Hn : hasMarker (Element tag (Some cl) ch) = false).
  { apply not_true_iff_false. intros H%hasMarker_getText.
    unfold textMarked in Hm. apply orb_false_iff in Hm. intuition congruence. }
  unfold classified. destruct b; simpl; [destruct (isBlank _)|]; simpl; auto.
Qed.

(** C2 as stated fails: on a line with both markers only the start marker
    is stripped, and the end marker stays in the text value. *)
Lemma marker_text_survives :
  processCode None
    [line "a(); // spotlight-start // spotlight-end"; newline; line "b();"] =
  Some (Some [JS.lit "has-spotlights"],
        [line "a(); // spotlight-end"; newline; lineWith "spotlight" "b();"]) /\
  JS.includes END_ (JS.lit "a(); // spotlight-end") = true.
Proof. split; reflexivity. Qed.

Lemma hasClass_app c (tag : JS.str) (cl : list JS.str) (x : JS.str) (ch : list node) :
  hasClass c (Element tag (Some (cl ++ [x])) ch) =
  hasClass c (Element tag (Some cl) ch) || JS.eqb (JS.lit c) x.
Proof. simpl. rewrite existsb_app. simpl. rewrite orb_false_r. reflexivity. Qed.

(** C3 as stated fails: a line with a marker beside code stays in a block
    tagged [has-spotlights] and carries neither class. *)
Lemma inline_marker_line_unclassified :
  processCode None [line "x // spotlight-start"; newline; line "y"] =
  Some (Some [JS.lit "has-spotlights"],
        [line "x "; newline; lineWith "spotlight" "y"]) /\
  isLine (line "x ") = true /\
  hasClass "spotlight" (line "x ") = false /\
  hasClass "dim" (line "x ") = false.
Proof. repeat split. Qed.

End Classification.

Section Lines.

Import Spotlight.

Implicit Types (cs : list node) (cls : classes) (i j k : ref).

Lemma line_detects cs i (n : node) :
  cs !! i = Some n -> isLine n = true -> hasMarker n = true -> detects cs = true.
Proof.
  intros Hn Hl Hm. unfold detects. apply existsb_exists. exists n.
  split; [apply list_elem_of_In, list_elem_of_lookup; eauto|].
  rewrite Hl, Hm. reflexivity.
Qed.

(** [stateBefore] is the value of [isSpotlighting] when the callback gets
    to the line at [i]: the state the pass has after the lines in front. *)
Lemma state_at_line cs i :
  exists h,
    forEach (cleaned cs) (linesBefore cs i)
      (foldr markRemove (alloc cs) (trailingRefs cs), false)
    = Some (h, stateBefore cs i).
Proof.
  set (h1 := foldr markRemove (alloc cs) (trailingRefs cs)).
  assert (Hc1 : forall j, contentAt h1 j = cs !! j).
  { intros j. unfold h1. rewrite content_marks. apply contentAt_alloc. }
  assert (Hnd : NoDup (linesBefore cs i)) by apply NoDup_filterb, NoDup_seq.
  assert (Hlines : forall j, j ∈ linesBefore cs i ->
            exists m, contentAt h1 j = Some m /\ isLine m = true).
  { intros j [_ Hj]%elem_of_refsWhere. rewrite Hc1. exact Hj. }
  destruct (forEach_total (cleaned cs) _ h1 false Hnd Hlines) as (h & b & Hrun).
  exists h. rewrite Hrun.
  destruct (forEach_spec _ _ _ _ _ _ Hnd Hrun) as (_ & -> & _).
  unfold stateBefore. rewrite (textsOf_ext (alloc cs) h1); [reflexivity|].
  intros j _. rewrite Hc1. symmetry. apply contentAt_alloc.
Qed.

(** A line that the cleanup leaves and that is not marker-only is among the
    children the visitor ends with, holding what the callback made of it. *)
Lemma line_survives cls cs i (n : node) :
  detects cs = true -> cs !! i = Some n -> isLine n = true ->
  isMarkerOnly (getText n) = false ->
  last (lineRefs cs) <> Some i \/ isBlank (getText n) = false ->
  exists r n', runCode cls cs = Some r /\
    codeClass r = Some (default [] cls ++ [JS.lit "has-spotlights"]) /\
    lineResult (stateBefore cs i) n = Some n' /\
    i ∈ childRefs r /\ contentAt (heap r) i = Some n' /\ n' ∈ outChildren r.
Proof.
  intros Hd Hn Hl Hmk Hlast.
  destruct (runCode_detected cls cs Hd) as (h2 & Heq & _ & Hline & _ & Hkept).
  destruct (Hline i n Hn Hl) as (n' & Hres & Hc).
  assert (Htr : i ∉ trailingRefs cs).
  { intros Hi. destruct (line_trailing cs i n Hn Hl Hi) as [H1 H2].
    destruct Hlast as [H|H]; congruence. }
  assert (Hel : isElement n = true) by (destruct n; [discriminate | reflexivity]).
  assert (Hk := Hkept i n Hn Hel Htr (fun _ => Hmk)).
  assert (Hi : i ∈ List.filter (kept h2) (cleaned cs)).
  { apply elem_of_filterb. split; [|exact Hk].
    apply elem_of_cleaned. split; [eapply lookup_lt_Some; eauto | exact Htr]. }
  eexists. exists n'. split; [exact Heq|]. simpl.
  repeat split; try assumption.
  apply elem_of_outChildren. exists i. auto.
Qed.

(** A line with the start marker beside other text, in a block with a
    detected marker: it stays, stripped and with its classes as they were,
    and the lines without markers behind it get [spotlight]. *)
Lemma inline_start_effect cls cs i (n : node) :
  detects cs = true -> cs !! i = Some n -> isLine n = true ->
  isMarkerOnly (getText n) = false ->
  JS.includes START (getText n) = true ->
  exists r,
    runCode cls cs = Some r /\
    codeClass r = Some (default [] cls ++ [JS.lit "has-spotlights"]) /\
    i ∈ childRefs r /\
    contentAt (heap r) i = Some (transformNode START n) /\
    transformNode START n ∈ outChildren r /\
    forall k (m : node),
      (i < k)%nat -> cs !! k = Some m -> isLine m = true ->
      (forall q mq, (i < q <= k)%nat -> cs !! q = Some mq -> isLine mq = true ->
                    textMarked mq = false) ->
      contentAt (heap r) k = Some (classified true m).
Proof.
  intros Hd Hn Hl Hmk Hs.
  assert (Hnb : isBlank (getText n) = false).
  { destruct (isBlank (getText n)) eqn:Hb; [|reflexivity].
    destruct (blank_not_marker _ Hb) as (_ & H & _). congruence. }
  destruct (line_survives cls cs i n Hd Hn Hl Hmk (or_intror Hnb))
    as (r & n' & Hr & Hcls & Hres & Hi & Hc & Hout).
  rewrite lineResult_inline in Hres;
    [|exact Hmk|unfold textMarked; rewrite Hs; reflexivity].
  rewrite Hs in Hres. injection Hres as <-.
  exists r. split; [exact Hr|]. split; [exact Hcls|]. split; [exact Hi|].
  split; [exact Hc|]. split; [exact Hout|].
  intros k m Hik Hk Hlk Hplain.
  destruct (runCode_detected cls cs Hd) as (h2 & Heq & _ & Hline & _).
  rewrite Heq in Hr. injection Hr as <-. simpl.
  destruct (Hline k m Hk Hlk) as (m' & Hres & ->).
  rewrite (stateBefore_after cs i k n Hn Hl Hik) in Hres
    by (intros q mq Hq; apply Hplain; lia).
  assert (Hst : nextState (stateBefore cs i) (getText n) = true).
  { unfold nextState. rewrite Hmk, Hs. reflexivity. }
  rewrite Hst in Hres.
  rewrite (lineResult_plain_eq _ _ Hlk (Hplain k m ltac:(lia) Hk Hlk)) in Hres.
  symmetry. exact Hres.
Qed.

(** C7 (amended). In a block with a detected marker, every line that is
    not the last line of the block, whose text is blank and which the pass
    reaches while [isSpotlighting] is true stays in the child list, with
    [spotlight] appended to its class array and a single text node holding
    a non-breaking space as its only child. (A blank last line is taken
    out by the trailing cleanup instead.) *)
Theorem blank_spotlighted_line_kept cls cs i (n : node) :
  detects cs = true ->
  cs !! i = Some n -> isLine n = true ->
  isBlank (getText n) = true ->
  stateBefore cs i = true ->
  last (lineRefs cs) <> Some i ->
  exists r tag cl ch,
    n = Element tag (Some cl) ch /\
    runCode cls cs = Some r /\
    i ∈ childRefs r /\
    contentAt (heap r) i =
      Some (Element tag (Some (cl ++ [JS.lit "spotlight"])) [Text NBSP]) /\
    Element tag (Some (cl ++ [JS.lit "spotlight"])) [Text NBSP] ∈ outChildren r.
Proof.
  intros Hd Hn Hl Hb Hst Hlast.
  destruct (blank_not_marker _ Hb) as (Hmk & H1 & H2).
  destruct (line_survives cls cs i n Hd Hn Hl Hmk (or_introl Hlast))
    as (r & n' & Hr & _ & Hres & Hi & Hc & Hout).
  assert (Hm : textMarked n = false) by (unfold textMarked; rewrite H1, H2; reflexivity).
  destruct (lineResult_plain _ _ _ Hl Hm Hres) as (tag & cl & ch & -> & ->).
  rewrite Hst, Hb in *. simpl in *.
  exists r, tag, cl, ch. auto.
Qed.

Lemma blank_spotlighted_line_kept_witness :
  exists r tag cl ch,
    emptyLine = Element tag (Some cl) ch /\
    runCode None [line "// spotlight-start"; newline; emptyLine; newline; line "x"]
      = Some r /\
    2%nat ∈ childRefs r /\
    contentAt (heap r) 2 =
      Some (Element tag (Some (cl ++ [JS.lit "spotlight"])) [Text NBSP]) /\
    Element tag (Some (cl ++ [JS.lit "spotlight"])) [Text NBSP] ∈ outChildren r.
Proof.
  apply (blank_spotlighted_line_kept None
           [line "// spotlight-start"; newline; emptyLine; newline; line "x"]
           2%nat emptyLine); try reflexivity.
  vm_compute. discriminate.
Defined.

(** C7 as stated fails: a blank line reached while [isSpotlighting] is
    true is not kept when it is the last line of the block. *)
Lemma blank_spotlighted_last_line_dropped :
  stateBefore [line "// spotlight-start"; newline; line "x"; newline; emptyLine] 4
    = true /\
  isBlank (getText emptyLine) = true /\
  processCode None
    [line "// spotlight-start"; newline; line "x"; newline; emptyLine] =
  Some (Some [JS.lit "has-spotlights"], [lineWith "spotlight" "x"]).
Proof. repeat split. Qed.

(** C6 (amended). For a code block with a line whose joined text is
    [const x = 1; // spotlight-start], the marker being held whole by one
    text value: the line stays in the child list; its text is
    [const x = 1; ] -- the marker is gone, the space in front of the
    marker is not, since only white space behind the marker is stripped;
    its class array is as before, so the pass gives it neither [spotlight]
    nor [dim]; and every later line without a marker, up to the next line
    with one, gets [spotlight]. *)
Theorem inline_start_marker_line cls cs i (n : node) :
  cs !! i = Some n -> isLine n = true ->
  getText n = JS.lit "const x = 1; // spotlight-start" ->
  hasMarker n = true ->
  exists r n',
    runCode cls cs = Some r /\
    codeClass r = Some (default [] cls ++ [JS.lit "has-spotlights"]) /\
    i ∈ childRefs r /\ contentAt (heap r) i = Some n' /\ n' ∈ outChildren r /\
    n' = transformNode START n /\
    getText n' = JS.lit "const x = 1; " /\
    classOf n' = classOf n /\
    forall k (m : node),
      (i < k)%nat -> cs !! k = Some m -> isLine m = true ->
      (forall q mq, (i < q <= k)%nat -> cs !! q = Some mq -> isLine mq = true ->
                    textMarked mq = false) ->
      contentAt (heap r) k = Some (classified true m).
Proof.
  intros Hn Hl Ht Hm.
  assert (Hd := line_detects cs i n Hn Hl Hm).
  assert (Hmk : isMarkerOnly (getText n) = false) by (rewrite Ht; reflexivity).
  assert (Hs : JS.includes START (getText n) = true) by (rewrite Ht; reflexivity).
  assert (He : JS.includes END_ (getText n) = false) by (rewrite Ht; reflexivity).
  destruct (inline_start_effect cls cs i n Hd Hn Hl Hmk Hs)
    as (r & Hr & Hcls & Hi & Hc & Hout & Hnext).
  exists r, (transformNode START n).
  split; [exact Hr|]. split; [exact Hcls|]. split; [exact Hi|].
  split; [exact Hc|]. split; [exact Hout|]. split; [reflexivity|].
  split; [|split; [apply classOf_transformNode | exact Hnext]].
  rewrite getText_leaves, leaves_transformNode.
  apply strip_trailing_marker; [discriminate| |reflexivity|].
  - rewrite <- getText_leaves, Ht. reflexivity.
  - rewrite hasMarker_leaves in Hm.
    apply existsb_exists in Hm as (v & Hv & Hsv).
    apply existsb_exists. exists v. split; [exact Hv|].
    apply orb_true_iff in Hsv as [Hsv|Hev]; [exact Hsv|].
    rewrite getText_leaves in He.
    rewrite (includes_concat END_ v (leaves n) Hv Hev) in He. discriminate.
Qed.

Lemma inline_start_marker_line_witness :
  exists r n',
    runCode None [line "const x = 1; // spotlight-start"; newline; line "y"]
      = Some r /\
    codeClass r = Some (default [] None ++ [JS.lit "has-spotlights"]) /\
    0%nat ∈ childRefs r /\ contentAt (heap r) 0 = Some n' /\
    n' ∈ outChildren r /\
    n' = transformNode START (line "const x = 1; // spotlight-start") /\
    getText n' = JS.lit "const x = 1; " /\
    classOf n' = classOf (line "const x = 1; // spotlight-start") /\
    forall k (m : node),
      (0 < k)%nat ->
      [line "const x = 1; // spotlight-start"; newline; line "y"] !! k = Some m ->
      isLine m = true ->
      (forall q mq, (0 < q <= k)%nat ->
         [line "const x = 1; // spotlight-start"; newline; line "y"] !! q = Some mq ->
         isLine mq = true -> textMarked mq = false) ->
      contentAt (heap r) k = Some (classified true m).
Proof.
  apply (inline_start_marker_line None
           [line "const x = 1; // spotlight-start"; newline; line "y"]
           0%nat (line "const x = 1; // spotlight-start")); reflexivity.
Defined.

(** C6 as stated fails: the text the line is left with is not
    [const x = 1;] but that text followed by the space that stood in front
    of the marker. *)
Lemma inline_start_marker_keeps_space :
  processCode None [line "const x = 1; // spotlight-start"; newline; line "y"] =
  Some (Some [JS.lit "has-spotlights"],
        [line "const x = 1; "; newline; lineWith "spotlight" "y"]) /\
  getText (line "const x = 1; ") <> JS.lit "const x = 1;".
Proof. split; [reflexivity | vm_compute; discriminate]. Qed.

(** C10 (amended). In a block in which a marker is detected (some line has
    a text value that holds a marker whole), a line whose text is not
    marker-only and contains both markers is treated as a start marker.
    It stays at its position in the child list with its class array as it
    was; every text value below it loses its own leftmost start marker
    with the white space behind that, and nothing else, so the stripping
    is per text value and not per line; the end marker is still in the
    line's text. The callback, on any store and in any state, takes the
    start branch on the line and leaves [isSpotlighting] true; the state
    behind the line is true, and the lines without markers that follow,
    up to the next line with a marker, get [spotlight]. *)
Theorem both_markers_start_wins cls cs i (n : node) :
  detects cs = true -> cs !! i = Some n -> isLine n = true ->
  isMarkerOnly (getText n) = false ->
  JS.includes START (getText n) = true ->
  JS.includes END_ (getText n) = true ->
  exists r,
    runCode cls cs = Some r /\
    codeClass r = Some (default [] cls ++ [JS.lit "has-spotlights"]) /\
    i ∈ childRefs r /\
    contentAt (heap r) i = Some (transformNode START n) /\
    transformNode START n ∈ outChildren r /\
    classOf (transformNode START n) = classOf n /\
    leaves (transformNode START n) = map (JS.stripMarker START) (leaves n) /\
    (forall v,
       (JS.includes START v = true ->
        exists u w rest,
          v = u ++ START ++ w ++ rest /\
          JS.stripMarker START v = u ++ rest /\
          forallb JS.isSpace w = true /\
          JS.dropSpaces rest = rest /\
          (forall k, (k < length u)%nat ->
                     JS.startsWith START (drop k v) = false)) /\
       (JS.includes START v = false -> JS.stripMarker START v = v)) /\
    JS.includes END_ (getText (transformNode START n)) = true /\
    (forall (children : list ref) (h : store) (b : bool) (span : ref) (o : obj),
       h !! span = Some o -> content o = n ->
       lineStep children (h, b) span =
         Some (setContent span (transformNode START n) h, true)) /\
    stateBefore cs (S i) = true /\
    forall k (m : node),
      (i < k)%nat -> cs !! k = Some m -> isLine m = true ->
      (forall q mq, (i < q <= k)%nat -> cs !! q = Some mq ->
         isLine mq = true -> textMarked mq = false) ->
      contentAt (heap r) k = Some (classified true m).
Proof.
  intros Hd Hn Hl Hmk Hs He.
  destruct (inline_start_effect cls cs i n Hd Hn Hl Hmk Hs)
    as (r & Hr & Hcls & Hi & Hc & Hout & Hnext).
  exists r. split; [exact Hr|]. split; [exact Hcls|]. split; [exact Hi|].
  split; [exact Hc|]. split; [exact Hout|].
  split; [apply classOf_transformNode|].
  split; [apply leaves_transformNode|].
  split; [intros v; split; [apply stripMarker_first | apply stripMarker_absent]|].
  split; [apply end_survives_node, He|].
  split; [|split; [|exact Hnext]].
  - intros children h b span o Ho Hcontent.
    rewrite (lineStep_eq _ _ _ _ _ Ho), Hcontent.
    rewrite lineResult_inline; [|exact Hmk|unfold textMarked; rewrite Hs; reflexivity].
    rewrite Hs, Hmk. simpl. unfold nextState. rewrite Hmk, Hs. reflexivity.
  - rewrite (stateBefore_after cs i (S i) n Hn Hl (Nat.lt_succ_diag_r i));
      [|intros q mq Hq; lia].
    unfold nextState. rewrite Hmk, Hs. reflexivity.
Qed.

Lemma both_markers_start_wins_witness :
  detects [line "a // spotlight-start // spotlight-end"; newline; line "b"] = true /\
  exists r,
    runCode None [line "a // spotlight-start // spotlight-end"; newline; line "b"]
      = Some r /\
    codeClass r = Some (default [] None ++ [JS.lit "has-spotlights"]) /\
    0%nat ∈ childRefs r /\
    contentAt (heap r) 0
      = Some (transformNode START (line "a // spotlight-start // spotlight-end")) /\
    transformNode START (line "a // spotlight-start // spotlight-end")
      ∈ outChildren r /\
    classOf (transformNode START (line "a // spotlight-start // spotlight-end"))
      = classOf (line "a // spotlight-start // spotlight-end") /\
    leaves (transformNode START (line "a // spotlight-start // spotlight-end"))
      = map (JS.stripMarker START)
          (leaves (line "a // spotlight-start // spotlight-end")) /\
    (forall v,
       (JS.includes START v = true ->
        exists u w rest,
          v = u ++ START ++ w ++ rest /\
          JS.stripMarker START v = u ++ rest /\
          forallb JS.isSpace w = true /\
          JS.dropSpaces rest = rest /\
          (forall k, (k < length u)%nat ->
                     JS.startsWith START (drop k v) = false)) /\
       (JS.includes START v = false -> JS.stripMarker START v = v)) /\
    JS.includes END_
      (getText (transformNode START (line "a // spotlight-start // spotlight-end")))
      = true /\
    (forall (children : list ref) (h : store) (b : bool) (span : ref) (o : obj),
       h !! span = Some o ->
       content o = line "a // spotlight-start // spotlight-end" ->
       lineStep children (h, b) span =
         Some (setContent span
                 (transformNode START (line "a // spotlight-start // spotlight-end"))
                 h, true)) /\
    stateBefore [line "a // spotlight-start // spotlight-end"; newline; line "b"] 1
      = true /\
    forall k (m : node),
      (0 < k)%nat ->
      [line "a // spotlight-start // spotlight-end"; newline; line "b"] !! k = Some m ->
      isLine m = true ->
      (forall q mq, (0 < q <= k)%nat ->
         [line "a // spotlight-start // spotlight-end"; newline; line "b"] !! q
           = Some mq ->
         isLine mq = true -> textMarked mq = false) ->
      contentAt (heap r) k = Some (classified true m).
Proof.
  split; [reflexivity|].
  apply (both_markers_start_wins None
           [line "a // spotlight-start // spotlight-end"; newline; line "b"]
           0%nat (line "a // spotlight-start // spotlight-end"));
    reflexivity.
Defined.

(** C10 as stated fails in two ways. A line with both markers in its
    joined text, none of them whole in a single text value, is not treated
    as a start marker: nothing is detected and the block comes back as it
    was, markers in place, the next line unclassified. And where the pass
    does run, the start marker is taken out of every text value that
    holds one, not only at its first occurrence in the line. *)
Lemma both_markers_split_untouched :
  isMarkerOnly
    (getText (lineOf ["a // spotlight-"; "start // spotlight-"; "end"]%string)) = false /\
  JS.includes START
    (getText (lineOf ["a // spotlight-"; "start // spotlight-"; "end"]%string)) = true /\
  JS.includes END_
    (getText (lineOf ["a // spotlight-"; "start // spotlight-"; "end"]%string)) = true /\
  processCode None
    [lineOf ["a // spotlight-"; "start // spotlight-"; "end"]%string; newline; line "b"]
  = Some (None,
      [lineOf ["a // spotlight-"; "start // spotlight-"; "end"]%string; newline; line "b"]) /\
  annotate
    [block None
       [lineOf ["a // spotlight-"; "start // spotlight-"; "end"]%string; newline; line "b"]]
  = Some
    [block None
       [lineOf ["a // spotlight-"; "start // spotlight-"; "end"]%string; newline; line "b"]] /\
  processCode None
    [lineOf ["a // spotlight-start "; "b // spotlight-start // spotlight-end"]%string;
     newline; line "c"]
  = Some (Some [JS.lit "has-spotlights"],
      [lineOf ["a "; "b // spotlight-end"]%string; newline; lineWith "spotlight" "c"]).
Proof. repeat split. Qed.

End Lines.

Section Totality.

Import Spotlight.

Implicit Types (cs : list node) (cls : classes).

Lemma visitor_no_code (process : classes -> list node -> option (classes * list node))
    (tag : JS.str) cls (children : list node) :
  existsb (hasTag "code") children = false ->
  visitor process (Element tag cls children) = Some (Element tag cls children).
Proof.
  intros H. unfold visitor. destruct (JS.eqb tag (JS.lit "pre")); [|reflexivity].
  destruct (head _) as [codeEl|] eqn:Hh; [|reflexivity]. exfalso.
  apply head_Some_elem_of, elem_of_filterb in Hh as [_ Hc].
  destruct (children !! codeEl) as [c|] eqn:E; [|discriminate].
  apply not_true_iff_false in H. apply H, existsb_exists. exists c.
  split; [apply list_elem_of_In, list_elem_of_lookup; eauto | exact Hc].
Qed.

(** C8 (amended). [annotate] returns on every tree and never throws, and
    so does the visitor on every node. A [pre] without a [code] child is
    returned as it is; a code element without line nodes is left as it is;
    a code element in which no text value of a line holds a marker keeps
    its class array and its children, except that a blank last line, and a
    single newline right before it, are deleted by the trailing cleanup:
    its children are left exactly as they are when the last line is not
    blank. *)
Theorem annotate_total_and_skips :
  (forall tree, exists out, annotate tree = Some out) /\
  (forall n, exists n', visitor processCode n = Some n') /\
  (forall tag cls children,
     existsb (hasTag "code") children = false ->
     visitor processCode (Element tag cls children) =
       Some (Element tag cls children)) /\
  (forall cls cs, lineRefs cs = [] -> processCode cls cs = Some (cls, cs)) /\
  (forall cls cs, detects cs = false ->
     exists out,
       processCode cls cs = Some (cls, out) /\
       out `sublist_of` cs /\
       ((forall l n, last (lineRefs cs) = Some l -> cs !! l = Some n ->
                     isBlank (getText n) = false) -> out = cs) /\
       (forall l n, last (lineRefs cs) = Some l -> cs !! l = Some n ->
          isBlank (getText n) = true ->
          (forall p, l = S p -> cs !! p = Some (Text NEWLINE) ->
             out = delete p (delete l cs)) /\
          ((forall p, l = S p -> cs !! p <> Some (Text NEWLINE)) ->
             out = delete l cs))).
Proof.
  split; [|split; [|split; [|split]]].
  - intros tree. apply annotateWith_total;
      [apply processCode_total | apply processCode_depth].
  - intros [v|tag cls children]; [simpl; eauto|].
    destruct (visitor_total processCode processCode_total processCode_depth
                tag cls children) as (children' & -> & _). eauto.
  - intros tag cls children. apply visitor_no_code.
  - intros cls cs H.
    rewrite (processCode_undetected _ _ (no_lines_undetected cs H)).
    rewrite (withoutTrailing_id cs (no_lines_trailing cs H)). reflexivity.
  - intros cls cs. apply cleanup_only.
Qed.

Lemma annotate_total_and_skips_witness :
  visitor processCode (Element (JS.lit "pre") None [newline; line "a"]) =
    Some (Element (JS.lit "pre") None [newline; line "a"]) /\
  processCode None [newline; Text (JS.lit "// spotlight-start")] =
    Some (None, [newline; Text (JS.lit "// spotlight-start")]).
Proof.
  split.
  - apply (proj1 (proj2 (proj2 annotate_total_and_skips))). reflexivity.
  - apply (proj1 (proj2 (proj2 (proj2 annotate_total_and_skips)))). reflexivity.
Defined.

(** C8 as stated fails: a code element without any marker is changed when
    its last line is blank. *)
Lemma unmarked_container_changed :
  detects [line "a"; newline; emptyLine] = false /\
  marked [line "a"; newline; emptyLine] = false /\
  annotate [block None [line "a"; newline; emptyLine]] =
    Some [block None [line "a"]] /\
  annotate [block None [line "a"; newline; emptyLine]] <>
    Some [block None [line "a"; newline; emptyLine]].
Proof.
  split; [reflexivity|]. split; [reflexivity|]. split; [reflexivity|].
  vm_compute. discriminate.
Qed.

(** C9. The earlier and the current revision are not interchangeable:
    there is a tree on which they return different trees. On a block with
    a start marker line, an empty line and a code line, the earlier
    revision drops the emptied marker line (not its newline) and the
    empty spotlighted line; the current one removes the marker line with
    its newline and keeps the empty line as a placeholder. *)
Theorem revisions_differ :
  exists tree out1 out2,
    tree = [block None [line "// spotlight-start"; newline; emptyLine;
                        newline; line "x"]] /\
    annotateEarlier tree = Some out1 /\
    annotate tree = Some out2 /\
    out1 = [block (Some [JS.lit "has-spotlights"])
              [newline; newline; lineWith "spotlight" "x"]] /\
    out2 = [block (Some [JS.lit "has-spotlights"])
              [Element (JS.lit "span") (Some [JS.lit "line"; JS.lit "spotlight"])
                 [Text NBSP];
               newline; lineWith "spotlight" "x"]] /\
    out1 <> out2.
Proof.
  eexists. eexists. eexists.
  split; [reflexivity|]. split; [vm_compute; reflexivity|].
  split; [vm_compute; reflexivity|]. split; [reflexivity|].
  split; [reflexivity|]. vm_compute. discriminate.
Qed.

End Totality.

(** ** Further properties of the current revision *)

Section Marks.

Import Spotlight.

Implicit Types (h : store) (r i j : ref) (children ls : list ref) (b : bool)
  (cs : list node) (cls : classes).

Lemma flag_markRemove_true r h i :
  flagAt (markRemove r h) i = Some true <->
  flagAt h i = Some true \/ (i = r /\ is_Some (h !! r)).
Proof.
  destruct (decide (r = i)) as [->|Hne].
  - rewrite flag_markRemove_eq. unfold flagAt.
    destruct (h !! i) as [o|]; simpl; split.
    + intros _. right. split; [reflexivity | eauto].
    + reflexivity.
    + discriminate.
    + intros [H|[_ [x Hx]]]; discriminate.
  - rewrite flag_markRemove_ne by exact Hne. split; [auto|].
    intros [H|[-> _]]; [exact H | congruence].
Qed.

(** Which objects are marked after one callback run. *)
Lemma lineStep_marks children h b j h' b' :
  lineStep children (h, b) j = Some (h', b') ->
  exists n, contentAt h j = Some n /\
    forall i, flagAt h' i = Some true <->
      flagAt h i = Some true \/
      (isMarkerOnly (getText n) = true /\
       (i = j \/
        (JS.at_ children (JS.indexOf children j + 1)%Z = Some i /\
         isNewlineText <$> contentAt h i = Some true))).
Proof.
  intros Hstep. destruct (h !! j) as [o|] eqn:Ho;
    [|unfold lineStep in Hstep; rewrite Ho in Hstep; discriminate].
  rewrite (lineStep_eq _ _ _ _ _ Ho) in Hstep.
  destruct (lineResult b (content o)) as [n'|] eqn:Hres; [|discriminate].
  simpl in Hstep. injection Hstep as <- <-.
  exists (content o).
  split; [unfold contentAt; rewrite Ho; reflexivity|].
  intros i. destruct (isMarkerOnly (getText (content o))) eqn:Hm.
  - set (k := (JS.indexOf children j + 1)%Z).
    assert (Hc : forall x, contentAt (markRemove j h) x = contentAt h x)
      by (intros; apply content_markRemove).
    unfold markNewlineAt.
    destruct (JS.at_ children k) as [r|] eqn:Hat.
    + assert (Hcr := Hc r). unfold contentAt in Hcr.
      destruct (markRemove j h !! r) as [p|] eqn:Hp.
      * destruct (h !! r) as [q|] eqn:Hq; [|discriminate].
        simpl in Hcr. injection Hcr as Hcr.
        destruct (isNewlineText (content p)) eqn:Hnl.
        -- rewrite !flag_markRemove_true. rewrite Hp, Ho. split.
           ++ intros [[H|[-> _]]|[-> _]]; [auto|right; auto|].
              right. split; [reflexivity|]. right. split; [reflexivity|].
              unfold contentAt. rewrite Hq. simpl. congruence.
           ++ intros [H|[_ [->|[[= <-] _]]]]; [auto|left; right; eauto|].
              right. eauto.
        -- rewrite flag_markRemove_true, Ho. split.
           ++ intros [H|[-> _]]; auto.
           ++ intros [H|[_ [->|[[= <-] Hn]]]]; [auto|right; eauto|].
              unfold contentAt in Hn. rewrite Hq in Hn. simpl in Hn. congruence.
      * rewrite flag_markRemove_true, Ho. split.
        -- intros [H|[-> _]]; auto.
        -- intros [H|[_ [->|[[= <-] Hn]]]]; [auto|right; eauto|].
           unfold contentAt in Hn. destruct (h !! r); discriminate.
    + rewrite flag_markRemove_true, Ho. split.
      * intros [H|[-> _]]; auto.
      * intros [H|[_ [->|[? _]]]]; [auto|right; eauto|discriminate].
  - rewrite flag_setContent. split; [auto|].
    intros [H|[? _]]; [exact H | discriminate].
Qed.

(** Which objects are marked when the pass is done, for a pass over
    elements. *)
Lemma forEach_marks children ls : forall h b h' b',
  NoDup ls ->
  (forall j, j ∈ ls -> isElement <$> contentAt h j = Some true) ->
  forEach children ls (h, b) = Some (h', b') ->
  forall i, flagAt h' i = Some true <->
    flagAt h i = Some true \/
    exists j n, j ∈ ls /\ contentAt h j = Some n /\
      isMarkerOnly (getText n) = true /\
      (i = j \/
       (JS.at_ children (JS.indexOf children j + 1)%Z = Some i /\
        isNewlineText <$> contentAt h i = Some true)).
Proof.
  induction ls as [|j ls IH]; intros h b h' b' Hnd Hel Hrun i.
  - simpl in Hrun. injection Hrun as <- <-. split; [auto|].
    intros [H|(j & n & Hj & _)]; [exact H | inversion Hj].
  - rewrite forEach_step in Hrun.
    destruct (lineStep children (h, b) j) as [[h1 b1]|] eqn:Hstep;
      simpl in Hrun; [|discriminate Hrun].
    apply NoDup_cons in Hnd as [Hj Hnd].
    destruct (lineStep_marks _ _ _ _ _ _ Hstep) as (n & Hn & Hm1).
    destruct (lineStep_effect _ _ _ _ _ _ Hstep)
      as (n0 & n' & Hn0 & Hres & _ & _ & Hn' & Hoth & _).
    rewrite Hn in Hn0. injection Hn0 as <-.
    assert (Hsame : forall x, x ∈ ls -> contentAt h1 x = contentAt h x).
    { intros x Hx. apply Hoth. intros ->. contradiction. }
    assert (Hnl : forall x, isNewlineText <$> contentAt h1 x = Some true <->
                            isNewlineText <$> contentAt h x = Some true).
    { intros x. destruct (decide (x = j)) as [->|Hne]; [|rewrite (Hoth x Hne); reflexivity].
      assert (He := Hel j (list_elem_of_here _ _)). rewrite Hn in He.
      rewrite Hn', Hn. simpl in *.
      assert (He' := isElement_lineResult _ _ _ Hres).
      destruct n as [v|]; [discriminate|]. destruct n' as [v|]; [discriminate|].
      simpl. split; discriminate. }
    assert (Hel1 : forall x, x ∈ ls -> isElement <$> contentAt h1 x = Some true).
    { intros x Hx. rewrite (Hsame x Hx). apply Hel. right. exact Hx. }
    rewrite (IH _ _ _ _ Hnd Hel1 Hrun i), Hm1. split.
    + intros [[H|[Hmk H]]|(x & m & Hx & Hcx & Hmx & H)].
      * left. exact H.
      * right. exists j, n. split; [left|]. auto.
      * right. exists x, m. split; [right; exact Hx|].
        rewrite <- (Hsame x Hx). split; [exact Hcx|]. split; [exact Hmx|].
        destruct H as [H|[H1 H2]]; [auto|]. right. split; [exact H1|].
        apply Hnl, H2.
    + intros [H|(x & m & Hx & Hcx & Hmx & H)]; [auto|].
      apply elem_of_cons in Hx as [->|Hx].
      * left. right. rewrite Hn in Hcx. injection Hcx as <-. auto.
      * right. exists x, m. split; [exact Hx|].
        rewrite (Hsame x Hx). split; [exact Hcx|]. split; [exact Hmx|].
        destruct H as [H|[H1 H2]]; [auto|]. right. split; [exact H1|].
        apply Hnl, H2.
Qed.

End Marks.

Section Removal.

Import Spotlight.

Implicit Types (h : store) (r i j : ref) (cs : list node) (cls : classes).

Lemma indexOf_app_here (pre rest : list ref) j :
  j ∉ pre -> JS.indexOf (pre ++ j :: rest) j = Z.of_nat (length pre).
Proof.
  induction pre as [|x pre IH]; intros Hj; simpl.
  - rewrite Nat.eqb_refl. reflexivity.
  - apply not_elem_of_cons in Hj as [Hne Hj].
    destruct (Nat.eqb_spec x j) as [E|_]; [congruence|].
    rewrite (IH Hj). destruct (Z.ltb_spec (Z.of_nat (length pre)) 0); lia.
Qed.

(** [xs[xs.indexOf(j) + 1]] is the element right behind [j]. *)
Lemma at_after (xs : list ref) j i :
  NoDup xs -> j ∈ xs ->
  (JS.at_ xs (JS.indexOf xs j + 1)%Z = Some i <->
   exists pre post, xs = pre ++ j :: i :: post).
Proof.
  intros Hnd Hj. apply list_elem_of_split_l in Hj as (pre & rest & -> & Hpre).
  rewrite (indexOf_app_here pre rest j Hpre). unfold JS.at_.
  destruct (Z.ltb_spec (Z.of_nat (length pre) + 1) 0); [lia|].
  replace (Z.to_nat (Z.of_nat (length pre) + 1)) with (length pre + 1)%nat by lia.
  rewrite lookup_app_r by lia.
  replace (length pre + 1 - length pre)%nat with 1%nat by lia. simpl. split.
  - intros Hr. destruct rest as [|x rest]; [discriminate|].
    simpl in Hr. injection Hr as ->. eauto.
  - intros (pre' & post & Heq).
    assert (pre' = pre /\ i :: post = rest) as [_ <-]; [|reflexivity].
    apply NoDup_app in Hnd as (_ & Hdis & Hnd). apply NoDup_cons in Hnd as [Hjr _].
    clear -Heq Hpre Hjr. revert pre' Heq.
    induction pre as [|x pre IH]; intros [|y pre'] Heq; simpl in Heq.
    + injection Heq as <-. auto.
    + injection Heq as -> ->. exfalso. apply Hjr.
      apply elem_of_app. right. left.
    + injection Heq as -> Heq. exfalso. apply Hpre. left.
    + injection Heq as -> Heq. apply not_elem_of_cons in Hpre as [_ Hpre].
      destruct (IH Hpre pre' Heq) as [-> H]. auto.
Qed.

Lemma NoDup_cleaned cs : NoDup (cleaned cs).
Proof. apply NoDup_filterb, NoDup_seq. Qed.

Lemma markerOnlyAt_spec cs i :
  markerOnlyAt cs i = true <->
  exists n, cs !! i = Some n /\ isLine n = true /\ isMarkerOnly (getText n) = true.
Proof.
  unfold markerOnlyAt. destruct (cs !! i) as [n|]; split.
  - intros [H1 H2]%andb_true_iff. eauto.
  - intros (m & [= <-] & H1 & H2). rewrite H1, H2. reflexivity.
  - discriminate.
  - intros (m & ? & _). discriminate.
Qed.

(** A marker-only line is never what the trailing cleanup takes out. *)
Lemma markerOnly_cleaned cs j :
  markerOnlyAt cs j = true -> j ∈ cleaned cs.
Proof.
  intros (n & Hn & Hl & Hm)%markerOnlyAt_spec. apply elem_of_cleaned.
  split; [eapply lookup_lt_Some; eauto|].
  intros Hj. destruct (line_trailing cs j n Hn Hl Hj) as [_ Hb].
  destruct (blank_not_marker _ Hb) as (H & _). congruence.
Qed.

(** The marks of the run on a block with a detected marker. *)
Lemma runCode_marks cls cs :
  detects cs = true ->
  exists h2,
    runCode cls cs =
      Some (Run (Some (default [] cls ++ [JS.lit "has-spotlights"])) h2
                (List.filter (kept h2) (cleaned cs))) /\
    forall i, (i < length cs)%nat ->
      (kept h2 i = false <->
       i ∈ trailingRefs cs \/ markerOnlyAt cs i = true \/
       (cs !! i = Some (Text NEWLINE) /\
        exists j pre post, markerOnlyAt cs j = true /\
          cleaned cs = pre ++ j :: i :: post)).
Proof.
  intros Hd. rewrite runCode_eq, Hd. simpl.
  set (h1 := foldr markRemove (alloc cs) (trailingRefs cs)).
  assert (Hc1 : forall i, contentAt h1 i = cs !! i).
  { intros i. unfold h1. rewrite content_marks. apply contentAt_alloc. }
  assert (Hlines : forall j, j ∈ lineRefs cs ->
            exists n, contentAt h1 j = Some n /\ isLine n = true).
  { intros j (n & Hn & Hl)%elem_of_lineRefs. exists n. rewrite Hc1. auto. }
  destruct (forEach_total (cleaned cs) (lineRefs cs) h1 false
              (NoDup_lineRefs cs) Hlines) as (h2 & b2 & Hrun).
  rewrite Hrun. simpl. exists h2. split; [reflexivity|].
  assert (Hel : forall j, j ∈ lineRefs cs -> isElement <$> contentAt h1 j = Some true).
  { intros j Hj. destruct (Hlines j Hj) as (n & -> & Hl). simpl.
    destruct n; [discriminate | reflexivity]. }
  assert (Hm := forEach_marks _ _ _ _ _ _ (NoDup_lineRefs cs) Hel Hrun).
  destruct (forEach_spec _ _ _ _ _ _ (NoDup_lineRefs cs) Hrun) as (Hlen & _).
  intros i Hi.
  assert (Hk : kept h2 i = false <-> flagAt h2 i = Some true).
  { rewrite kept_flagAt. unfold flagAt.
    destruct (lookup_lt_is_Some_2 h2 i) as [o Ho].
    { rewrite Hlen. unfold h1. rewrite length_marks. unfold alloc.
      rewrite length_map. exact Hi. }
    rewrite Ho. simpl. destruct (shouldRemove o); simpl; split;
      first [reflexivity | discriminate]. }
  rewrite Hk, Hm.
  assert (Hf1 : flagAt h1 i = Some true <-> i ∈ trailingRefs cs).
  { unfold h1. rewrite flag_marks.
    destruct (lookup_lt_is_Some_2 cs i Hi) as [n ->]. simpl. split.
    - intros [= H]. apply existsb_exists in H as (x & Hx & ->%Nat.eqb_eq).
      apply list_elem_of_In, Hx.
    - intros H. f_equal. apply existsb_exists. exists i.
      split; [apply list_elem_of_In, H | apply Nat.eqb_refl]. }
  rewrite Hf1. split.
  - intros [H|(j & n & Hj & Hn & Hmk & H)]; [auto|]. right.
    rewrite Hc1 in Hn. apply elem_of_lineRefs in Hj as (n0 & Hn0 & Hl).
    rewrite Hn in Hn0. injection Hn0 as <-.
    assert (Hmo : markerOnlyAt cs j = true) by (apply markerOnlyAt_spec; eauto).
    destruct H as [->|[Hat Hnl]]; [auto|]. right.
    rewrite Hc1 in Hnl. split.
    + destruct (cs !! i) as [m|]; [|discriminate]. simpl in Hnl.
      injection Hnl as Hnl. apply isNewlineText_eq in Hnl. congruence.
    + apply (at_after _ _ _ (NoDup_cleaned cs) (markerOnly_cleaned cs j Hmo)) in Hat
        as (pre & post & Heq). eauto.
  - intros [H|[H|(Hnl & j & pre & post & Hmo & Heq)]]; [auto| |].
    + right. apply markerOnlyAt_spec in H as (n & Hn & Hl & Hmk).
      exists i, n. split; [apply elem_of_lineRefs; eauto|].
      rewrite Hc1. auto.
    + right. assert (Hmo' := Hmo).
      apply markerOnlyAt_spec in Hmo as (n & Hn & Hl & Hmk).
      exists j, n. split; [apply elem_of_lineRefs; eauto|].
      rewrite Hc1. split; [exact Hn|]. split; [exact Hmk|]. right. split.
      * apply (at_after _ _ _ (NoDup_cleaned cs) (markerOnly_cleaned cs j Hmo')). eauto.
      * rewrite Hc1, Hnl. reflexivity.
Qed.

End Removal.

(** ** Properties beyond the claims: the current revision *)

Section Frame.

Import Spotlight.

Implicit Types (h : store) (i j k : ref) (cs : list node) (cls : classes).

(** X1. In a block with a detected marker the pass takes out, besides what the
    trailing cleanup took, exactly the marker-only lines and every single
    newline text that stands right behind a marker-only line in the
    cleaned child list. *)
Theorem pass_removes_exactly cls cs :
  detects cs = true ->
  exists r, runCode cls cs = Some r /\
    forall i, i ∈ childRefs r <->
      (i < length cs)%nat /\ (i ∉ trailingRefs cs) /\
      markerOnlyAt cs i = false /\
      ~ (cs !! i = Some (Text NEWLINE) /\
         exists j pre post, markerOnlyAt cs j = true /\
           cleaned cs = pre ++ j :: i :: post).
Proof.
  intros Hd. destruct (runCode_marks cls cs Hd) as (h2 & Heq & Hk).
  eexists. split; [exact Heq|]. simpl. intros i.
  rewrite elem_of_filterb, elem_of_cleaned. split.
  - intros [[Hi Htr] Hkept]. split; [exact Hi|]. split; [exact Htr|].
    assert (Hno : ~ (kept h2 i = false)) by congruence.
    rewrite (Hk i Hi) in Hno. split.
    + destruct (markerOnlyAt cs i); [exfalso; auto | reflexivity].
    + intros H. apply Hno. auto.
  - intros (Hi & Htr & Hmo & Hnl). split; [auto|].
    destruct (kept h2 i) eqn:E; [reflexivity|]. exfalso.
    apply (Hk i Hi) in E as [H|[H|H]]; [auto|congruence|auto].
Qed.

Lemma pass_removes_exactly_witness :
  detects [line "a"; newline; line "// spotlight-end"; newline; line "b"] = true /\
  exists r,
    runCode None [line "a"; newline; line "// spotlight-end"; newline; line "b"]
      = Some r /\
    forall i, i ∈ childRefs r <->
      (i < length [line "a"; newline; line "// spotlight-end"; newline; line "b"])%nat /\
      (i ∉ trailingRefs [line "a"; newline; line "// spotlight-end"; newline; line "b"]) /\
      markerOnlyAt [line "a"; newline; line "// spotlight-end"; newline; line "b"] i
        = false /\
      ~ ([line "a"; newline; line "// spotlight-end"; newline; line "b"] !! i
           = Some (Text NEWLINE) /\
         exists j pre post,
           markerOnlyAt [line "a"; newline; line "// spotlight-end"; newline; line "b"] j
             = true /\
           cleaned [line "a"; newline; line "// spotlight-end"; newline; line "b"]
             = pre ++ j :: i :: post).
Proof.
  split; [reflexivity|].
  apply (pass_removes_exactly None
           [line "a"; newline; line "// spotlight-end"; newline; line "b"]).
  reflexivity.
Defined.

Lemma trailingRefs_kind cs i (n : node) :
  cs !! i = Some n -> i ∈ trailingRefs cs ->
  isLine n = true \/ n = Text NEWLINE.
Proof.
  intros Hn (l & m & Hlast & Hm & _ & [->|[-> (m' & Hm' & Hnl)]])%elem_of_trailingRefs.
  - left. apply last_Some_elem_of, elem_of_lineRefs in Hlast as (n0 & Hn0 & Hl).
    congruence.
  - right. apply isNewlineText_eq in Hnl. congruence.
Qed.

(** X2. A child of the code element that is neither a line nor a single
    newline text is never removed and never changed, with or without
    markers. *)
Theorem other_children_untouched cls cs i (n : node) :
  cs !! i = Some n -> isLine n = false -> n <> Text NEWLINE ->
  exists r, runCode cls cs = Some r /\
    i ∈ childRefs r /\ contentAt (heap r) i = Some n /\ n ∈ outChildren r.
Proof.
  intros Hn Hl Hnl.
  assert (Hi : (i < length cs)%nat) by (eapply lookup_lt_Some; eauto).
  assert (Htr : i ∉ trailingRefs cs).
  { intros H. destruct (trailingRefs_kind cs i n Hn H); congruence. }
  assert (Hnot : i ∉ lineRefs cs).
  { intros (m & Hm & Hlm)%elem_of_lineRefs. congruence. }
  destruct (detects cs) eqn:Hd.
  - destruct (runCode_marks cls cs Hd) as (h2 & Heq & Hk).
    destruct (runCode_detected cls cs Hd) as (h2' & Heq' & Hother & _).
    rewrite Heq in Heq'. injection Heq' as <-.
    eexists. split; [exact Heq|]. simpl.
    assert (Hin : i ∈ List.filter (kept h2) (cleaned cs)).
    { apply elem_of_filterb. split; [apply elem_of_cleaned; auto|].
      destruct (kept h2 i) eqn:E; [reflexivity|]. exfalso.
      apply (Hk i Hi) in E as [Ha|[Hb|[Hc _]]]; [auto| |congruence].
      apply markerOnlyAt_spec in Hb as (m & Hm & Hlm & _). congruence. }
    assert (Hc : contentAt h2 i = Some n) by (rewrite (Hother i Hnot); exact Hn).
    split; [exact Hin|]. split; [exact Hc|].
    apply elem_of_outChildren. exists i. auto.
  - assert (Hr := runCode_eq cls cs). rewrite Hd in Hr. simpl in Hr.
    eexists. split; [exact Hr|]. simpl.
    assert (Hc : contentAt (foldr markRemove (alloc cs) (trailingRefs cs)) i = Some n)
      by (rewrite content_marks, contentAt_alloc; exact Hn).
    assert (Hin : i ∈ cleaned cs) by (apply elem_of_cleaned; auto).
    split; [exact Hin|]. split; [exact Hc|].
    apply elem_of_outChildren. exists i. auto.
Qed.

Lemma other_children_untouched_witness :
  exists r,
    runCode None
      [line "// spotlight-start"; Text (JS.lit "  "); Element (JS.lit "br") None []]
      = Some r /\
    1%nat ∈ childRefs r /\
    contentAt (heap r) 1 = Some (Text (JS.lit "  ")) /\
    Text (JS.lit "  ") ∈ outChildren r.
Proof.
  apply (other_children_untouched None
           [line "// spotlight-start"; Text (JS.lit "  "); Element (JS.lit "br") None []]
           1%nat (Text (JS.lit "  "))); [reflexivity | reflexivity |].
  vm_compute. discriminate.
Defined.

Lemma filterb_sublist {A} (f : A -> bool) (xs : list A) :
  List.filter f xs `sublist_of` xs.
Proof.
  induction xs as [|x xs IH]; [constructor|]. simpl.
  destruct (f x); [apply sublist_skip | apply sublist_cons]; exact IH.
Qed.

Lemma omap_total {A B} (f : A -> option B) (xs : list A) :
  (forall x, x ∈ xs -> is_Some (f x)) ->
  Forall2 (fun x y => f x = Some y) xs (omap f xs).
Proof.
  induction xs as [|x xs IH]; intros H; [constructor|].
  rewrite omap_step. destruct (H x (list_elem_of_here _ _)) as [y Hy].
  rewrite Hy. constructor; [exact Hy|]. apply IH.
  intros z Hz. apply H. right. exact Hz.
Qed.

(** X3. The block transform never throws, never adds a child and never
    reorders children: the child list it leaves is, position by position,
    a selection of the input positions in their order; a child that is no line is the input child;
    a line is the input line as the callback of the pass left it (and the
    input line itself when no marker is detected). The code element gets
    [has-spotlights] exactly when a marker is detected. *)
Theorem children_order_kept cls cs :
  exists r, runCode cls cs = Some r /\
    codeClass r =
      (if detects cs then Some (default [] cls ++ [JS.lit "has-spotlights"])
       else cls) /\
    childRefs r `sublist_of` seq 0 (length cs) /\
    Forall2 (fun i n' => contentAt (heap r) i = Some n')
      (childRefs r) (outChildren r) /\
    forall i, i ∈ childRefs r ->
      exists n n', cs !! i = Some n /\ contentAt (heap r) i = Some n' /\
        (isLine n = false -> n' = n) /\
        (isLine n = true ->
           isLine n' = true /\
           (detects cs = false -> n' = n) /\
           (detects cs = true -> lineResult (stateBefore cs i) n = Some n')).
Proof.
  assert (Hsub : cleaned cs `sublist_of` seq 0 (length cs)) by apply filterb_sublist.
  destruct (detects cs) eqn:Hd.
  - destruct (runCode_detected cls cs Hd) as (h2 & Heq & Hother & Hline & _).
    eexists. split; [exact Heq|]. simpl. split; [reflexivity|].
    assert (Hprov : forall i, i ∈ List.filter (kept h2) (cleaned cs) ->
      exists n n', cs !! i = Some n /\ contentAt h2 i = Some n' /\
        (isLine n = false -> n' = n) /\
        (isLine n = true ->
           isLine n' = true /\ (true = false -> n' = n) /\
           (true = true -> lineResult (stateBefore cs i) n = Some n'))).
    { intros i [[Hi _]%elem_of_cleaned _]%elem_of_filterb.
      destruct (lookup_lt_is_Some_2 cs i Hi) as [n Hn].
      destruct (isLine n) eqn:Hl.
      - destruct (Hline i n Hn Hl) as (n' & Hres & Hc).
        exists n, n'. split; [exact Hn|]. split; [exact Hc|].
        split; [congruence|]. intros _.
        destruct (lineResult_line (stateBefore cs i) n Hl) as (m & Hm & Hlm).
        rewrite Hres in Hm. injection Hm as <-.
        split; [exact Hlm|]. split; [congruence | auto].
      - exists n, n. split; [exact Hn|]. split.
        + rewrite Hother; [exact Hn|].
          intros (m & Hm & Hlm)%elem_of_lineRefs. congruence.
        + split; [reflexivity | congruence]. }
    split; [etransitivity; [apply filterb_sublist | exact Hsub]|].
    split; [|exact Hprov].
    rewrite outChildren_eq. simpl. apply (omap_total (contentAt h2)). intros i Hi.
    destruct (Hprov i Hi) as (n & n' & _ & -> & _). eauto.
  - assert (Hr := runCode_eq cls cs). rewrite Hd in Hr. simpl in Hr.
    eexists. split; [exact Hr|]. simpl. split; [reflexivity|].
    split; [exact Hsub|].
    assert (Hc : forall i, contentAt (foldr markRemove (alloc cs) (trailingRefs cs)) i
                           = cs !! i)
      by (intros i; rewrite content_marks; apply contentAt_alloc).
    split.
    + rewrite outChildren_eq. simpl.
      apply (omap_total (contentAt (foldr markRemove (alloc cs) (trailingRefs cs)))).
      intros i [Hi _]%elem_of_cleaned. rewrite Hc.
      apply lookup_lt_is_Some_2, Hi.
    + intros i [Hi _]%elem_of_cleaned.
      destruct (lookup_lt_is_Some_2 cs i Hi) as [n Hn].
      exists n, n. rewrite Hc. split; [exact Hn|]. split; [exact Hn|].
      split; [reflexivity|]. intros Hl. split; [exact Hl|].
      split; [reflexivity | congruence].
Qed.

End Frame.

Section Rule.

Import Spotlight.

Implicit Types (h : store) (i j k : ref) (cs : list node) (cls : classes).

Lemma markerOnly_end_no_start (s : JS.str) :
  JS.trim s = END_ -> JS.includes START s = false.
Proof.
  intros H. destruct (markerOnly_end s H) as (_ & _ & Hno).
  destruct (JS.includes START s) eqn:E; [|reflexivity].
  apply includes_spec in E as (l & r & ->).
  rewrite <- Hno. symmetry. apply includes_spec.
  exists (l ++ JS.lit "// "), r. rewrite <- app_assoc. reflexivity.
Qed.

Lemma nextState_marked b (s : JS.str) :
  JS.includes START s || JS.includes END_ s = true ->
  nextState b s = JS.includes START s.
Proof.
  intros Hm. unfold nextState. destruct (isMarkerOnly s) eqn:Ho.
  - apply isMarkerOnly_cases in Ho as [Ho|Ho].
    + destruct (markerOnly_start s Ho) as (_ & -> & ->). reflexivity.
    + destruct (markerOnly_end s Ho) as (_ & _ & ->).
      rewrite (markerOnly_end_no_start s Ho). reflexivity.
  - destruct (JS.includes START s); [reflexivity|].
    simpl in Hm. rewrite Hm. reflexivity.
Qed.

(** X4. Whatever branch of the callback a line with a marker in its text
    takes (marker-only with its test for [spotlight-start], inline start,
    inline end), the callback succeeds and leaves [isSpotlighting] true
    exactly when the text holds the start marker; the value it had before
    plays no part. *)
Theorem marker_line_sets_state (children : list ref) h (b : bool) j (o : obj) :
  h !! j = Some o -> isLine (content o) = true ->
  textMarked (content o) = true ->
  exists h', lineStep children (h, b) j =
             Some (h', JS.includes START (getText (content o))).
Proof.
  intros Ho Hl Hm. rewrite (lineStep_eq children h b j o Ho).
  destruct (lineResult_line b (content o) Hl) as (n' & -> & _).
  cbn [mbind option_bind]. rewrite (nextState_marked b _ Hm). eauto.
Qed.

Lemma marker_line_sets_state_witness :
  exists h', lineStep [0%nat] (alloc [line "  // spotlight-end "], true) 0%nat =
             Some (h', JS.includes START (getText (line "  // spotlight-end "))).
Proof.
  apply (marker_line_sets_state [0%nat] (alloc [line "  // spotlight-end "]) true
           0%nat (Obj (line "  // spotlight-end ") false));
    reflexivity.
Defined.

(** X5. In a block with a detected marker a line without a marker in its text
    (when it is not a blank last line, which the cleanup removes) is kept
    and classified by the nearest line before it with a marker in its
    text: [spotlight] when that text holds the start marker, [dim] when
    it does not, and [dim] when no such line comes before it. *)
Theorem classification_rule cls cs k (m : node) :
  detects cs = true -> cs !! k = Some m -> isLine m = true ->
  textMarked m = false ->
  last (lineRefs cs) <> Some k \/ isBlank (getText m) = false ->
  exists r, runCode cls cs = Some r /\ k ∈ childRefs r /\
    (forall i n, (i < k)%nat -> cs !! i = Some n -> isLine n = true ->
       textMarked n = true ->
       (forall q mq, (i < q < k)%nat -> cs !! q = Some mq -> isLine mq = true ->
          textMarked mq = false) ->
       contentAt (heap r) k =
         Some (classified (JS.includes START (getText n)) m)) /\
    ((forall q mq, (q < k)%nat -> cs !! q = Some mq -> isLine mq = true ->
        textMarked mq = false) ->
     contentAt (heap r) k = Some (classified false m)).
Proof.
  intros Hd Hk Hl Hm Hlast.
  destruct (line_survives cls cs k m Hd Hk Hl (plain_not_markerOnly m Hm) Hlast)
    as (r & n' & Hr & _ & Hres & Hin & Hc & _).
  rewrite (lineResult_plain_eq _ m Hl Hm) in Hres. injection Hres as <-.
  exists r. split; [exact Hr|]. split; [exact Hin|]. split.
  - intros i n Hik Hn Hln Hmn Hbetween.
    rewrite (stateBefore_after cs i k n Hn Hln Hik Hbetween) in Hc.
    rewrite (nextState_marked _ _ Hmn) in Hc. exact Hc.
  - intros Hfirst. rewrite (stateBefore_first cs k Hfirst) in Hc. exact Hc.
Qed.

Lemma classification_rule_witness :
  exists r,
    runCode None [line "f(); // spotlight-start"; newline; line "g();"] = Some r /\
    2%nat ∈ childRefs r /\
    (forall i n, (i < 2)%nat ->
       [line "f(); // spotlight-start"; newline; line "g();"] !! i = Some n ->
       isLine n = true -> textMarked n = true ->
       (forall q mq, (i < q < 2)%nat ->
          [line "f(); // spotlight-start"; newline; line "g();"] !! q = Some mq ->
          isLine mq = true -> textMarked mq = false) ->
       contentAt (heap r) 2 =
         Some (classified (JS.includes START (getText n)) (line "g();"))) /\
    ((forall q mq, (q < 2)%nat ->
        [line "f(); // spotlight-start"; newline; line "g();"] !! q = Some mq ->
        isLine mq = true -> textMarked mq = false) ->
     contentAt (heap r) 2 = Some (classified false (line "g();"))).
Proof.
  apply (classification_rule None
           [line "f(); // spotlight-start"; newline; line "g();"] 2%nat (line "g();"));
    try reflexivity.
  right. reflexivity.
Defined.

End Rule.

(** ** Properties beyond the claims: the visitor and the walk *)

Section Tree.

Lemma head_filter_seq (f : nat -> bool) (n : nat) : forall a i,
  head (List.filter f (seq a n)) = Some i ->
  f i = true /\ (a <= i < a + n)%nat /\
  forall k, (a <= k < i)%nat -> f k = false.
Proof.
  induction n as [|n IH]; intros a i H; [discriminate H|].
  simpl in H. destruct (f a) eqn:Ha.
  - injection H as <-. split; [exact Ha|]. split; [lia|]. intros k Hk. lia.
  - destruct (IH (S a) i H) as (Hf & Hi & Hk). split; [exact Hf|].
    split; [lia|]. intros k Hlt.
    destruct (decide (k = a)) as [->|Hne]; [exact Ha|]. apply Hk. lia.
Qed.

(** [codeIndex] is the first position of a child with the tag [code]. *)
Lemma codeIndex_spec (children : list node) (i : nat) :
  codeIndex children = Some i ->
  (exists ctag ccls cch, children !! i = Some (Element ctag ccls cch) /\
                         ctag = JS.lit "code") /\
  forall k c, (k < i)%nat -> children !! k = Some c -> hasTag "code" c = false.
Proof.
  intros H. apply head_filter_seq in H as (Hf & _ & Hk). split.
  - destruct (children !! i) as [[v|ctag ccls cch]|]; try discriminate Hf.
    exists ctag, ccls, cch. split; [reflexivity|]. apply eqb_eq, Hf.
  - intros k c Hlt Hc. specialize (Hk k ltac:(lia)). rewrite Hc in Hk. exact Hk.
Qed.

Section AnyProcess.

Variable process : classes -> list node -> option (classes * list node).

(** X6. The visitor changes nothing but the code element of a [pre]: a node
    that is no [pre] element is returned as it is; a [pre] keeps its tag,
    its classes, the number of its children and every child except its
    first child with the tag [code] (a second [code] child included);
    that child keeps its tag and gets the classes and the children the
    block transform returns for its own. *)
Theorem visitor_frame (n n' : node) :
  visitor process n = Some n' ->
  (hasTag "pre" n = false -> n' = n) /\
  forall tag cls children, n = Element tag cls children ->
    exists children',
      n' = Element tag cls children' /\
      length children' = length children /\
      (forall i, codeIndex children <> Some i -> children' !! i = children !! i) /\
      (forall i, hasTag "pre" n = true -> codeIndex children = Some i ->
         exists ccls cch ccls' cch',
           children !! i = Some (Element (JS.lit "code") ccls cch) /\
           (forall k c, (k < i)%nat -> children !! k = Some c ->
                        hasTag "code" c = false) /\
           process ccls cch = Some (ccls', cch') /\
           children' !! i = Some (Element (JS.lit "code") ccls' cch')).
Proof.
  intros Hv. destruct n as [v|tag cls children].
  { injection Hv as <-. split; [reflexivity|]. intros ? ? ? [=]. }
  assert (Hsame : n' = Element tag cls children ->
    exists children', n' = Element tag cls children' /\
      length children' = length children /\
      (forall i, codeIndex children <> Some i -> children' !! i = children !! i)).
  { intros ->. exists children. auto. }
  cbn [visitor hasTag] in *.
  change (head (List.filter _ (seq 0 (length children))))
    with (codeIndex children) in Hv.
  destruct (JS.eqb tag (JS.lit "pre")) eqn:Htag.
  - split; [discriminate|]. intros tag0 cls0 ch0 [= <- <- <-].
    destruct (codeIndex children) as [c|] eqn:Hci.
    + destruct (codeIndex_spec children c Hci)
        as ((ctag & ccls & cch & Hc & ->) & Hfirst).
      rewrite Hc in Hv.
      destruct (process ccls cch) as [[ccls' cch']|] eqn:Hp; [|discriminate Hv].
      cbn [mbind option_bind] in Hv. injection Hv as <-.
      eexists. split; [reflexivity|]. split; [apply length_insert|]. split.
      * intros i Hi. apply list_lookup_insert_ne. congruence.
      * intros i _ [= <-]. exists ccls, cch, ccls', cch'.
        split; [exact Hc|]. split; [exact Hfirst|]. split; [exact Hp|].
        apply list_lookup_insert_eq. eapply lookup_lt_Some. exact Hc.
    + injection Hv as <-. exists children. split; [reflexivity|].
      split; [reflexivity|]. split; [reflexivity|]. intros i _ [=].
  - injection Hv as <-. split; [reflexivity|].
    intros tag0 cls0 ch0 [= <- <- <-]. exists children.
    split; [reflexivity|]. split; [reflexivity|]. split; [reflexivity|].
    intros i [=].
Qed.

Lemma mapM_id {A} (f : A -> option A) (xs : list A) :
  (forall x, x ∈ xs -> f x = Some x) -> mapM f xs = Some xs.
Proof.
  intros H. apply mapM_Some. induction xs as [|x xs IH]; [apply List.Forall2_nil|].
  apply List.Forall2_cons; [apply H; left|].
  apply IH. intros y Hy. apply H. right. exact Hy.
Qed.

Lemma visit_noPre (fuel : nat) : forall n,
  noPre n = true -> (depth n <= fuel)%nat -> visit process fuel n = Some n.
Proof.
  induction fuel as [|fuel IH]; intros [v|tag cls cs] Hn Hd;
    try reflexivity.
  - simpl in Hd. lia.
  - cbn [noPre] in Hn. apply andb_true_iff in Hn as [Htag Hcs].
    apply negb_true_iff in Htag. cbn [visit visitor]. rewrite Htag.
    cbn [mbind option_bind]. rewrite mapM_id; [reflexivity|].
    intros c Hc. apply IH.
    + rewrite forallb_forall in Hcs. apply Hcs, list_elem_of_In, Hc.
    + assert (H1 := depth_le_maxDepth c cs Hc). simpl in Hd.
      unfold maxDepth in H1. lia.
Qed.

(** X7. A tree without any [pre] element comes back unchanged, whatever the
    block transform is: in each of the three revisions the walk touches
    nothing outside [pre] elements. *)
Theorem no_pre_unchanged (tree : list node) :
  forallb noPre tree = true -> annotateWith process tree = Some tree.
Proof.
  intros H. unfold annotateWith. apply mapM_id. intros n Hn.
  apply visit_noPre.
  - rewrite forallb_forall in H. apply H, list_elem_of_In, Hn.
  - apply (depth_le_maxDepth n tree Hn).
Qed.

Hypothesis process_total :
  forall cls cs, exists cls' out, process cls cs = Some (cls', out).

Hypothesis process_depth :
  forall cls cs cls' out,
    process cls cs = Some (cls', out) -> (maxDepth out <= maxDepth cs)%nat.

Lemma visit_flat (fuel : nat) (n : node) :
  (depth n <= fuel)%nat ->
  (forall tag cls cs', visitor process n = Some (Element tag cls cs') ->
     forallb noPre cs' = true) ->
  visit process fuel n = visitor process n.
Proof.
  intros Hd Hflat. destruct n as [v|tag cls cs]; [destruct fuel; reflexivity|].
  destruct fuel as [|fuel]; [simpl in Hd; lia|].
  destruct (visitor_total process process_total process_depth tag cls cs)
    as (cs' & Hv & Hle).
  cbn [visit]. rewrite Hv. cbn [mbind option_bind].
  rewrite mapM_id; [reflexivity|].
  intros c Hc. apply visit_noPre.
  - specialize (Hflat tag cls cs' Hv). rewrite forallb_forall in Hflat.
    apply Hflat, list_elem_of_In, Hc.
  - assert (H1 := depth_le_maxDepth c cs' Hc). simpl in Hd.
    unfold maxDepth in *. lia.
Qed.


Lemma mapM_ext_in {A B} (f g : A -> option B) (xs : list A) :
  (forall x, x ∈ xs -> f x = g x) -> mapM f xs = mapM g xs.
Proof.
  induction xs as [|x xs IH]; intros H; [reflexivity|].
  cbn [mapM]. rewrite (H x) by left. rewrite IH; [reflexivity|].
  intros y Hy. apply H. right. exact Hy.
Qed.

Lemma annotateWith_flat (tree : list node) :
  (forall n tag cls cs', n ∈ tree ->
     visitor process n = Some (Element tag cls cs') -> forallb noPre cs' = true) ->
  annotateWith process tree = mapM (visitor process) tree.
Proof.
  intros Hflat. unfold annotateWith. apply mapM_ext_in.
  intros n Hn. apply visit_flat; [apply (depth_le_maxDepth n tree Hn)|].
  intros tag cls cs'. apply Hflat, Hn.
Qed.

End AnyProcess.

Lemma visitor_frame_witness :
  (hasTag "pre"
     (Element (JS.lit "pre") None
        [Text NEWLINE;
         Element (JS.lit "code") None [line "// spotlight-start"; newline; line "a"];
         Element (JS.lit "code") None [line "// spotlight-end"]]) = false ->
   Element (JS.lit "pre") None
     [Text NEWLINE;
      Element (JS.lit "code") (Some [JS.lit "has-spotlights"])
        [Element (JS.lit "span") (Some [JS.lit "line"; JS.lit "spotlight"])
           [Text (JS.lit "a")]];
      Element (JS.lit "code") None [line "// spotlight-end"]]
   = Element (JS.lit "pre") None
       [Text NEWLINE;
        Element (JS.lit "code") None [line "// spotlight-start"; newline; line "a"];
        Element (JS.lit "code") None [line "// spotlight-end"]]) /\
  forall tag cls children,
    Element (JS.lit "pre") None
      [Text NEWLINE;
       Element (JS.lit "code") None [line "// spotlight-start"; newline; line "a"];
       Element (JS.lit "code") None [line "// spotlight-end"]]
    = Element tag cls children ->
    exists children',
      Element (JS.lit "pre") None
        [Text NEWLINE;
         Element (JS.lit "code") (Some [JS.lit "has-spotlights"])
           [Element (JS.lit "span") (Some [JS.lit "line"; JS.lit "spotlight"])
              [Text (JS.lit "a")]];
         Element (JS.lit "code") None [line "// spotlight-end"]]
      = Element tag cls children' /\
      length children' = length children /\
      (forall i, codeIndex children <> Some i -> children' !! i = children !! i) /\
      (forall i,
         hasTag "pre"
           (Element (JS.lit "pre") None
              [Text NEWLINE;
               Element (JS.lit "code") None
                 [line "// spotlight-start"; newline; line "a"];
               Element (JS.lit "code") None [line "// spotlight-end"]]) = true ->
         codeIndex children = Some i ->
         exists ccls cch ccls' cch',
           children !! i = Some (Element (JS.lit "code") ccls cch) /\
           (forall k c, (k < i)%nat -> children !! k = Some c ->
                        hasTag "code" c = false) /\
           Spotlight.processCode ccls cch = Some (ccls', cch') /\
           children' !! i = Some (Element (JS.lit "code") ccls' cch')).
Proof.
  apply (visitor_frame Spotlight.processCode
           (Element (JS.lit "pre") None
              [Text NEWLINE;
               Element (JS.lit "code") None
                 [line "// spotlight-start"; newline; line "a"];
               Element (JS.lit "code") None [line "// spotlight-end"]])).
  reflexivity.
Defined.

Lemma no_pre_unchanged_witness :
  forallb noPre
    [Element (JS.lit "div") None
       [Element (JS.lit "code") None [line "// spotlight-start"; newline; line "a"]]]
    = true /\
  annotateWith Spotlight.processCode
    [Element (JS.lit "div") None
       [Element (JS.lit "code") None [line "// spotlight-start"; newline; line "a"]]]
  = Some
    [Element (JS.lit "div") None
       [Element (JS.lit "code") None [line "// spotlight-start"; newline; line "a"]]].
Proof.
  split; [reflexivity|].
  apply (no_pre_unchanged Spotlight.processCode). reflexivity.
Defined.

(** X8. On a tree whose top-level nodes, after the visitor has run on them,
    have no [pre] element below them, the whole transform is the visitor
    run once on each top-level node: what holds of the visitor on a block
    holds of [annotate]. *)
Theorem annotate_flat (tree : list node) :
  (forall n tag cls cs', n ∈ tree ->
     visitor Spotlight.processCode n = Some (Element tag cls cs') ->
     forallb noPre cs' = true) ->
  annotate tree = mapM (visitor Spotlight.processCode) tree.
Proof.
  apply (annotateWith_flat Spotlight.processCode).
  - apply processCode_total.
  - apply processCode_depth.
Qed.

Lemma annotate_flat_witness :
  (forall n tag cls cs',
     n ∈ [Element (JS.lit "pre") None
            [Element (JS.lit "code") None
               [line "// spotlight-start"; newline; line "a"]]] ->
     visitor Spotlight.processCode n = Some (Element tag cls cs') ->
     forallb noPre cs' = true) /\
  annotate
    [Element (JS.lit "pre") None
       [Element (JS.lit "code") None [line "// spotlight-start"; newline; line "a"]]]
  = mapM (visitor Spotlight.processCode)
    [Element (JS.lit "pre") None
       [Element (JS.lit "code") None [line "// spotlight-start"; newline; line "a"]]].
Proof.
  assert (H : forall n tag cls cs',
     n ∈ [Element (JS.lit "pre") None
            [Element (JS.lit "code") None
               [line "// spotlight-start"; newline; line "a"]]] ->
     visitor Spotlight.processCode n = Some (Element tag cls cs') ->
     forallb noPre cs' = true).
  { intros n tag cls cs' Hn%list_elem_of_singleton Hv. subst n.
    vm_compute in Hv. injection Hv as _ _ <-. reflexivity. }
  split; [exact H|]. apply (annotate_flat _ H).
Defined.

End Tree.

(** ** Properties beyond the claims: the revision in between *)

Section MiddleRevision.

Implicit Types (h : store) (i j k : ref) (cs : list node) (cls : classes).

Lemma middle_lineStep_eq (children : list ref) h (b : bool) j :
  (forall n, contentAt h j = Some n -> isBlank (getText n) = false) ->
  Middle.lineStep children (h, b) j = Spotlight.lineStep children (h, b) j.
Proof.
  intros Hnb. unfold Middle.lineStep, Spotlight.lineStep, contentAt in *.
  destruct (h !! j) as [o|]; [|reflexivity]. cbn [mbind option_bind].
  rewrite (Hnb (content o) eq_refl). reflexivity.
Qed.

Lemma middle_forEach_eq (children : list ref) (ls : list ref) : forall h (b : bool),
  NoDup ls ->
  (forall j n, j ∈ ls -> contentAt h j = Some n -> isBlank (getText n) = false) ->
  Middle.forEach children ls (h, b) = Spotlight.forEach children ls (h, b).
Proof.
  induction ls as [|j ls IH]; intros h b Hnd Hnb; [reflexivity|].
  apply NoDup_cons in Hnd as [Hj Hnd].
  cbn [Middle.forEach Spotlight.forEach].
  rewrite middle_lineStep_eq by (intros n; apply Hnb; left).
  destruct (Spotlight.lineStep children (h, b) j) as [[h' b']|] eqn:Hs;
    [|reflexivity].
  cbn [mbind option_bind]. apply IH; [exact Hnd|].
  apply lineStep_effect in Hs as (n0 & n0' & _ & _ & _ & _ & _ & Hoth & _).
  intros i n Hi Hc. apply (Hnb i n); [right; exact Hi|].
  rewrite <- Hoth; [exact Hc|]. intros Heq. subst i. contradiction.
Qed.

(** X9. On a block none of whose lines has blank text the revision in between
    and the current revision return the same classes and the same
    children: the two differ only through the trailing cleanup and the
    placeholder, and both act on blank lines alone. *)
Theorem middle_agrees_without_blank_lines cls cs :
  (forall n, n ∈ cs -> isLine n = true -> isBlank (getText n) = false) ->
  Middle.processCode cls cs = Spotlight.processCode cls cs.
Proof.
  intros Hnb.
  assert (Htr : trailingRefs cs = []).
  { apply trailingRefs_not_blank. intros l n Hlast Hn.
    apply last_Some_elem_of, elem_of_lineRefs in Hlast as (n0 & Hn0 & Hl).
    assert (n0 = n) by congruence. subst n0.
    apply Hnb; [|exact Hl]. apply list_elem_of_lookup. eauto. }
  assert (Hcl : cleaned cs = seq 0 (length cs)).
  { unfold cleaned. rewrite Htr. apply forallb_filter_id.
    apply forallb_forall. reflexivity. }
  assert (Hdet : Spotlight.hasSpotlights (lineRefs cs) (alloc cs) = detects cs)
    by apply (hasSpotlights_marks [] cs).
  unfold Middle.processCode.
  change (refsWhere isLine (alloc cs) (seq 0 (length cs))) with (lineRefs cs).
  rewrite Hdet. destruct (detects cs) eqn:Hd;
    [|rewrite (processCode_undetected cls cs Hd), (withoutTrailing_id cs Htr);
      reflexivity].
  unfold Spotlight.processCode. rewrite runCode_eq, Htr, Hcl, Hd. cbn [foldr].
  rewrite middle_forEach_eq.
  - destruct (Spotlight.forEach _ _ _) as [[h2 b2]|]; reflexivity.
  - apply NoDup_lineRefs.
  - intros j n (n0 & Hn0 & Hl)%elem_of_lineRefs Hc.
    rewrite contentAt_alloc in Hc. assert (n0 = n) by congruence. subst n0.
    apply Hnb; [|exact Hl]. apply list_elem_of_lookup. eauto.
Qed.

Lemma middle_agrees_without_blank_lines_witness :
  (forall n,
     n ∈ [line "a"; newline; line "// spotlight-start"; newline; line "b"] ->
     isLine n = true -> isBlank (getText n) = false) /\
  Middle.processCode None
    [line "a"; newline; line "// spotlight-start"; newline; line "b"]
  = Spotlight.processCode None
    [line "a"; newline; line "// spotlight-start"; newline; line "b"].
Proof.
  assert (H : forall n,
     n ∈ [line "a"; newline; line "// spotlight-start"; newline; line "b"] ->
     isLine n = true -> isBlank (getText n) = false).
  { intros n Hn Hl. repeat (apply elem_of_cons in Hn as [->|Hn]);
      try reflexivity; try discriminate Hl. inversion Hn. }
  split; [exact H|].
  apply (middle_agrees_without_blank_lines None _ H).
Defined.

End MiddleRevision.

(** ** Properties beyond the claims: the earlier revision *)

Section EarlierRevision.

Implicit Types (h : store) (i j k : ref) (cs : list node) (cls : classes).

Lemma earlier_transformNode_Element tag cls cs :
  Earlier.transformNode (Element tag cls cs) =
  (Element tag cls (pruned cs),
   match pruned cs with [] => true | _ :: _ => false end).
Proof.
  assert (H : forall l,
    fst (Earlier.transformNode (Element tag cls l)) = Element tag cls (pruned l)).
  { induction l as [|c l IH]; [reflexivity|].
    cbn [Earlier.transformNode fst] in IH |- *. injection IH as IH.
    unfold pruned. rewrite omap_step. fold (pruned l).
    destruct (Earlier.transformNode c) as [c' [|]]; rewrite IH; reflexivity. }
  specialize (H cs). cbn [Earlier.transformNode fst] in H |- *.
  injection H as H. rewrite H. reflexivity.
Qed.

Lemma pruned_step (c : node) cs :
  pruned (c :: cs) =
  if snd (Earlier.transformNode c) then pruned cs
  else fst (Earlier.transformNode c) :: pruned cs.
Proof.
  unfold pruned. rewrite omap_step.
  destruct (Earlier.transformNode c) as [c' [|]]; reflexivity.
Qed.

Lemma earlier_text_any (n : node) :
  (if snd (Earlier.transformNode n) then []
   else getText (fst (Earlier.transformNode n)))
  = concat (List.filter notBlank (map stripBoth (leaves n))).
Proof.
  induction n as [v|tag cls cs IH] using node_forall_ind.
  - cbn [Earlier.transformNode leaves map]. destruct (JS.truthy v) eqn:Hv.
    + cbn [fst snd List.filter]. fold (stripBoth v). unfold notBlank.
      destruct (isBlank (stripBoth v)); [reflexivity|].
      rewrite getText_Text. simpl. rewrite app_nil_r. reflexivity.
    + destruct v; [|discriminate Hv]. reflexivity.
  - rewrite earlier_transformNode_Element. cbn [fst snd leaves].
    transitivity (concat (map getText (pruned cs))).
    { destruct (pruned cs); reflexivity. }
    induction IH as [|c cs Hc _ IHcs]; [reflexivity|].
    rewrite pruned_step. cbn [map concat].
    rewrite map_app, List.filter_app, concat_app, <- Hc, <- IHcs.
    destruct (snd (Earlier.transformNode c)); reflexivity.
Qed.

Lemma isEmptySpan_pruned tag cls cs :
  Earlier.isEmptySpan (Element tag cls (pruned cs)) = true ->
  concat (List.filter notBlank (map stripBoth (leaves (Element tag cls cs)))) = [].
Proof.
  intros H. rewrite <- earlier_text_any, earlier_transformNode_Element.
  cbn [fst snd]. simpl in H. apply andb_true_iff in H as [_ H].
  destruct (pruned cs); [reflexivity | discriminate H].
Qed.

Lemma earlierResult_eq (b : bool) tag cl cs :
  earlierResult b (Element tag (Some cl) cs) =
  Some (Element tag
          (if textMarked (Element tag (Some cl) cs) then Some cl
           else Some (cl ++ [JS.lit (if b then "spotlight" else "dim")]))
          (pruned cs)).
Proof.
  unfold earlierResult, textMarked.
  assert (H : forall c,
    (let '(n', isEmpty) := Earlier.transformNode (Element tag c cs) in
     Some (if isEmpty then setChildren [] n' else n'))
    = Some (Element tag c (pruned cs))).
  { intros c. rewrite earlier_transformNode_Element.
    destruct (pruned cs); reflexivity. }
  destruct (JS.includes START _); [apply H|].
  destruct (JS.includes END_ _); [apply H|].
  destruct b; apply H.
Qed.

Lemma earlierResult_line (b : bool) (n : node) :
  isLine n = true -> exists n', earlierResult b n = Some n' /\ isLine n' = true.
Proof.
  intros Hl. destruct n as [v|tag [cl|] cs]; [discriminate Hl| |].
  2:{ cbn [isLine classIncludes] in Hl. rewrite andb_false_r in Hl.
      discriminate Hl. }
  rewrite earlierResult_eq. eexists. split; [reflexivity|].
  cbn [isLine classIncludes] in Hl |- *.
  apply andb_true_iff in Hl as [-> Hl]. cbn [andb].
  destruct (textMarked _); cbn [classIncludes]; [exact Hl|].
  rewrite existsb_app, Hl. reflexivity.
Qed.

Lemma nextState_earlier (b : bool) (s : JS.str) :
  nextState b s =
  if JS.includes START s then true else if JS.includes END_ s then false else b.
Proof.
  destruct (JS.includes START s || JS.includes END_ s) eqn:Hm.
  - rewrite (nextState_marked b s Hm).
    destruct (JS.includes START s); [reflexivity|]. simpl in Hm.
    rewrite Hm. reflexivity.
  - apply orb_false_iff in Hm as [H1 H2]. rewrite (nextState_plain b s H1 H2), H1, H2.
    reflexivity.
Qed.

Lemma earlier_lineStep_eq h (b : bool) j (o : obj) :
  h !! j = Some o ->
  Earlier.lineStep (h, b) j =
    n' ← earlierResult b (content o);
    Some (setContent j n' h, nextState b (getText (content o))).
Proof.
  intros Ho. unfold Earlier.lineStep, earlierResult. rewrite Ho.
  cbn [mbind option_bind]. rewrite nextState_earlier.
  destruct (JS.includes START _);
    [cbn [mbind option_bind]; destruct (Earlier.transformNode _); reflexivity|].
  destruct (JS.includes END_ _);
    [cbn [mbind option_bind]; destruct (Earlier.transformNode _); reflexivity|].
  destruct b.
  - destruct (addClass "spotlight" _); [|reflexivity].
    cbn [mbind option_bind]. destruct (Earlier.transformNode _); reflexivity.
  - destruct (addClass "dim" _); [|reflexivity].
    cbn [mbind option_bind]. destruct (Earlier.transformNode _); reflexivity.
Qed.

Lemma earlier_forEach_spec (ls : list ref) : forall h (b : bool),
  NoDup ls ->
  (forall j, j ∈ ls -> exists n, contentAt h j = Some n /\ isLine n = true) ->
  exists h' b', Earlier.forEach ls (h, b) = Some (h', b') /\
    (forall i, i ∉ ls -> contentAt h' i = contentAt h i) /\
    (forall pre j post, ls = pre ++ j :: post ->
       exists n n', contentAt h j = Some n /\
         earlierResult (foldl nextState b (textsOf h pre)) n = Some n' /\
         contentAt h' j = Some n').
Proof.
  induction ls as [|j ls IH]; intros h b Hnd Hls.
  - exists h, b. split; [reflexivity|]. split; [reflexivity|].
    intros pre j post Hl. destruct pre; discriminate.
  - apply NoDup_cons in Hnd as [Hj Hnd].
    destruct (Hls j (list_elem_of_here _ _)) as (n & Hn & Hl).
    assert (Hn0 := Hn).
    unfold contentAt in Hn. destruct (h !! j) as [o|] eqn:Ho; [|discriminate].
    simpl in Hn. injection Hn as Hn. subst n.
    destruct (earlierResult_line b _ Hl) as (n' & Hres & _).
    cbn [Earlier.forEach]. rewrite (earlier_lineStep_eq h b j o Ho), Hres.
    cbn [mbind option_bind].
    set (h1 := setContent j n' h).
    assert (Hsame : forall i, i ∈ ls -> contentAt h1 i = contentAt h i).
    { intros i Hi. apply content_setContent_ne. intros ->. contradiction. }
    destruct (IH h1 (nextState b (getText (content o))) Hnd)
      as (h' & b' & Hrun & Hout & Hin).
    { intros i Hi. rewrite (Hsame i Hi). apply Hls. right. exact Hi. }
    exists h', b'. split; [exact Hrun|]. split.
    + intros i Hi. rewrite not_elem_of_cons in Hi. destruct Hi as [Hij Hi].
      rewrite (Hout i Hi). apply content_setContent_ne. congruence.
    + intros pre j' post Hsplit. destruct pre as [|p pre]; simpl in Hsplit.
      * injection Hsplit as <- <-. exists (content o), n'.
        split; [exact Hn0|]. split; [exact Hres|].
        rewrite (Hout j Hj). unfold h1. rewrite content_setContent_eq, Hn0.
        reflexivity.
      * injection Hsplit as <- ->.
        destruct (Hin pre j' post eq_refl) as (m & m' & Hm & Hr & Hm').
        assert (Hj' : j' ∈ pre ++ j' :: post)
          by (apply elem_of_app; right; left).
        exists m, m'. split; [rewrite <- (Hsame j' Hj'); exact Hm|].
        split; [|exact Hm'].
        rewrite (textsOf_cons _ _ _ _ Hn0). simpl.
        rewrite <- (textsOf_ext h h1 pre); [exact Hr|].
        intros i Hi. apply Hsame. apply elem_of_app; left; exact Hi.
Qed.

Lemma earlier_processCode_eq cls cs :
  Earlier.processCode cls cs =
  Some (if detects cs
        then (Some (default [] cls ++ [JS.lit "has-spotlights"]),
              omap (earlierChild cs) (seq 0 (length cs)))
        else (cls, cs)).
Proof.
  assert (Hdet : Spotlight.hasSpotlights (lineRefs cs) (alloc cs) = detects cs)
    by apply (hasSpotlights_marks [] cs).
  unfold Earlier.processCode, Earlier.hasSpotlights.
  change (refsWhere isLine (alloc cs) (seq 0 (length cs))) with (lineRefs cs).
  rewrite Hdet. destruct (detects cs); [|reflexivity].
  destruct (earlier_forEach_spec (lineRefs cs) (alloc cs) false (NoDup_lineRefs cs))
    as (h1 & b1 & Hrun & Hout & Hin).
  { intros j (n & Hn & Hl)%elem_of_lineRefs. exists n.
    rewrite contentAt_alloc. auto. }
  rewrite Hrun. cbn [mbind option_bind]. do 2 f_equal.
  assert (Hat : forall i n, cs !! i = Some n ->
            contentAt h1 i =
            if isLine n then earlierResult (stateBefore cs i) n else Some n).
  { intros i n Hn. destruct (isLine n) eqn:Hl.
    - destruct (Hin _ _ _ (lineRefs_split cs i n Hn Hl)) as (m & m' & Hm & Hr & Hm').
      rewrite contentAt_alloc, Hn in Hm. injection Hm as <-.
      rewrite Hm'. symmetry. exact Hr.
    - rewrite Hout, contentAt_alloc; [exact Hn|].
      intros (m & Hm & Hlm)%elem_of_lineRefs. congruence. }
  assert (Hgen : forall l, (forall i, i ∈ l -> (i < length cs)%nat) ->
    omap (fun i => content <$> h1 !! i)
      (List.filter (fun r => match h1 !! r with
                             | Some o => negb (Earlier.isEmptySpan (content o))
                             | None => true
                             end) l)
    = omap (earlierChild cs) l).
  { induction l as [|i l IH]; intros Hl; [reflexivity|].
    assert (Hi : (i < length cs)%nat) by (apply Hl; left).
    destruct (lookup_lt_is_Some_2 cs i Hi) as [n Hn].
    assert (Hc := Hat i n Hn). unfold contentAt in Hc.
    cbn [List.filter]. rewrite (omap_step (earlierChild cs)).
    unfold earlierChild at 1. rewrite Hn. cbn [mbind option_bind].
    rewrite <- Hc. destruct (h1 !! i) as [o|] eqn:Ho; cbn [fmap option_fmap option_map mbind option_bind].
    - destruct (Earlier.isEmptySpan (content o)); cbn [negb].
      + apply IH. intros k Hk. apply Hl. right. exact Hk.
      + rewrite omap_step, Ho. cbn [fmap option_fmap option_map].
        f_equal. apply IH. intros k Hk. apply Hl. right. exact Hk.
    - rewrite omap_step, Ho. cbn [fmap option_fmap option_map].
      apply IH. intros k Hk. apply Hl. right. exact Hk. }
  apply Hgen. intros i Hi%elem_of_seq. lia.
Qed.

(** X10. The callback of the earlier revision never throws on a line, and the
    text it leaves on the line is the text values below the line, each
    with the first start marker and the first end marker (and the white
    space behind them) taken out, those that are blank afterwards dropped:
    white space that stands in a text value of its own, such as an
    indentation token, is lost. *)
Theorem earlier_line_text h (b : bool) j (o : obj) :
  h !! j = Some o -> isLine (content o) = true ->
  exists n', Earlier.lineStep (h, b) j =
             Some (setContent j n' h, nextState b (getText (content o))) /\
    isLine n' = true /\
    getText n' =
      concat (List.filter notBlank (map stripBoth (leaves (content o)))).
Proof.
  intros Ho Hl. rewrite (earlier_lineStep_eq h b j o Ho).
  destruct (earlierResult_line b _ Hl) as (n' & Hres & Hl').
  rewrite Hres. cbn [mbind option_bind]. exists n'.
  split; [reflexivity|]. split; [exact Hl'|].
  destruct (content o) as [v|tag [cl|] cs]; [discriminate Hl| |].
  2:{ cbn [isLine classIncludes] in Hl. rewrite andb_false_r in Hl.
      discriminate Hl. }
  rewrite earlierResult_eq in Hres. injection Hres as <-.
  assert (H := earlier_text_any (Element tag (Some cl) cs)).
  rewrite earlier_transformNode_Element in H. cbn [fst snd] in H.
  rewrite <- H. destruct (pruned cs); reflexivity.
Qed.

Lemma earlier_line_text_witness :
  exists n',
    Earlier.lineStep
      (alloc [Element (JS.lit "span") (Some [JS.lit "line"])
                [Text (JS.lit "  "); Text (JS.lit "f(); // spotlight-start")]],
       false) 0%nat
    = Some (setContent 0%nat n'
              (alloc [Element (JS.lit "span") (Some [JS.lit "line"])
                        [Text (JS.lit "  ");
                         Text (JS.lit "f(); // spotlight-start")]]),
            nextState false
              (getText
                 (Element (JS.lit "span") (Some [JS.lit "line"])
                    [Text (JS.lit "  ");
                     Text (JS.lit "f(); // spotlight-start")]))) /\
    isLine n' = true /\
    getText n' =
      concat (List.filter notBlank
                (map stripBoth
                   (leaves
                      (Element (JS.lit "span") (Some [JS.lit "line"])
                         [Text (JS.lit "  ");
                          Text (JS.lit "f(); // spotlight-start")])))).
Proof.
  apply (earlier_line_text
           (alloc [Element (JS.lit "span") (Some [JS.lit "line"])
                     [Text (JS.lit "  ");
                      Text (JS.lit "f(); // spotlight-start")]])
           false 0%nat
           (Obj (Element (JS.lit "span") (Some [JS.lit "line"])
                   [Text (JS.lit "  "); Text (JS.lit "f(); // spotlight-start")])
                false));
    reflexivity.
Defined.

(** X11. The callbacks of the earlier and of the current revision agree on the
    state: on any line, met in any state, both succeed and leave the same
    [isSpotlighting]; and on a line without a marker in its text they
    leave the same class array on the line. *)
Theorem callbacks_agree (children : list ref) h (b : bool) j (o : obj) :
  h !! j = Some o -> isLine (content o) = true ->
  exists h1 h2 b',
    Earlier.lineStep (h, b) j = Some (h1, b') /\
    Spotlight.lineStep children (h, b) j = Some (h2, b') /\
    (textMarked (content o) = false ->
     classOf <$> contentAt h1 j = classOf <$> contentAt h2 j).
Proof.
  intros Ho Hl. rewrite (earlier_lineStep_eq h b j o Ho).
  rewrite (lineStep_eq children h b j o Ho).
  destruct (earlierResult_line b _ Hl) as (e & He & _).
  destruct (lineResult_line b _ Hl) as (c & Hc & _).
  rewrite He, Hc. cbn [mbind option_bind].
  eexists _, _, _. split; [reflexivity|]. split; [reflexivity|].
  intros Hm. rewrite (plain_not_markerOnly _ Hm).
  assert (Hat : contentAt h j = Some (content o))
    by (unfold contentAt; rewrite Ho; reflexivity).
  rewrite !content_setContent_eq, Hat. cbn [fmap option_fmap option_map].
  f_equal. rewrite (lineResult_plain_eq b _ Hl Hm) in Hc. injection Hc as <-.
  destruct (content o) as [v|tag [cl|] cs]; [discriminate Hl| |].
  2:{ cbn [isLine classIncludes] in Hl. rewrite andb_false_r in Hl.
      discriminate Hl. }
  rewrite earlierResult_eq, Hm in He. injection He as <-.
  unfold classified. cbn [withClass].
  destruct (b && isBlank _); destruct b; reflexivity.
Qed.

Lemma callbacks_agree_witness :
  exists h1 h2 b',
    Earlier.lineStep (alloc [line "a"], true) 0%nat = Some (h1, b') /\
    Spotlight.lineStep [0%nat] (alloc [line "a"], true) 0%nat = Some (h2, b') /\
    (textMarked (line "a") = false ->
     classOf <$> contentAt h1 0%nat = classOf <$> contentAt h2 0%nat).
Proof.
  apply (callbacks_agree [0%nat] (alloc [line "a"]) true 0%nat
           (Obj (line "a") false));
    reflexivity.
Defined.

Lemma depth_earlier_transformNode (n : node) :
  (depth (fst (Earlier.transformNode n)) <= depth n)%nat.
Proof.
  induction n as [v|tag cls cs IH] using node_forall_ind.
  - cbn [Earlier.transformNode]. destruct (JS.truthy v); simpl; lia.
  - rewrite earlier_transformNode_Element. cbn [fst depth].
    apply le_n_S. induction IH as [|c cs Hc _ IHcs]; [reflexivity|].
    rewrite pruned_step. cbn [map foldr].
    destruct (snd (Earlier.transformNode c)); cbn [map foldr]; lia.
Qed.

Lemma depth_earlierResult (b : bool) (n n' : node) :
  isLine n = true -> earlierResult b n = Some n' -> (depth n' <= depth n)%nat.
Proof.
  intros Hl Hres. destruct n as [v|tag [cl|] cs]; [discriminate Hl| |].
  2:{ cbn [isLine classIncludes] in Hl. rewrite andb_false_r in Hl.
      discriminate Hl. }
  rewrite earlierResult_eq in Hres. injection Hres as <-.
  assert (H := depth_earlier_transformNode (Element tag (Some cl) cs)).
  rewrite earlier_transformNode_Element in H. exact H.
Qed.

Lemma earlier_processCode_depth cls cs cls' (out : list node) :
  Earlier.processCode cls cs = Some (cls', out) ->
  (maxDepth out <= maxDepth cs)%nat.
Proof.
  rewrite earlier_processCode_eq. intros H. injection H as H.
  destruct (detects cs); injection H as <- <-; [|reflexivity].
  apply maxDepth_le. intros n' (i & _ & Hc)%list_elem_of_omap.
  unfold earlierChild in Hc. destruct (cs !! i) as [n|] eqn:Hn; [|discriminate].
  cbn [mbind option_bind] in Hc.
  assert (Hle := depth_le_maxDepth n cs
                   (proj2 (list_elem_of_lookup _ _) (ex_intro _ i Hn))).
  destruct (isLine n) eqn:Hl.
  - destruct (earlierResult _ n) as [m|] eqn:Hres; [|discriminate].
    cbn [mbind option_bind] in Hc.
    destruct (Earlier.isEmptySpan m); [discriminate|]. injection Hc as <-.
    apply (depth_earlierResult _ _ _ Hl) in Hres. lia.
  - cbn [mbind option_bind] in Hc.
    destruct (Earlier.isEmptySpan n); [discriminate|]. injection Hc as <-. lia.
Qed.

(** X12. The earlier revision on a block, child by child: without a detected
    marker the block is returned as it is; with one, the code element gets
    [has-spotlights] and every child is decided on its own, from the input
    child and the state the lines before it leave: a line becomes what the
    callback makes of it, any other child stays, and a [span] element left
    without children is dropped. It never throws. *)
Theorem earlier_block cls cs :
  exists cls' out, Earlier.processCode cls cs = Some (cls', out) /\
    (detects cs = false -> cls' = cls /\ out = cs) /\
    (detects cs = true ->
       cls' = Some (default [] cls ++ [JS.lit "has-spotlights"]) /\
       out = omap (earlierChild cs) (seq 0 (length cs)) /\
       forall n', n' ∈ out -> Earlier.isEmptySpan n' = false).
Proof.
  rewrite earlier_processCode_eq. destruct (detects cs).
  - eexists _, _. split; [reflexivity|]. split; [discriminate|]. intros _.
    split; [reflexivity|]. split; [reflexivity|].
    intros n' (i & _ & Hc)%list_elem_of_omap. unfold earlierChild in Hc.
    destruct (cs !! i) as [n|]; [|discriminate]. cbn [mbind option_bind] in Hc.
    destruct (if isLine n then _ else _) as [m|]; [|discriminate].
    cbn [mbind option_bind] in Hc.
    destruct (Earlier.isEmptySpan m) eqn:E; [discriminate|]. congruence.
  - eexists _, _. split; [reflexivity|]. split; [auto | discriminate].
Qed.

(** X13. The earlier revision, too, returns on every tree: it never throws and
    the walk ends, whatever the nesting and wherever markers stand. *)
Theorem earlier_never_fails (tree : list node) :
  exists out, annotateEarlier tree = Some out.
Proof.
  apply annotateWith_total.
  - intros cls cs. rewrite earlier_processCode_eq.
    destruct (detects cs); eauto.
  - apply earlier_processCode_depth.
Qed.

End EarlierRevision.

(** ** Properties beyond the claims: lines with a marker beside code *)

Section Inline.

Import Spotlight.

Implicit Types (h : store) (i j k : ref) (cs : list node) (cls : classes).

Lemma transformNode_id (m : JS.str) (n : node) :
  (forall v, v ∈ leaves n -> JS.includes m v = false) -> transformNode m n = n.
Proof.
  induction n as [v|tag cls cs IH] using node_forall_ind; intros H.
  - cbn [transformNode]. destruct (JS.truthy v); [|reflexivity].
    rewrite stripMarker_absent; [reflexivity|]. apply H. left.
  - cbn [transformNode]. f_equal. cbn [leaves] in H.
    induction IH as [|c cs Hc _ IHcs]; [reflexivity|]. cbn [map concat] in H |- *.
    rewrite Hc by (intros v Hv; apply H, elem_of_app; left; exact Hv).
    rewrite IHcs by (intros v Hv; apply H, elem_of_app; right; exact Hv).
    reflexivity.
Qed.

Lemma hasMarker_false_leaves (n : node) (v : JS.str) :
  hasMarker n = false -> v ∈ leaves n ->
  JS.includes START v = false /\ JS.includes END_ v = false.
Proof.
  intros Hm Hv. rewrite hasMarker_leaves in Hm. apply orb_false_iff.
  destruct (JS.includes START v || JS.includes END_ v) eqn:E; [|reflexivity].
  rewrite <- Hm. symmetry. apply existsb_exists. exists v.
  split; [apply list_elem_of_In, Hv | exact E].
Qed.

(** X14. In a block with a detected marker, a line that has a marker beside
    other text is kept where it is with its class array as it was: it gets
    neither [spotlight] nor [dim]. Every text value below it loses the
    first occurrence of one marker and the white space behind it: of the
    start marker when the line's text holds one, else of the end marker.
    When no text value below the line holds a marker whole, the line is
    left exactly as it was, markers included. *)
Theorem inline_marker_line cls cs i (n : node) :
  detects cs = true -> cs !! i = Some n -> isLine n = true ->
  textMarked n = true -> isMarkerOnly (getText n) = false ->
  exists r n',
    runCode cls cs = Some r /\ i ∈ childRefs r /\
    contentAt (heap r) i = Some n' /\
    classOf n' = classOf n /\
    leaves n' =
      map (JS.stripMarker (if JS.includes START (getText n) then START else END_))
          (leaves n) /\
    (hasMarker n = false -> n' = n).
Proof.
  intros Hd Hn Hl Hm Hmk.
  assert (Hnb : isBlank (getText n) = false).
  { destruct (isBlank (getText n)) eqn:E; [|reflexivity].
    unfold textMarked in Hm.
    rewrite (includes_blank START _ eq_refl E) in Hm.
    rewrite (includes_blank END_ _ eq_refl E) in Hm. discriminate Hm. }
  destruct (line_survives cls cs i n Hd Hn Hl Hmk (or_intror Hnb))
    as (r & n' & Hr & _ & Hres & Hin & Hc & _).
  rewrite (lineResult_inline _ n Hmk Hm) in Hres. injection Hres as <-.
  eexists r, _. split; [exact Hr|]. split; [exact Hin|]. split; [exact Hc|].
  split; [apply classOf_transformNode|].
  split; [apply leaves_transformNode|].
  intros Hno. apply transformNode_id. intros v Hv.
  destruct (hasMarker_false_leaves n v Hno Hv) as [Hs He].
  destruct (JS.includes START (getText n)); assumption.
Qed.

Lemma inline_marker_line_witness :
  exists r n',
    runCode None [line "a"; newline; line "b // spotlight-end"] = Some r /\
    2%nat ∈ childRefs r /\
    contentAt (heap r) 2 = Some n' /\
    classOf n' = classOf (line "b // spotlight-end") /\
    leaves n' =
      map (JS.stripMarker
             (if JS.includes START (getText (line "b // spotlight-end"))
              then START else END_))
          (leaves (line "b // spotlight-end")) /\
    (hasMarker (line "b // spotlight-end") = false ->
     n' = line "b // spotlight-end").
Proof.
  apply (inline_marker_line None [line "a"; newline; line "b // spotlight-end"]
           2%nat (line "b // spotlight-end"));
    reflexivity.
Defined.

End Inline.

(** ** Properties beyond the claims: detection *)

Section Detection.

Import Spotlight.

Implicit Types (cs : list node).

(** X15. The test [hasSpotlights], made on the store the trailing cleanup
    leaves, holds exactly when some line of the input has a text value
    below it that holds a marker whole; and then the joined text of some
    line holds a marker, so the pass meets a line with a marker. *)
Theorem detection_by_text_values cs :
  (hasSpotlights (lineRefs cs) (foldr markRemove (alloc cs) (trailingRefs cs)) = true
   <-> exists n v, n ∈ cs /\ isLine n = true /\ v ∈ leaves n /\
         JS.includes START v || JS.includes END_ v = true) /\
  (hasSpotlights (lineRefs cs) (foldr markRemove (alloc cs) (trailingRefs cs)) = true
   -> exists n, n ∈ cs /\ isLine n = true /\ textMarked n = true).
Proof.
  rewrite hasSpotlights_marks. unfold detects.
  assert (Hiff : existsb (fun n => isLine n && hasMarker n) cs = true <->
    exists n v, n ∈ cs /\ isLine n = true /\ v ∈ leaves n /\
      JS.includes START v || JS.includes END_ v = true).
  { rewrite existsb_exists. split.
    - intros (n & Hn & [Hl Hm]%andb_true_iff).
      rewrite hasMarker_leaves in Hm. apply existsb_exists in Hm as (v & Hv & Hm).
      exists n, v. rewrite !list_elem_of_In. auto.
    - intros (n & v & Hn & Hl & Hv & Hm). exists n.
      split; [apply list_elem_of_In, Hn|]. rewrite Hl, hasMarker_leaves.
      apply existsb_exists. exists v. split; [apply list_elem_of_In, Hv | exact Hm]. }
  split; [exact Hiff|].
  intros (n & v & Hn & Hl & Hv & Hm)%Hiff. exists n.
  split; [exact Hn|]. split; [exact Hl|].
  unfold textMarked. rewrite getText_leaves.
  apply list_elem_of_In in Hv.
  apply orb_true_iff in Hm as [Hm|Hm];
    rewrite (includes_concat _ v (leaves n) Hv Hm); [reflexivity | apply orb_true_r].
Qed.

End Detection.

(** ** The children of a block with a detected marker, position by position *)

Section Positions.

Import Spotlight.

Implicit Types (cs : list node) (cls : classes) (i j k : ref).

Lemma omap_Forall2 {A B} (f : A -> option B) (P : A -> B -> Prop) (xs : list A) :
  (forall x, x ∈ xs -> exists y, f x = Some y /\ P x y) ->
  Forall2 P xs (omap f xs).
Proof.
  induction xs as [|x xs IH]; intros H; [constructor|].
  rewrite omap_step. destruct (H x (list_elem_of_here _ _)) as (y & -> & Hy).
  constructor; [exact Hy|]. apply IH. intros z Hz. apply H. right. exact Hz.
Qed.

(** The children a block with a detected marker is left with stand for
    input positions, in the order of the input: a child that is no line is
    the input child, a line is what the callback made of the input line at
    that position in the state the lines before it leave. Marker-only
    lines are at none of the positions; every other line is, unless it is
    a blank last line. *)
Lemma detected_positions cls cs cls' (out : list node) :
  detects cs = true ->
  processCode cls cs = Some (cls', out) ->
  cls' = Some (default [] cls ++ [JS.lit "has-spotlights"]) /\
  exists refs : list nat,
    refs `sublist_of` seq 0 (length cs) /\
    (forall i n, cs !! i = Some n -> isLine n = true ->
       isMarkerOnly (getText n) = true -> i ∉ refs) /\
    (forall i n, cs !! i = Some n -> isLine n = true ->
       isMarkerOnly (getText n) = false ->
       last (lineRefs cs) <> Some i \/ isBlank (getText n) = false ->
       i ∈ refs) /\
    Forall2 (fun i n' =>
      exists n, cs !! i = Some n /\
        (isLine n = false -> n' = n) /\
        (isLine n = true ->
           isMarkerOnly (getText n) = false /\
           lineResult (stateBefore cs i) n = Some n'))
      refs out.
Proof.
  intros Hd Hp.
  destruct (processCode_run _ _ _ _ Hp) as (r & Hr & <- & <-).
  split; [apply (detected_class cls cs r Hd Hr)|].
  destruct (runCode_detected cls cs Hd) as (h2 & Heq & Hother & Hline & Hgone & _).
  assert (Hrr := Hr). rewrite Heq in Hrr. injection Hrr as Hrr.
  exists (childRefs r). split; [|split; [|split]].
  - rewrite <- Hrr. simpl.
    etransitivity; [apply filterb_sublist | apply filterb_sublist].
  - intros i n Hn Hl Hmk Hi. rewrite <- Hrr in Hi. simpl in Hi.
    apply elem_of_filterb in Hi as [_ Hk].
    rewrite (Hgone i n Hn Hl Hmk) in Hk. discriminate.
  - intros i n Hn Hl Hmk Hlast.
    destruct (line_survives cls cs i n Hd Hn Hl Hmk Hlast)
      as (r' & n' & Hr' & _ & _ & Hi & _).
    rewrite Hr in Hr'. injection Hr' as <-. exact Hi.
  - rewrite outChildren_eq. apply omap_Forall2. intros i Hi.
    assert (Hlt : (i < length cs)%nat).
    { rewrite <- Hrr in Hi. simpl in Hi.
      apply elem_of_filterb in Hi as [[Hlt _]%elem_of_cleaned _]. exact Hlt. }
    destruct (lookup_lt_is_Some_2 cs i Hlt) as [n Hn].
    destruct (isLine n) eqn:Hl.
    + destruct (Hline i n Hn Hl) as (n' & Hres & Hc).
      exists n'. split; [rewrite <- Hrr; exact Hc|].
      exists n. split; [exact Hn|]. split; [congruence|]. intros _.
      split; [|exact Hres].
      destruct (isMarkerOnly (getText n)) eqn:Hmk; [|reflexivity].
      rewrite <- Hrr in Hi. simpl in Hi. apply elem_of_filterb in Hi as [_ Hk].
      rewrite (Hgone i n Hn Hl Hmk) in Hk. discriminate.
    + exists n. split.
      * rewrite <- Hrr. simpl. rewrite Hother; [exact Hn|].
        intros (m & Hm & Hlm)%elem_of_lineRefs. congruence.
      * exists n. split; [exact Hn|]. split; [reflexivity|]. congruence.
Qed.

(** C2 (amended). In a block that gets [has-spotlights], the children left
    stand, in input order, for a selection of the input positions that
    holds no marker-only line and every other line but a blank last one.
    A child that is no line is the input child. A line is the input line
    of its position, rewritten: when its text held the start marker, every
    text value below it has lost its leftmost start marker and the white
    space behind that, and nothing else, and an end marker in its text is
    still there; when its text held the end marker only, the same goes for
    the end marker; when its text held no marker, it is the line as
    classified and no text value below it holds a marker. What "leftmost
    occurrence and the white space behind it" means for a text value is
    spelled out in the last part. *)
Theorem marker_text_removal cls cs cls' (out : list node) :
  detects cs = true ->
  processCode cls cs = Some (cls', out) ->
  (exists refs : list nat,
    refs `sublist_of` seq 0 (length cs) /\
    (forall i n, cs !! i = Some n -> isLine n = true ->
       isMarkerOnly (getText n) = true -> i ∉ refs) /\
    (forall i n, cs !! i = Some n -> isLine n = true ->
       isMarkerOnly (getText n) = false ->
       last (lineRefs cs) <> Some i \/ isBlank (getText n) = false ->
       i ∈ refs) /\
    Forall2 (fun i n' =>
      exists n, cs !! i = Some n /\
        (isLine n = false -> n' = n) /\
        (isLine n = true ->
           isLine n' = true /\
           isMarkerOnly (getText n) = false /\
           (JS.includes START (getText n) = true ->
              n' = transformNode START n /\
              leaves n' = map (JS.stripMarker START) (leaves n) /\
              (JS.includes END_ (getText n) = true ->
               JS.includes END_ (getText n') = true)) /\
           (JS.includes START (getText n) = false ->
            JS.includes END_ (getText n) = true ->
              n' = transformNode END_ n /\
              leaves n' = map (JS.stripMarker END_) (leaves n)) /\
           (textMarked n = false ->
              n' = classified (stateBefore cs i) n /\ hasMarker n' = false)))
      refs out) /\
  (forall m v,
     (JS.includes m v = true ->
      exists u w rest,
        v = u ++ m ++ w ++ rest /\
        JS.stripMarker m v = u ++ rest /\
        forallb JS.isSpace w = true /\
        JS.dropSpaces rest = rest /\
        (forall k, (k < length u)%nat -> JS.startsWith m (drop k v) = false)) /\
     (JS.includes m v = false -> JS.stripMarker m v = v)).
Proof.
  intros Hd Hp.
  split; [|intros m v; split; [apply stripMarker_first | apply stripMarker_absent]].
  destruct (detected_positions cls cs cls' out Hd Hp)
    as (_ & refs & Hsub & Hgone & Hstay & Hall).
  exists refs. split; [exact Hsub|]. split; [exact Hgone|]. split; [exact Hstay|].
  eapply Forall2_impl; [exact Hall|]. clear Hall.
  intros i n' (n & Hn & Hnl & Hline). exists n. split; [exact Hn|].
  split; [exact Hnl|]. intros Hl. destruct (Hline Hl) as [Hmk Hres].
  split.
  { destruct (lineResult_line (stateBefore cs i) n Hl) as (m & Hm & Hlm).
    congruence. }
  split; [exact Hmk|]. split; [|split].
  - intros H.
    rewrite lineResult_inline in Hres;
      [|exact Hmk|unfold textMarked; rewrite H; reflexivity].
    rewrite H in Hres. injection Hres as <-.
    split; [reflexivity|]. split; [apply leaves_transformNode|].
    apply end_survives_node.
  - intros H H0.
    rewrite lineResult_inline in Hres;
      [|exact Hmk|unfold textMarked; rewrite H, H0; reflexivity].
    rewrite H in Hres. injection Hres as <-.
    split; [reflexivity | apply leaves_transformNode].
  - intros H. rewrite (lineResult_plain_eq _ _ Hl H) in Hres.
    injection Hres as <-.
    split; [reflexivity | apply hasMarker_classified; assumption].
Qed.

Lemma marker_text_removal_witness :
  detects [line "// spotlight-start"; newline;
           line "x // spotlight-start // spotlight-end"; newline; line "y"] = true /\
  processCode None
    [line "// spotlight-start"; newline;
     line "x // spotlight-start // spotlight-end"; newline; line "y"]
  = Some (Some [JS.lit "has-spotlights"],
          [line "x // spotlight-end"; newline; lineWith "spotlight" "y"]) /\
  (exists refs : list nat,
    refs `sublist_of`
      seq 0 (length [line "// spotlight-start"; newline;
                     line "x // spotlight-start // spotlight-end"; newline;
                     line "y"]) /\
    (forall i n,
       [line "// spotlight-start"; newline;
        line "x // spotlight-start // spotlight-end"; newline; line "y"] !! i
         = Some n ->
       isLine n = true -> isMarkerOnly (getText n) = true -> i ∉ refs) /\
    (forall i n,
       [line "// spotlight-start"; newline;
        line "x // spotlight-start // spotlight-end"; newline; line "y"] !! i
         = Some n ->
       isLine n = true -> isMarkerOnly (getText n) = false ->
       last (lineRefs [line "// spotlight-start"; newline;
                       line "x // spotlight-start // spotlight-end"; newline;
                       line "y"]) <> Some i \/
       isBlank (getText n) = false ->
       i ∈ refs) /\
    Forall2 (fun i n' =>
      exists n,
        [line "// spotlight-start"; newline;
         line "x // spotlight-start // spotlight-end"; newline; line "y"] !! i
          = Some n /\
        (isLine n = false -> n' = n) /\
        (isLine n = true ->
           isLine n' = true /\
           isMarkerOnly (getText n) = false /\
           (JS.includes START (getText n) = true ->
              n' = transformNode START n /\
              leaves n' = map (JS.stripMarker START) (leaves n) /\
              (JS.includes END_ (getText n) = true ->
               JS.includes END_ (getText n') = true)) /\
           (JS.includes START (getText n) = false ->
            JS.includes END_ (getText n) = true ->
              n' = transformNode END_ n /\
              leaves n' = map (JS.stripMarker END_) (leaves n)) /\
           (textMarked n = false ->
              n' = classified
                     (stateBefore
                        [line "// spotlight-start"; newline;
                         line "x // spotlight-start // spotlight-end"; newline;
                         line "y"] i) n /\
              hasMarker n' = false)))
      refs [line "x // spotlight-end"; newline; lineWith "spotlight" "y"]) /\
  (forall m v,
     (JS.includes m v = true ->
      exists u w rest,
        v = u ++ m ++ w ++ rest /\
        JS.stripMarker m v = u ++ rest /\
        forallb JS.isSpace w = true /\
        JS.dropSpaces rest = rest /\
        (forall k, (k < length u)%nat -> JS.startsWith m (drop k v) = false)) /\
     (JS.includes m v = false -> JS.stripMarker m v = v)).
Proof.
  split; [reflexivity|]. split; [reflexivity|].
  apply (marker_text_removal None
           [line "// spotlight-start"; newline;
            line "x // spotlight-start // spotlight-end"; newline; line "y"]
           (Some [JS.lit "has-spotlights"])
           [line "x // spotlight-end"; newline; lineWith "spotlight" "y"]);
    reflexivity.
Defined.

(** C3 (amended). In a block that gets [has-spotlights], the children left
    stand, in input order, for a selection of the input positions that
    holds no marker-only line (marker-only lines are removed) and every
    other line but a blank last one. A child that is no line is the input
    child. A line whose text held no marker is the input line of its
    position with exactly one token appended to its class array,
    [spotlight] when the state the lines before that position leave is
    true and [dim] otherwise (and with the placeholder as its content when
    it is blank and spotlighted); so it carries exactly one of the two
    when the highlighter gave it neither. A line whose text held a marker
    beside other text keeps its class array as it was: it carries
    neither class. *)
Theorem surviving_lines_classified cls cs cls' (out : list node) :
  detects cs = true ->
  processCode cls cs = Some (cls', out) ->
  cls' = Some (default [] cls ++ [JS.lit "has-spotlights"]) /\
  exists refs : list nat,
    refs `sublist_of` seq 0 (length cs) /\
    (forall i n, cs !! i = Some n -> isLine n = true ->
       isMarkerOnly (getText n) = true -> i ∉ refs) /\
    (forall i n, cs !! i = Some n -> isLine n = true ->
       isMarkerOnly (getText n) = false ->
       last (lineRefs cs) <> Some i \/ isBlank (getText n) = false ->
       i ∈ refs) /\
    Forall2 (fun i n' =>
      exists n, cs !! i = Some n /\
        (isLine n = false -> n' = n) /\
        (isLine n = true ->
           isLine n' = true /\
           isMarkerOnly (getText n) = false /\
           (textMarked n = true ->
              n' = transformNode
                     (if JS.includes START (getText n) then START else END_) n /\
              classOf n' = classOf n) /\
           (textMarked n = false ->
              n' = classified (stateBefore cs i) n /\
              exists cl, classOf n = Some cl /\
                classOf n' =
                  Some (cl ++ [JS.lit (if stateBefore cs i
                                       then "spotlight" else "dim")]) /\
                (hasClass "spotlight" n = false -> hasClass "dim" n = false ->
                 hasClass "spotlight" n' = stateBefore cs i /\
                 hasClass "dim" n' = negb (stateBefore cs i)))))
      refs out.
Proof.
  intros Hd Hp.
  destruct (detected_positions cls cs cls' out Hd Hp)
    as (Hcls & refs & Hsub & Hgone & Hstay & Hall).
  split; [exact Hcls|].
  exists refs. split; [exact Hsub|]. split; [exact Hgone|]. split; [exact Hstay|].
  eapply Forall2_impl; [exact Hall|]. clear Hall.
  intros i n' (n & Hn & Hnl & Hline). exists n. split; [exact Hn|].
  split; [exact Hnl|]. intros Hl. destruct (Hline Hl) as [Hmk Hres].
  split.
  { destruct (lineResult_line (stateBefore cs i) n Hl) as (m & Hm & Hlm).
    congruence. }
  split; [exact Hmk|]. split.
  - intros Hm. rewrite (lineResult_inline _ _ Hmk Hm) in Hres.
    injection Hres as <-. split; [reflexivity | apply classOf_transformNode].
  - intros Hm. split.
    { rewrite (lineResult_plain_eq _ _ Hl Hm) in Hres. congruence. }
    destruct (lineResult_plain _ _ _ Hl Hm Hres) as (tag & cl & ch & -> & ->).
    exists cl. split; [reflexivity|]. split; [reflexivity|].
    intros Hs Hdim. rewrite !hasClass_app.
    change (hasClass "spotlight" (Element tag (Some cl) _))
      with (hasClass "spotlight" (Element tag (Some cl) ch)).
    change (hasClass "dim" (Element tag (Some cl) _))
      with (hasClass "dim" (Element tag (Some cl) ch)).
    rewrite Hs, Hdim. destruct (stateBefore cs i); split; reflexivity.
Qed.

Lemma surviving_lines_classified_witness :
  detects [line "a"; newline; line "// spotlight-start"; newline; line "b"] = true /\
  processCode None
    [line "a"; newline; line "// spotlight-start"; newline; line "b"]
  = Some (Some [JS.lit "has-spotlights"],
          [lineWith "dim" "a"; newline; lineWith "spotlight" "b"]) /\
  Some [JS.lit "has-spotlights"]
    = Some (default [] None ++ [JS.lit "has-spotlights"]) /\
  exists refs : list nat,
    refs `sublist_of`
      seq 0 (length [line "a"; newline; line "// spotlight-start"; newline;
                     line "b"]) /\
    (forall i n,
       [line "a"; newline; line "// spotlight-start"; newline; line "b"] !! i
         = Some n ->
       isLine n = true -> isMarkerOnly (getText n) = true -> i ∉ refs) /\
    (forall i n,
       [line "a"; newline; line "// spotlight-start"; newline; line "b"] !! i
         = Some n ->
       isLine n = true -> isMarkerOnly (getText n) = false ->
       last (lineRefs [line "a"; newline; line "// spotlight-start"; newline;
                       line "b"]) <> Some i \/
       isBlank (getText n) = false ->
       i ∈ refs) /\
    Forall2 (fun i n' =>
      exists n,
        [line "a"; newline; line "// spotlight-start"; newline; line "b"] !! i
          = Some n /\
        (isLine n = false -> n' = n) /\
        (isLine n = true ->
           isLine n' = true /\
           isMarkerOnly (getText n) = false /\
           (textMarked n = true ->
              n' = transformNode
                     (if JS.includes START (getText n) then START else END_) n /\
              classOf n' = classOf n) /\
           (textMarked n = false ->
              n' = classified
                     (stateBefore
                        [line "a"; newline; line "// spotlight-start"; newline;
                         line "b"] i) n /\
              exists cl, classOf n = Some cl /\
                classOf n' =
                  Some (cl ++ [JS.lit (if stateBefore
                                            [line "a"; newline;
                                             line "// spotlight-start"; newline;
                                             line "b"] i
                                       then "spotlight" else "dim")]) /\
                (hasClass "spotlight" n = false -> hasClass "dim" n = false ->
                 hasClass "spotlight" n' =
                   stateBefore [line "a"; newline; line "// spotlight-start";
                                newline; line "b"] i /\
                 hasClass "dim" n' =
                   negb (stateBefore [line "a"; newline; line "// spotlight-start";
                                      newline; line "b"] i)))))
      refs [lineWith "dim" "a"; newline; lineWith "spotlight" "b"].
Proof.
  split; [reflexivity|]. split; [reflexivity|].
  apply (surviving_lines_classified None
           [line "a"; newline; line "// spotlight-start"; newline; line "b"]);
    reflexivity.
Defined.

End Positions.
